(** * Calendar11: the rule-based appointment parser

    A shallow embedding of the free-text appointment parser of the
    repository: the synchronous [parseAppointment] with its helpers
    [extractName], [extractPhone] and [extractDateTime], and the
    asynchronous [parseAppointment] of [src/lib/parser.ts], which asks a
    remote model first and falls back on the rule-based parser (there
    called [fallbackParser]); then the handlers of the calendar view of
    [App.tsx], which call the parser and show what it returns.

    Modelling conventions.
    - A JavaScript string is a [string]: a sequence of code units, here
      the code units below 256.  White space, lower-casing and the
      character classes of the regular expressions are those of ECMAScript
      on that range.
    - A regular expression literal is a term of [regex], and [exec] is the
      backtracking matcher of ECMAScript, written as the list of successes
      in the order backtracking tries them.
    - A [Date] is its time value, the milliseconds since the epoch, an
      integer of [Z] (the clipping of time values beyond the range of dates
      is left out, no date of the parser comes near it).  Local time is UTC
      moved by a fixed offset, without daylight saving changes.  The clock
      reading and the offset form the ambient [Clock]; every [new Date()]
      of one call reads the same instant.
    - [null] and [undefined] are [None]; an exception or a rejected promise
      is [Throw].

    The definitions come first: the code, then the vocabulary of the
    statements.  The properties follow. *)

From Stdlib Require Import ZArith List String Ascii Bool Lia.
From Stdlib Require DecimalString DecimalPos DecimalZ.
Import ListNotations.

Local Open Scope string_scope.
Local Open Scope list_scope.

(** ** Characters *)

Definition code (c : ascii) : nat := nat_of_ascii c.

Definition between (lo hi : nat) (c : ascii) : bool :=
  Nat.leb lo (code c) && Nat.leb (code c) hi.

(** [\d], [[A-Z]], [[a-z]] *)
Definition is_digit (c : ascii) : bool := between 48 57 c.
Definition is_upper (c : ascii) : bool := between 65 90 c.
Definition is_lower (c : ascii) : bool := between 97 122 c.

(** [\s], and the characters [trim] strips: TAB, LF, VT, FF, CR, SP, NBSP. *)
Definition is_space (c : ascii) : bool :=
  between 9 13 c || Nat.eqb (code c) 32 || Nat.eqb (code c) 160.

(** [\w], the word characters [\b] is defined from. *)
Definition is_word (c : ascii) : bool :=
  is_digit c || is_upper c || is_lower c || Nat.eqb (code c) 95.

(** [[\s.-]] *)
Definition is_sep (c : ascii) : bool :=
  is_space c || Ascii.eqb c "." || Ascii.eqb c "-".

(** The upper-case letters with a lower-case partner 32 code units above:
    A-Z and the letters of U+00C0-U+00DE (U+00D7, the multiplication sign,
    is not a letter). *)
Definition has_lower (c : ascii) : bool :=
  is_upper c || (between 192 222 c && negb (Nat.eqb (code c) 215)).

Definition has_upper (c : ascii) : bool :=
  is_lower c || (between 224 254 c && negb (Nat.eqb (code c) 247)).

Definition toLowerChar (c : ascii) : ascii :=
  if has_lower c then ascii_of_nat (code c + 32) else c.

(** [Canonicalize] of a case-insensitive regular expression. *)
Definition canonicalize (c : ascii) : ascii :=
  if has_upper c then ascii_of_nat (code c - 32) else c.

(** ** Strings *)

Fixpoint toLowerCase (s : string) : string :=
  match s with
  | EmptyString => EmptyString
  | String c s' => String (toLowerChar c) (toLowerCase s')
  end.

Fixpoint trimStart (s : string) : string :=
  match s with
  | EmptyString => EmptyString
  | String c s' => if is_space c then trimStart s' else s
  end.

Fixpoint trimEnd (s : string) : string :=
  match s with
  | EmptyString => EmptyString
  | String c s' =>
      match trimEnd s' with
      | EmptyString => if is_space c then EmptyString else String c EmptyString
      | t => String c t
      end
  end.

Definition trim (s : string) : string := trimEnd (trimStart s).

Fixpoint take (n : nat) (s : string) : string :=
  match n, s with
  | S n', String c s' => String c (take n' s')
  | _, _ => EmptyString
  end.

Fixpoint drop (n : nat) (s : string) : string :=
  match n, s with
  | S n', String _ s' => drop n' s'
  | _, _ => s
  end.

(** [s.slice(i, j)] for [0 <= i <= j]; [s.slice(i)] is [drop i s]. *)
Definition slice (i j : nat) (s : string) : string := take (j - i) (drop i s).

(** [s.includes(pat)] *)
Fixpoint includes (s pat : string) : bool :=
  prefix pat s ||
  match s with
  | EmptyString => false
  | String _ s' => includes s' pat
  end.

(** [s.replace(pat, rep)] for a string pattern: the first occurrence of
    [pat] is replaced, and [s] is returned unchanged when there is none.
    The parser only calls it with [rep = ''], so the dollar patterns of a
    replacement string never come into play. *)
Fixpoint replace (s pat rep : string) : string :=
  if prefix pat s then rep ++ drop (String.length pat) s
  else match s with
       | EmptyString => EmptyString
       | String c s' => String c (replace s' pat rep)
       end.

Fixpoint filter_string (p : ascii -> bool) (s : string) : string :=
  match s with
  | EmptyString => EmptyString
  | String c s' => if p c then String c (filter_string p s') else filter_string p s'
  end.

Fixpoint forall_string (p : ascii -> bool) (s : string) : bool :=
  match s with
  | EmptyString => true
  | String c s' => p c && forall_string p s'
  end.

(** A JavaScript string is truthy when it is not empty. *)
Definition truthy (s : string) : bool :=
  match s with EmptyString => false | _ => true end.

(** [parseInt] on a string of decimal digits (every argument the parser
    passes is a capture of [\d] repetitions): the value read from the
    leading digits. *)
Fixpoint parseInt_acc (acc : Z) (s : string) : Z :=
  match s with
  | EmptyString => acc
  | String c s' =>
      if is_digit c then parseInt_acc (10 * acc + Z.of_nat (code c - 48)) s'
      else acc
  end.

Definition parseInt (s : string) : Z := parseInt_acc 0 s.

(** ** Regular expressions *)

Inductive regex : Type :=
| Eps : regex
| Chr : (ascii -> bool) -> regex          (* a character class *)
| Seq : regex -> regex -> regex
| Alt : regex -> regex -> regex           (* r1|r2, r1 first *)
| Star : regex -> regex                   (* greedy r* *)
| Group : nat -> regex -> regex           (* the capturing group number n *)
| Bol : regex                             (* ^ *)
| WordB : regex.                          (* \b *)

Declare Scope regex_scope.
Delimit Scope regex_scope with re.
Bind Scope regex_scope with regex.
Infix ">>" := Seq (at level 41, right associativity) : regex_scope.
Infix "<|>" := Alt (at level 42, right associativity) : regex_scope.

(** r? (greedy), r+, r{n}, r{n,n+k} *)
Definition Opt (r : regex) : regex := Alt r Eps.
Definition Plus (r : regex) : regex := Seq r (Star r).

Fixpoint Rep (n : nat) (r : regex) : regex :=
  match n with
  | O => Eps
  | S n' => Seq r (Rep n' r)
  end.

Fixpoint UpTo (k : nat) (r : regex) : regex :=
  match k with
  | O => Eps
  | S k' => Opt (Seq r (UpTo k' r))
  end.

Definition RepRange (n k : nat) (r : regex) : regex := Seq (Rep n r) (UpTo k r).

(** A literal, and a literal under the [i] flag. *)
Fixpoint Lit (s : string) : regex :=
  match s with
  | EmptyString => Eps
  | String c s' => Seq (Chr (Ascii.eqb c)) (Lit s')
  end.

Fixpoint LitI (s : string) : regex :=
  match s with
  | EmptyString => Eps
  | String c s' =>
      Seq (Chr (fun x => Ascii.eqb (canonicalize x) (canonicalize c))) (LitI s')
  end.

(** The matcher's state: the character before the current position (none
    at the start of the input), the input from the current position on, and
    the captures made so far (latest first). *)
Record mstate : Type := MState {
  before : option ascii;
  rest : string;
  caps : list (nat * string)
}.

Definition word_at (o : option ascii) : bool :=
  match o with Some c => is_word c | None => false end.

Definition next_char (s : string) : option ascii :=
  match s with String c _ => Some c | EmptyString => None end.

(** The iterations of a greedy star: one more round of [step] that consumes
    input, then the rest, before stopping here.  A round that consumes
    nothing is rejected, as ECMAScript does. *)
Fixpoint star (step : mstate -> list mstate) (fuel : nat) (st : mstate)
  : list mstate :=
  match fuel with
  | O => [st]
  | S fuel' =>
      flat_map
        (fun st' =>
           if Nat.ltb (String.length (rest st')) (String.length (rest st))
           then star step fuel' st' else [])
        (step st)
      ++ [st]
  end.

(** All the ways [r] matches at [st], in the order backtracking tries them. *)
Fixpoint matches (r : regex) (st : mstate) {struct r} : list mstate :=
  match r with
  | Eps => [st]
  | Chr p =>
      match rest st with
      | String c s' => if p c then [MState (Some c) s' (caps st)] else []
      | EmptyString => []
      end
  | Seq r1 r2 => flat_map (matches r2) (matches r1 st)
  | Alt r1 r2 => matches r1 st ++ matches r2 st
  | Star r1 => star (matches r1) (String.length (rest st)) st
  | Group n r1 =>
      map (fun st' =>
             MState (before st') (rest st')
               ((n, take (String.length (rest st) - String.length (rest st'))
                      (rest st)) :: caps st'))
          (matches r1 st)
  | Bol => match before st with None => [st] | Some _ => [] end
  | WordB =>
      if xorb (word_at (before st)) (word_at (next_char (rest st)))
      then [st] else []
  end.

(** The result of [exec]: the index of the match, the matched text
    ([m[0]]) and the captures. *)
Record rmatch : Type := RMatch {
  m_index : nat;
  m_text : string;
  m_caps : list (nat * string)
}.

Fixpoint lookup (n : nat) (l : list (nat * string)) : option string :=
  match l with
  | [] => None
  | (k, v) :: l' => if Nat.eqb k n then Some v else lookup n l'
  end.

(** [m[n]] for [n >= 1]; [None] is [undefined]. *)
Definition group (n : nat) (m : rmatch) : option string := lookup n (m_caps m).

(** The first match starting at the current position, else the search
    moves one character on. *)
Fixpoint exec_from (r : regex) (prev : option ascii) (s : string) (i : nat)
  : option rmatch :=
  match matches r (MState prev s []) with
  | st' :: _ =>
      Some (RMatch i (take (String.length s - String.length (rest st')) s)
                   (caps st'))
  | [] =>
      match s with
      | EmptyString => None
      | String c s' => exec_from r (Some c) s' (S i)
      end
  end.

(** [s.match(r)] for a regular expression without the [g] flag. *)
Definition exec (r : regex) (s : string) : option rmatch :=
  exec_from r None s 0.

(** ** The name and the phone number *)

Module Patterns.
Local Open Scope regex_scope.

Definition digit : regex := Chr is_digit.

(** [[A-Z][a-z]+] *)
Definition capword : regex := Chr is_upper >> Plus (Chr is_lower).

(** [/^( [A-Z][a-z]+ (?: \s+ [A-Z][a-z]+ )* )/], written here with blanks
    between its parts *)
Definition name : regex :=
  Bol >> Group 1 (capword >> Star (Plus (Chr is_space) >> capword)).

(** [/\(?\d{3}\)?[\s.-]?\d{3}[\s.-]?\d{4}/] *)
Definition phone_grouped : regex :=
  Opt (Lit "(") >> Rep 3 digit >> Opt (Lit ")") >> Opt (Chr is_sep)
  >> Rep 3 digit >> Opt (Chr is_sep) >> Rep 4 digit.

(** [/\d{10}/] *)
Definition phone_bare : regex := Rep 10 digit.

Definition weekday_names : list string :=
  ["monday"; "tuesday"; "wednesday"; "thursday"; "friday"; "saturday";
   "sunday"].

(** [/\b(next\s+)?(monday|tuesday|wednesday|thursday|friday|saturday|sunday)\b/] *)
Definition weekday : regex :=
  WordB >> Opt (Group 1 (Lit "next" >> Plus (Chr is_space)))
  >> Group 2 (Lit "monday" <|> Lit "tuesday" <|> Lit "wednesday"
              <|> Lit "thursday" <|> Lit "friday" <|> Lit "saturday"
              <|> Lit "sunday")
  >> WordB.

(** [/\b(\d{1,2})\/(\d{1,2})(?:\/(\d{2,4}))?\b/] *)
Definition specific_date : regex :=
  WordB >> Group 1 (RepRange 1 1 digit) >> Lit "/"
  >> Group 2 (RepRange 1 1 digit)
  >> Opt (Lit "/" >> Group 3 (RepRange 2 2 digit))
  >> WordB.

(** [/\b(\d{1,2})(?::(\d{2}))?\s*(am|pm)\b/i] *)
Definition time12 : regex :=
  WordB >> Group 1 (RepRange 1 1 digit)
  >> Opt (Lit ":" >> Group 2 (Rep 2 digit))
  >> Star (Chr is_space)
  >> Group 3 (LitI "am" <|> LitI "pm")
  >> WordB.

(** [/\b(\d{1,2}):(\d{2})\b/] *)
Definition time24 : regex :=
  WordB >> Group 1 (RepRange 1 1 digit) >> Lit ":" >> Group 2 (Rep 2 digit)
  >> WordB.
End Patterns.

(** [extractName]: group 1 of the match, or [null]. *)
Definition extractName (text : string) : option string :=
  match exec Patterns.name text with
  | Some m => group 1 m
  | None => None
  end.

Record PhoneMatch : Type := { phone_raw : string; phone_formatted : string }.

Definition phonePatterns : list regex :=
  [Patterns.phone_grouped; Patterns.phone_bare].

Definition formatDigits (digits : string) : string :=
  slice 0 3 digits ++ "-" ++ slice 3 6 digits ++ "-" ++ drop 6 digits.

(** The loop of [extractPhone] over a list of patterns: the first pattern
    whose match keeps exactly ten digits decides. *)
Fixpoint extractPhoneWith (patterns : list regex) (text : string)
  : option PhoneMatch :=
  match patterns with
  | [] => None
  | pattern :: others =>
      match exec pattern text with
      | Some m =>
          let digits := filter_string is_digit (m_text m) in
          if Nat.eqb (String.length digits) 10
          then Some {| phone_raw := m_text m;
                       phone_formatted := formatDigits digits |}
          else extractPhoneWith others text
      | None => extractPhoneWith others text
      end
  end.

Definition extractPhone (text : string) : option PhoneMatch :=
  extractPhoneWith phonePatterns text.

(** ** Dates

    The time-value arithmetic of ECMAScript ([Day], [TimeWithinDay],
    [WeekDay], [MakeTime], [MakeDay], [MakeDate]); the conversion between a
    day number and a calendar date is the usual computation on 400-year
    eras for the proleptic Gregorian calendar. *)

Local Open Scope Z_scope.

Definition msPerDay : Z := 86400000.
Definition msPerHour : Z := 3600000.
Definition msPerMinute : Z := 60000.
Definition msPerSecond : Z := 1000.

Definition Day (t : Z) : Z := t / msPerDay.
Definition TimeWithinDay (t : Z) : Z := t mod msPerDay.
Definition WeekDay (t : Z) : Z := (Day t + 4) mod 7.
Definition HourFromTime (t : Z) : Z := (t / msPerHour) mod 24.
Definition MinFromTime (t : Z) : Z := (t / msPerMinute) mod 60.
Definition SecFromTime (t : Z) : Z := (t / msPerSecond) mod 60.
Definition msFromTime (t : Z) : Z := t mod msPerSecond.

Definition MakeTime (hour min sec ms : Z) : Z :=
  hour * msPerHour + min * msPerMinute + sec * msPerSecond + ms.

Definition MakeDate (day time : Z) : Z := day * msPerDay + time.

(** The day within its 400-year era (eras start on 1 March), the year of
    the era and the day of that year (from 1 March). *)
Definition era_of (z : Z) : Z := (z + 719468) / 146097.
Definition doe_of (z : Z) : Z := (z + 719468) mod 146097.
Definition yoe_of (doe : Z) : Z :=
  (doe - doe / 1460 + doe / 36524 - doe / 146096) / 365.
Definition doy_of (doe : Z) : Z :=
  doe - (365 * yoe_of doe + yoe_of doe / 4 - yoe_of doe / 100).
Definition mp_of (doy : Z) : Z := (5 * doy + 2) / 153.

(** The calendar date of day number [z]: year, month (1 to 12) and day of
    the month. *)
Definition civil_from_days (z : Z) : Z * Z * Z :=
  let doe := doe_of z in
  let doy := doy_of doe in
  let mp := mp_of doy in
  let m := if mp <? 10 then mp + 3 else mp - 9 in
  let y := yoe_of doe + era_of z * 400 in
  ((if m <=? 2 then y + 1 else y), m, doy - (153 * mp + 2) / 5 + 1).

(** The day number of a calendar date, [d] being any integer. *)
Definition days_from_civil (y m d : Z) : Z :=
  let y' := if m <=? 2 then y - 1 else y in
  let era := y' / 400 in
  let yoe := y' mod 400 in
  let doy := (153 * (if 2 <? m then m - 3 else m + 9) + 2) / 5 + d - 1 in
  era * 146097 + (yoe * 365 + yoe / 4 - yoe / 100 + doy) - 719468.

Definition YearFromTime (t : Z) : Z := fst (fst (civil_from_days (Day t))).
(** 0 is January *)
Definition MonthFromTime (t : Z) : Z := snd (fst (civil_from_days (Day t))) - 1.
Definition DateFromTime (t : Z) : Z := snd (civil_from_days (Day t)).

(** [MakeDay]: months outside 0..11 carry into the year, and the day of the
    month is counted from the first of that month, whatever its value. *)
Definition MakeDay (year month date : Z) : Z :=
  days_from_civil (year + month / 12) (month mod 12 + 1) 1 + date - 1.

(** The ambient clock: the reading of [new Date()] and the offset of local
    time from UTC, both in milliseconds.  The offset is one number: a
    [Clock] describes a time zone over a period in which its offset does
    not change.  Where the offset changes (daylight saving), [setDate],
    [setHours] and [new Date(y, m, d)] still give an instant of the local
    day asked for, but not the instant computed here. *)
Record Clock : Type := { now : Z; LocalTZA : Z }.

Definition LocalTime (K : Clock) (t : Z) : Z := t + LocalTZA K.
Definition UTC (K : Clock) (t : Z) : Z := t - LocalTZA K.

(** The methods of [Date] the parser calls, on the time value [t]. *)
Definition getDay (K : Clock) (t : Z) : Z := WeekDay (LocalTime K t).
Definition getDate (K : Clock) (t : Z) : Z := DateFromTime (LocalTime K t).
Definition getFullYear (K : Clock) (t : Z) : Z := YearFromTime (LocalTime K t).

(** [getMonth], which the calendar view calls. *)
Definition getMonth (K : Clock) (t : Z) : Z := MonthFromTime (LocalTime K t).

Definition setDate (K : Clock) (t date : Z) : Z :=
  let lt := LocalTime K t in
  UTC K (MakeDate (MakeDay (YearFromTime lt) (MonthFromTime lt) date)
                  (TimeWithinDay lt)).

Definition setHours (K : Clock) (t hour min sec ms : Z) : Z :=
  UTC K (MakeDate (Day (LocalTime K t)) (MakeTime hour min sec ms)).

(** [new Date(year, month, day)]: a year from 0 to 99 means 1900 + year. *)
Definition newDate (K : Clock) (year month day : Z) : Z :=
  let yr := if (0 <=? year) && (year <=? 99) then 1900 + year else year in
  UTC K (MakeDate (MakeDay yr month day) (MakeTime 0 0 0 0)).

(** Decimal digits of a natural number, padded with zeros to [width]. *)
Definition digit_char (d : Z) : ascii := ascii_of_nat (48 + Z.to_nat d).

Fixpoint pad (width : nat) (n : Z) : string :=
  match width with
  | O => EmptyString
  | S w => (pad w (n / 10) ++ String (digit_char (n mod 10)) EmptyString)%string
  end.

(** [toISOString]: four digits for the years 0 to 9999, a sign and six
    digits for the others. *)
Definition year_string (y : Z) : string :=
  if (0 <=? y) && (y <=? 9999) then pad 4 y
  else String.append (if y <? 0 then "-" else "+") (pad 6 (Z.abs y)).

Definition toISOString (t : Z) : string :=
  (year_string (YearFromTime t)
   ++ "-" ++ pad 2 (MonthFromTime t + 1) ++ "-" ++ pad 2 (DateFromTime t)
   ++ "T" ++ pad 2 (HourFromTime t) ++ ":" ++ pad 2 (MinFromTime t)
   ++ ":" ++ pad 2 (SecFromTime t) ++ "." ++ pad 3 (msFromTime t) ++ "Z")%string.

(** ** The date and the time *)

Record DateTimeMatch : Type := { dt_raw : string; dt_datetime : string }.

(** The three variables [extractDateTime] updates stage after stage. *)
Record Work : Type := {
  targetDate : Z;
  targetTime : option (Z * Z);       (* hours, minutes *)
  matchedText : string
}.

(** A capture that took part in the match. *)
Definition captured (n : nat) (m : rmatch) : string :=
  match group n m with Some s => s | None => EmptyString end.

Definition weekdays : list string :=
  ["sunday"; "monday"; "tuesday"; "wednesday"; "thursday"; "friday";
   "saturday"]%string.

(** [l.indexOf(x)]: the first index of [x], or -1. *)
Fixpoint indexOf (l : list string) (x : string) : Z :=
  match l with
  | [] => -1
  | y :: l' =>
      if String.eqb y x then 0
      else let i := indexOf l' x in if i <? 0 then -1 else i + 1
  end.

(** [daysToAdd] of the weekday stage. *)
Definition daysToAdd (targetWeekday currentWeekday : Z) (isNext : bool) : Z :=
  let d := targetWeekday - currentWeekday in
  if (d <=? 0) || isNext then d + 7 else d.

(** The working date each date stage sets. *)
Definition tomorrowDate (K : Clock) : Z :=
  setDate K (now K) (getDate K (now K) + 1).

Definition isNext (weekdayMatch : rmatch) : bool :=
  match group 1 weekdayMatch with Some _ => true | None => false end.

Definition weekdayDate (K : Clock) (weekdayMatch : rmatch) : Z :=
  let targetWeekday := indexOf weekdays (captured 2 weekdayMatch) in
  let currentWeekday := getDay K (now K) in
  setDate K (now K)
    (getDate K (now K)
     + daysToAdd targetWeekday currentWeekday (isNext weekdayMatch)).

Definition specificDate (K : Clock) (specificDateMatch : rmatch) : Z :=
  let month := parseInt (captured 1 specificDateMatch) - 1 in
  let day := parseInt (captured 2 specificDateMatch) in
  let year :=
    match group 3 specificDateMatch with
    | Some y =>
        if truthy y
        then (if Nat.eqb (String.length y) 2 then 2000 + parseInt y
              else parseInt y)
        else getFullYear K (now K)
    | None => getFullYear K (now K)
    end in
  newDate K year month day.

(** The hours and minutes of a 12-hour match: pm adds 12 unless the hour
    is 12, and 12 am is 0. *)
Definition time12_of (time12HourMatch : rmatch) : Z * Z :=
  let hours := parseInt (captured 1 time12HourMatch) in
  let minutes :=
    match group 2 time12HourMatch with
    | Some mm => if truthy mm then parseInt mm else 0
    | None => 0
    end in
  let meridiem := toLowerCase (captured 3 time12HourMatch) in
  let hours :=
    if String.eqb meridiem "pm" && negb (hours =? 12) then hours + 12
    else hours in
  let hours :=
    if String.eqb meridiem "am" && (hours =? 12) then 0 else hours in
  (hours, minutes).

(** The hours and minutes of a 24-hour match, when they are in range. *)
Definition time24_of (time24HourMatch : rmatch) : option (Z * Z) :=
  let hours := parseInt (captured 1 time24HourMatch) in
  let minutes := parseInt (captured 2 time24HourMatch) in
  if (0 <=? hours) && (hours <? 24) && (0 <=? minutes) && (minutes <? 60)
  then Some (hours, minutes) else None.

(** Stage 1: the word "tomorrow" anywhere in the lower-cased text. *)
Definition stage_tomorrow (K : Clock) (lowerText : string) (w : Work) : Work :=
  if includes lowerText "tomorrow"
  then {| targetDate := tomorrowDate K;
          targetTime := targetTime w;
          matchedText := "tomorrow" |}
  else w.

(** Stage 2: a weekday name, maybe after "next". *)
Definition stage_weekday (K : Clock) (lowerText : string) (w : Work) : Work :=
  match exec Patterns.weekday lowerText with
  | Some weekdayMatch =>
      {| targetDate := weekdayDate K weekdayMatch;
         targetTime := targetTime w;
         matchedText := m_text weekdayMatch |}
  | None => w
  end.

(** Stage 3: a numeric date M/D, M/D/YY or M/D/YYYY. *)
Definition stage_date (K : Clock) (text : string) (w : Work) : Work :=
  match exec Patterns.specific_date text with
  | Some specificDateMatch =>
      {| targetDate := specificDate K specificDateMatch;
         targetTime := targetTime w;
         matchedText := m_text specificDateMatch |}
  | None => w
  end.

(** Stage 4: a 12-hour time with am or pm. *)
Definition stage_time12 (text : string) (w : Work) : Work :=
  match exec Patterns.time12 text with
  | Some time12HourMatch =>
      {| targetDate := targetDate w;
         targetTime := Some (time12_of time12HourMatch);
         matchedText := (matchedText w ++ " " ++ m_text time12HourMatch)%string |}
  | None => w
  end.

(** Stage 5: a 24-hour time, when stage 4 found nothing. *)
Definition stage_time24 (text : string) (w : Work) : Work :=
  match exec Patterns.time24 text, exec Patterns.time12 text with
  | Some time24HourMatch, None =>
      match time24_of time24HourMatch with
      | Some hm =>
          {| targetDate := targetDate w;
             targetTime := Some hm;
             matchedText :=
               (matchedText w ++ " " ++ m_text time24HourMatch)%string |}
      | None => w
      end
  | _, _ => w
  end.

(** The last step: the time found, or 09:00, is set on the working date. *)
Definition applyTime (K : Clock) (w : Work) : Z :=
  match targetTime w with
  | Some (hours, minutes) => setHours K (targetDate w) hours minutes 0 0
  | None => setHours K (targetDate w) 9 0 0 0
  end.

Definition initialWork (K : Clock) : Work :=
  {| targetDate := now K; targetTime := None; matchedText := EmptyString |}.

(** The working variables after the five stages. *)
Definition stages (K : Clock) (text : string) : Work :=
  let lowerText := toLowerCase text in
  stage_time24 text
    (stage_time12 text
       (stage_date K text
          (stage_weekday K lowerText
             (stage_tomorrow K lowerText (initialWork K))))).

(** The instant the returned [datetime] denotes. *)
Definition resultTime (K : Clock) (text : string) : Z :=
  applyTime K (stages K text).

(** [extractDateTime]: declared to return an object or [null], it returns an
    object on every path. *)
Definition extractDateTime (K : Clock) (text : string) : option DateTimeMatch :=
  Some {| dt_raw := trim (matchedText (stages K text));
          dt_datetime := toISOString (resultTime K text) |}.

(** ** The parser *)

Record ParsedAppointment : Type := {
  name : string;
  phone : string;
  details : string;
  datetime : string
}.

(** [x || d] on strings. *)
Definition or_else (x d : string) : string := if truthy x then x else d.

(** [parseAppointment] of the rule-based parser, which is also, line for
    line, [fallbackParser] of [src/lib/parser.ts]. *)
Definition parseAppointment (K : Clock) (text : string)
  : option ParsedAppointment :=
  if negb (truthy (trim text)) then None
  else
    let remainingText := trim text in
    let name := extractName remainingText in
    let remainingText :=
      match name with
      | Some n =>
          if truthy n then trim (replace remainingText n "") else remainingText
      | None => remainingText
      end in
    let phone := extractPhone remainingText in
    let remainingText :=
      match phone with
      | Some p => trim (replace remainingText (phone_raw p) "")
      | None => remainingText
      end in
    let dateTimeInfo := extractDateTime K remainingText in
    let remainingText :=
      match dateTimeInfo with
      | Some d => trim (replace remainingText (dt_raw d) "")
      | None => remainingText
      end in
    let details := or_else (trim remainingText) "No details provided" in
    Some {| name := match name with
                    | Some n => or_else n "Unknown"
                    | None => "Unknown"
                    end;
            phone := match phone with
                     | Some p => phone_formatted p
                     | None => "No phone"
                     end;
            details := details;
            datetime := match dateTimeInfo with
                        | Some d => dt_datetime d
                        | None => toISOString (now K)
                        end |}.

(** The four fields of a record, in the order name, phone, details,
    datetime. *)
Definition fields (r : ParsedAppointment) : string * string * string * string :=
  (name r, phone r, details r, datetime r).

(** ** The remote companion

    [parseAppointment] of [src/lib/parser.ts]: one request to a remote
    model, its answer adopted when it can be read, the rule-based parser
    otherwise.  What the network and the built-in JSON reader do is given by
    a [Remote]; a thrown exception or a rejected promise is [Throw]. *)

Module Companion.

(** The values [JSON.parse] builds (numbers kept to the integers:
    only whether a number is zero matters below). *)
#[warnings="-register-all"]
Inductive json : Type :=
| JNull : json
| JBool : bool -> json
| JNumber : Z -> json
| JString : string -> json
| JArray : list json -> json
| JObject : list (string * json) -> json.

Inductive result (A : Type) : Type :=
| Ok : A -> result A
| Throw : result A.
Arguments Ok {A} _.
Arguments Throw {A}.

Definition bind {A B : Type} (x : result A) (f : A -> result B) : result B :=
  match x with Ok a => f a | Throw => Throw end.

Notation "x <- e ;; k" := (bind e (fun x => k))
  (at level 61, e at next level, right associativity).

(** What [fetch] resolves to: [response.ok], and what [response.text()]
    and [response.json()] resolve to ([None]: the promise is rejected,
    as [json()] is on a body that is not JSON). *)
Record Response : Type := {
  ok : bool;
  body_text : option string;
  body_json : option json
}.

Record Remote : Type := {
  apiKey : option string;             (* VITE_DEEPSEEK_API_KEY *)
  fetch : option Response;            (* [None]: fetch is rejected *)
  JSON_parse : string -> option json  (* [None]: SyntaxError *)
}.

(** The record the function resolves to; the fields taken from the
    remote answer are whatever JSON values it held. *)
Record Appointment : Type := {
  name : json;
  phone : json;
  details : json;
  datetime : json
}.

Definition of_parsed (r : ParsedAppointment) : Appointment :=
  let '(n, p, d, t) := fields r in
  {| name := JString n; phone := JString p; details := JString d;
     datetime := JString t |}.

(** [fallbackParser] is, line for line, the rule-based
    [parseAppointment]. *)
Definition fallbackParser (K : Clock) (text : string)
  : option ParsedAppointment :=
  parseAppointment K text.

Definition fallback (K : Clock) (text : string) : option Appointment :=
  option_map of_parsed (fallbackParser K text).

Definition js_truthy (v : option json) : bool :=
  match v with
  | None | Some JNull => false
  | Some (JBool b) => b
  | Some (JNumber z) => negb (z =? 0)
  | Some (JString s) => truthy s
  | Some (JArray _) | Some (JObject _) => true
  end.

Fixpoint assoc (key : string) (l : list (string * json)) : option json :=
  match l with
  | [] => None
  | (k, v) :: l' => if String.eqb k key then Some v else assoc key l'
  end.

(** [v.key] for one of the property names read below ([choices],
    [message], [content], [name], [phone], [details], [datetime]), which
    only an object can own; [None] is [undefined], and reading a property
    of [null] throws. *)
Definition member (key : string) (v : json) : result (option json) :=
  match v with
  | JNull => Throw
  | JObject fields => Ok (assoc key fields)
  | _ => Ok None
  end.

(** [v?.key] and [v?.[0]] *)
Definition opt_member (key : string) (v : option json) : option json :=
  match v with
  | None | Some JNull => None
  | Some (JObject fields) => assoc key fields
  | Some _ => None
  end.

Definition opt_first (v : option json) : option json :=
  match v with
  | None | Some JNull => None
  | Some (JArray l) => List.hd_error l
  | Some (JString s) =>
      match s with
      | String c _ => Some (JString (String c EmptyString))
      | EmptyString => None
      end
  | Some (JObject fields) => assoc "0" fields
  | Some _ => None
  end.

Definition newline : ascii := ascii_of_nat 10.

(** [s.replace(/fence\n?/g, '')] for a literal [fence] that is not
    empty. *)
Fixpoint strip_all (fuel : nat) (fence s : string) : string :=
  match fuel with
  | O => s
  | S fuel' =>
      if prefix fence s
      then
        let s' := drop (String.length fence) s in
        match s' with
        | String c s'' =>
            if Ascii.eqb c newline then strip_all fuel' fence s''
            else strip_all fuel' fence s'
        | EmptyString => EmptyString
        end
      else
        match s with
        | EmptyString => EmptyString
        | String c s' => String c (strip_all fuel' fence s')
        end
  end.

Definition strip (fence s : string) : string :=
  strip_all (S (String.length s)) fence s.

(** The answer with its Markdown code fences removed. *)
Definition clean (content : string) : string :=
  let content := trim content in
  if prefix "```json" content
  then trim (strip "```" (strip "```json" content))
  else if prefix "```" content
  then trim (strip "```" content)
  else content.

(** [x || d] *)
Definition js_or (x : option json) (d : json) : json :=
  match x with
  | Some v => if js_truthy x then v else d
  | None => d
  end.

(** The phone number of the answer, put in the form DDD-DDD-DDDD when it
    holds ten digits. *)
Definition formatPhone (p : option json) : result json :=
  match js_or p (JString "No phone") with
  | JString s =>
      if String.eqb s "No phone" then Ok (JString s)
      else
        let digits := filter_string is_digit s in
        if Nat.eqb (String.length digits) 10
        then Ok (JString (formatDigits digits))
        else Ok (JString s)
  | _ => Throw                      (* no method [replace] *)
  end.

(** [data.choices?.[0]?.message?.content] *)
Definition content_of (data : json) : result (option json) :=
  choices <- member "choices" data ;;
  Ok (opt_member "content" (opt_member "message" (opt_first choices))).

(** What is made of the answer once [JSON.parse] has read it. *)
Definition adopt (K : Clock) (parsed : json) : result (option Appointment) :=
  p <- member "phone" parsed ;;
  formattedPhone <- formatPhone p ;;
  n <- member "name" parsed ;;
  d <- member "details" parsed ;;
  t <- member "datetime" parsed ;;
  Ok (Some {| name := js_or n (JString "Unknown");
              phone := formattedPhone;
              details := js_or d (JString "No details provided");
              datetime := js_or t (JString (toISOString (now K))) |}).

(** The body of the [try] block, from [fetch] on. *)
Definition attempt (R : Remote) (K : Clock) (text : string)
  : result (option Appointment) :=
  match fetch R with
  | None => Throw
  | Some response =>
      if negb (ok response)
      then
        match body_text response with
        | Some _ => Ok (fallback K text)
        | None => Throw
        end
      else
        match body_json response with
        | None => Throw
        | Some data =>
            content <- content_of data ;;
            if negb (js_truthy content) then Ok (fallback K text)
            else
              match content with
              | Some (JString c) =>
                  match JSON_parse R (clean c) with
                  | None => Throw
                  | Some parsed => adopt K parsed
                  end
              | _ => Throw          (* no method [trim] *)
              end
        end
  end.

Definition has_key (R : Remote) : bool :=
  match apiKey R with Some k => truthy k | None => false end.

(** [parseAppointment]: [catch] turns every exception of the attempt
    into a call of [fallbackParser] on the text received. *)
Definition parseAppointment (R : Remote) (K : Clock) (text : string)
  : option Appointment :=
  if negb (truthy (trim text)) then None
  else if negb (has_key R) then fallback K text
  else
    match attempt R K text with
    | Ok r => r
    | Throw => fallback K text
    end.

(** The ways the remote attempt fails: the request is rejected, the status
    is not a success, the body is not JSON, the body holds no answer, the
    answer is not JSON. *)
Inductive Failed (R : Remote) : Prop :=
| failed_network :
    fetch R = None -> Failed R
| failed_status response :
    fetch R = Some response -> ok response = false -> Failed R
| failed_body response :
    fetch R = Some response -> ok response = true ->
    body_json response = None -> Failed R
| failed_no_content response data :
    fetch R = Some response -> ok response = true ->
    body_json response = Some data ->
    (content_of data = Throw \/
     exists content,
       content_of data = Ok content /\ js_truthy content = false) ->
    Failed R
| failed_answer response data c :
    fetch R = Some response -> ok response = true ->
    body_json response = Some data ->
    content_of data = Ok (Some (JString c)) ->
    JSON_parse R (clean c) = None -> Failed R.

End Companion.

(** ** The calendar view

    The component of [App.tsx] that calls the rule-based [parseAppointment]:
    its state variables and its handlers, each a function from state to
    state, [Date.now()] being the reading of the ambient clock. *)

(** [n.toString()] for an integer [n]. *)
Definition Number_toString (n : Z) : string :=
  DecimalString.NilZero.string_of_int (Z.to_int n).

(** [lo], [lo + 1], ...: [n] numbers, the values of a counting loop. *)
Fixpoint count_from (lo : Z) (n : nat) : list Z :=
  match n with
  | O => []
  | S n' => lo :: count_from (lo + 1) n'
  end.

Module App.

Record Appointment : Type := {
  id : string;
  name : string;
  phone : string;
  details : string;
  datetime : string
}.

(** The state variables of the component. *)
Record State : Type := {
  appointments : list Appointment;
  inputText : string;
  currentMonth : Z;
  selectedEvent : option Appointment;
  isModalOpen : bool
}.

Definition initialState (K : Clock) : State :=
  {| appointments :=
       [ {| id := "1"; name := "Sarah Johnson"; phone := "720-555-1234";
            details := "wants kitchen remodel estimate";
            datetime := "2025-12-12T14:00:00" |};
         {| id := "2"; name := "Mike Chen"; phone := "303-555-5678";
            details := "bathroom inspection follow-up";
            datetime := "2025-12-15T10:30:00" |} ];
     inputText := "";
     currentMonth := newDate K 2025 11 1;
     selectedEvent := None;
     isModalOpen := false |}.

(** [{ id: Date.now().toString(), ...parsed }] *)
Definition newAppointment (K : Clock) (parsed : ParsedAppointment)
  : Appointment :=
  let '(n, p, d, t) := fields parsed in
  {| id := Number_toString (now K); name := n; phone := p; details := d;
     datetime := t |}.

Definition handleParse (K : Clock) (st : State) : State :=
  if negb (truthy (trim (inputText st))) then st
  else
    match parseAppointment K (inputText st) with
    | Some parsed =>
        {| appointments := appointments st ++ [newAppointment K parsed];
           inputText := "";
           currentMonth := currentMonth st;
           selectedEvent := selectedEvent st;
           isModalOpen := isModalOpen st |}
    | None => st
    end.

Definition handleDelete (id' : string) (st : State) : State :=
  {| appointments :=
       filter (fun apt => negb (String.eqb (id apt) id')) (appointments st);
     inputText := inputText st;
     currentMonth := currentMonth st;
     selectedEvent := selectedEvent st;
     isModalOpen := false |}.

Definition handleEventClick (appointment : Appointment) (st : State) : State :=
  {| appointments := appointments st;
     inputText := inputText st;
     currentMonth := currentMonth st;
     selectedEvent := Some appointment;
     isModalOpen := true |}.

Definition setCurrentMonth (date : Z) (st : State) : State :=
  {| appointments := appointments st;
     inputText := inputText st;
     currentMonth := date;
     selectedEvent := selectedEvent st;
     isModalOpen := isModalOpen st |}.

Definition previousMonth (K : Clock) (st : State) : State :=
  setCurrentMonth
    (newDate K (getFullYear K (currentMonth st))
               (getMonth K (currentMonth st) - 1) 1) st.

Definition nextMonth (K : Clock) (st : State) : State :=
  setCurrentMonth
    (newDate K (getFullYear K (currentMonth st))
               (getMonth K (currentMonth st) + 1) 1) st.

(** [getDaysInMonth]: an empty cell for each day of the week before the
    first of the month, then the days of the month. *)
Definition getDaysInMonth (K : Clock) (date : Z) : list (option Z) :=
  let year := getFullYear K date in
  let month := getMonth K date in
  let firstDay := newDate K year month 1 in
  let lastDay := newDate K year (month + 1) 0 in
  let daysInMonth := getDate K lastDay in
  let startingDayOfWeek := getDay K firstDay in
  repeat None (Z.to_nat startingDayOfWeek)
  ++ map (fun day => Some (newDate K year month day))
         (count_from 1 (Z.to_nat daysInMonth)).

(** [getEventsForDate]; [Date_parse] is what [new Date(string)] makes of a
    string, [None] being the invalid date, none of whose fields equals a
    number. *)
Definition getEventsForDate (Date_parse : string -> option Z) (K : Clock)
    (st : State) (date : option Z) : list Appointment :=
  match date with
  | None => []
  | Some date =>
      filter
        (fun apt =>
           match Date_parse (datetime apt) with
           | Some aptDate =>
               (getFullYear K aptDate =? getFullYear K date)
               && (getMonth K aptDate =? getMonth K date)
               && (getDate K aptDate =? getDate K date)
           | None => false
           end)
        (appointments st)
  end.

End App.

(** ** Vocabulary of the statements

    Nothing below is code of the repository: these are the words the
    properties are stated and proved with. *)

(** The working text after the name step, after the phone step and after
    the date step of [parseAppointment]. *)
Definition afterName (text : string) : string :=
  let remainingText := trim text in
  match extractName remainingText with
  | Some name =>
      if truthy name then trim (replace remainingText name "")
      else remainingText
  | None => remainingText
  end.

Definition afterPhone (text : string) : string :=
  let remainingText := afterName text in
  match extractPhone remainingText with
  | Some phone => trim (replace remainingText (phone_raw phone) "")
  | None => remainingText
  end.

Definition afterDateTime (K : Clock) (text : string) : string :=
  let remainingText := afterPhone text in
  match extractDateTime K remainingText with
  | Some dateTimeInfo => trim (replace remainingText (dt_raw dateTimeInfo) "")
  | None => remainingText
  end.

(** The time of day the two time stages leave, and the days it carries
    into when it is set on a date. *)
Definition foundTime (text : string) : option (Z * Z) :=
  match exec Patterns.time12 text with
  | Some time12HourMatch => Some (time12_of time12HourMatch)
  | None =>
      match exec Patterns.time24 text with
      | Some time24HourMatch => time24_of time24HourMatch
      | None => None
      end
  end.

Definition carry (hm : option (Z * Z)) : Z :=
  match hm with
  | Some (hours, minutes) => (hours * 60 + minutes) / 1440
  | None => 0
  end.

Local Open Scope nat_scope.

(** A capitalised word: one capital letter, then lower-case letters, at
    least one. *)
Definition cap_word (w : string) : Prop :=
  match w with
  | String u s => is_upper u = true /\ s <> "" /\ forall_string is_lower s = true
  | EmptyString => False
  end.

(** What may follow the first word of a run: separators, each followed by
    a capitalised word. *)
Inductive name_tail (sep : string -> Prop) : string -> Prop :=
| tail_nil : name_tail sep ""
| tail_cons ws w t :
    sep ws -> cap_word w -> name_tail sep t ->
    name_tail sep (ws ++ w ++ t).

Definition name_run (sep : string -> Prop) (n : string) : Prop :=
  exists w t, n = (w ++ t)%string /\ cap_word w /\ name_tail sep t.

(** The separator of the pattern, one or more white-space characters, and
    the separator of the specification, a single space. *)
Definition white_space (ws : string) : Prop :=
  ws <> "" /\ forall_string is_space ws = true.

Definition single_space (ws : string) : Prop := ws = " ".

(** The text starts with a capital letter followed by a lower-case one. *)
Definition starts_capitalised (text : string) : bool :=
  match text with
  | String u (String c _) => is_upper u && is_lower c
  | _ => false
  end.

(** The length of the longest prefix of [s] in the class [p]. *)
Fixpoint span (p : ascii -> bool) (s : string) : nat :=
  match s with
  | String c s' => if p c then S (span p s') else O
  | EmptyString => O
  end.

(** The name pattern read as a scanner: the length of a capitalised word at
    the start of [s] (0: none), of white space followed by a capitalised
    word, of the longest chain of such groups, and of the name. *)
Definition word_len (s : string) : nat :=
  match s with
  | String u (String c s') =>
      if is_upper u && is_lower c then 2 + span is_lower s' else 0
  | _ => 0
  end.

Definition sep_word_len (s : string) : nat :=
  let m := span is_space s in
  if Nat.eqb m 0 then 0
  else let w := word_len (drop m s) in
       if Nat.eqb w 0 then 0 else m + w.

Fixpoint tail_len (fuel : nat) (s : string) : nat :=
  match fuel with
  | O => O
  | S fuel' =>
      let k := sep_word_len s in
      if Nat.eqb k 0 then O else k + tail_len fuel' (drop k s)
  end.

Definition name_len (s : string) : nat :=
  let w := word_len s in
  if Nat.eqb w 0 then O
  else w + tail_len (String.length (drop w s)) (drop w s).

(** The parts of the name pattern. *)
Definition sep_word : regex := Seq (Plus (Chr is_space)) Patterns.capword.

Definition name_body : regex := Seq Patterns.capword (Star sep_word).

(** The matcher's state [k] characters further on, and the numbers from
    [n] down to 0: the order in which a greedy repetition offers its
    lengths. *)
Fixpoint advance (k : nat) (b : option ascii) (s : string)
  (l : list (nat * string)) : mstate :=
  match k, s with
  | S k', String c s' => advance k' (Some c) s' l
  | _, _ => MState b s l
  end.

Fixpoint countdown (n : nat) : list nat :=
  match n with
  | O => [O]
  | S n' => n :: countdown n'
  end.

(** The words of a pattern, anchors and boundaries being empty words and
    groups transparent. *)
Inductive lang : regex -> string -> Prop :=
| lang_Eps : lang Eps ""
| lang_Chr p c : p c = true -> lang (Chr p) (String c "")
| lang_Seq r1 r2 s1 s2 :
    lang r1 s1 -> lang r2 s2 -> lang (Seq r1 r2) (s1 ++ s2)
| lang_Alt_l r1 r2 s : lang r1 s -> lang (Alt r1 r2) s
| lang_Alt_r r1 r2 s : lang r2 s -> lang (Alt r1 r2) s
| lang_Star_nil r : lang (Star r) ""
| lang_Star_cons r s1 s2 :
    lang r s1 -> lang (Star r) s2 -> lang (Star r) (s1 ++ s2)
| lang_Group n r s : lang r s -> lang (Group n r) s
| lang_Bol : lang Bol ""
| lang_WordB : lang WordB "".

(** The number of digits in a string. *)
Definition ndigits (s : string) : nat :=
  String.length (filter_string is_digit s).

(** Inversion of the words of a pattern made of classes, sequences and
    alternatives. *)
Ltac invert_lang :=
  repeat match goal with
         | H : lang (Seq _ _) _ |- _ => inversion H; subst; clear H
         | H : lang (Alt _ _) _ |- _ => inversion H; subst; clear H
         | H : lang (Chr _) _ |- _ => inversion H; subst; clear H
         | H : lang Eps _ |- _ => inversion H; subst; clear H
         end.

(** Evaluation of the closed calls of the matcher in a goal. *)
Ltac eval_closed f :=
  repeat match goal with
         | |- context [f ?a ?b] =>
             let v := eval vm_compute in (f a b) in
             progress change (f a b) with v
         end.

Ltac eval_text :=
  eval_closed exec; eval_closed includes.

Local Open Scope Z_scope.

(** The time of day the time stages find, or 09:00. *)
Definition timeOfDay (text : string) : Z * Z :=
  match foundTime text with Some hm => hm | None => (9, 0) end.

(** The day number of the first of the month with index [n], months being
    counted from January of year 0. *)
Definition month_start (n : Z) : Z :=
  days_from_civil (n / 12) (n mod 12 + 1) 1.

Definition leap_year (y : Z) : bool :=
  (y mod 4 =? 0) && (negb (y mod 100 =? 0) || (y mod 400 =? 0)).

(** The number of days of month [m] (1 to 12) of year [y]. *)
Definition days_in_month (y m : Z) : Z :=
  if m =? 2 then (if leap_year y then 29 else 28)
  else if (m =? 4) || (m =? 6) || (m =? 9) || (m =? 11) then 30
  else 31.

(** The year [new Date(year, ...)] takes [year] for: 1900 + year from 0
    to 99. *)
Definition century (year : Z) : Z :=
  if (0 <=? year) && (year <=? 99) then 1900 + year else year.

(** The year a numeric date names: 2000 + YY for two digits, the number
    written for three or four (taken in the 1900s when below 100), the
    current year when none is written. *)
Definition writtenYear (K : Clock) (m : rmatch) : Z :=
  match group 3 m with
  | Some y =>
      if Nat.eqb (String.length y) 2 then 2000 + parseInt y
      else century (parseInt y)
  | None => century (getFullYear K (now K))
  end.

(** A pattern without capturing groups. *)
Fixpoint nocap (r : regex) : bool :=
  match r with
  | Eps | Chr _ | Bol | WordB => true
  | Seq r1 r2 | Alt r1 r2 => nocap r1 && nocap r2
  | Star r1 => nocap r1
  | Group _ _ => false
  end.

(** A pattern that does not tell a letter from its lower-case form. *)
Fixpoint caseless (r : regex) : Prop :=
  match r with
  | Eps | Bol | WordB => True
  | Chr p => forall c, p (toLowerChar c) = p c
  | Seq r1 r2 | Alt r1 r2 => caseless r1 /\ caseless r2
  | Star r1 | Group _ r1 => caseless r1
  end.

(** A state of the matcher, and a match, in lower case. *)
Definition lower_caps (l : list (nat * string)) : list (nat * string) :=
  map (fun nv => (fst nv, toLowerCase (snd nv))) l.

Definition lower_state (st : mstate) : mstate :=
  MState (option_map toLowerChar (before st)) (toLowerCase (rest st))
         (lower_caps (caps st)).

Definition lower_match (m : rmatch) : rmatch :=
  RMatch (m_index m) (toLowerCase (m_text m)) (lower_caps (m_caps m)).

(** [s] is [t] with some characters left out. *)
Inductive subseq : string -> string -> Prop :=
| subseq_nil : subseq "" ""
| subseq_skip c s t : subseq s t -> subseq s (String c t)
| subseq_keep c s t : subseq s t -> subseq (String c s) (String c t).

(** A text that is not empty and does not end with white space. *)
Definition keeps_end (t : string) : Prop := t <> "" /\ trimEnd t = t.




(** A value that is truthy and not a string: a number, [true], an array or
    an object. *)
Definition not_a_string (v : Companion.json) : bool :=
  match v with
  | Companion.JString _ => false
  | _ => Companion.js_truthy (Some v)
  end.

(** The Markdown code fence, and an answer between two of them, the first
    with a language tag. *)
Definition fence : string := "```".
Definition backtick : ascii := "`"%char.

Definition no_backtick (s : string) : bool :=
  forall_string (fun c => negb (Ascii.eqb c backtick)) s.

Definition fenced (tag body : string) : string :=
  (fence ++ tag
   ++ String Companion.newline (body ++ String Companion.newline fence))%string.

(** The number a string of digits writes, and nothing for another string. *)
Definition number (s : string) : option Z :=
  if forall_string is_digit s then Some (parseInt s) else None.

(** The character at index [i] is [c]. *)
Definition char_at (i : nat) (c : ascii) (s : string) : bool :=
  match String.get i s with
  | Some c' => Ascii.eqb c' c
  | None => false
  end.

(** A reading of the date-time strings [YYYY-MM-DDTHH:mm:ss.sssZ], the
    form [toISOString] gives to the years 0 to 9999: a [Date_parse] to
    try the calendar view with. *)
Definition iso_parse (s : string) : option Z :=
  if Nat.eqb (String.length s) 24
     && char_at 4 "-" s && char_at 7 "-" s && char_at 10 "T" s
     && char_at 13 ":" s && char_at 16 ":" s && char_at 19 "." s
     && char_at 23 "Z" s
  then
    match number (slice 0 4 s), number (slice 5 7 s), number (slice 8 10 s),
          number (slice 11 13 s), number (slice 14 16 s),
          number (slice 17 19 s), number (slice 20 23 s) with
    | Some Y, Some M, Some D, Some h, Some mi, Some sec, Some ms =>
        if (1 <=? M) && (M <=? 12) && (1 <=? D) && (D <=? 31)
           && (h <? 24) && (mi <? 60) && (sec <? 60)
        then Some (MakeDate (MakeDay Y (M - 1) D) (MakeTime h mi sec ms))
        else None
    | _, _, _, _, _, _, _ => None
    end
  else None.

(** The name of the day of the week numbered [i], from 0 for Sunday to 6
    for Saturday, in lower case. *)
Definition day_name (i : Z) : string :=
  match i with
  | 0 => "sunday" | 1 => "monday" | 2 => "tuesday" | 3 => "wednesday"
  | 4 => "thursday" | 5 => "friday" | 6 => "saturday" | _ => ""
  end.

(** The matched text reads as the weekday numbered [i], after "next" and
    the white space [gap] when [next] is set. *)
Definition reads_as (t : string) (i : Z) (next : bool) (gap : string) : Prop :=
  0 <= i <= 6
  /\ t = ((if next then "next" ++ gap else "") ++ day_name i)%string
  /\ (if next then white_space gap else gap = "").

(** Ten characters in the form DDD-DDD-DDDD: a dash after the third and
    after the sixth.  Another string has no such form. *)
Definition ddd_ddd_dddd (ds : string) : string :=
  match list_ascii_of_string ds with
  | [d1; d2; d3; d4; d5; d6; d7; d8; d9; d10] =>
      string_of_list_ascii
        [d1; d2; d3; "-"%char; d4; d5; d6; "-"%char; d7; d8; d9; d10]
  | _ => ""
  end.

(** What an adopted answer gives for the field [key] of the object [fs]:
    the field when the object has it and it is truthy, the default [d]
    otherwise. *)
Definition field_or (fs : list (string * Companion.json)) (key : string)
  (d : Companion.json) : Companion.json :=
  match Companion.assoc key fs with
  | Some v => if Companion.js_truthy (Some v) then v else d
  | None => d
  end.

(** What it gives for the phone number: "No phone" when the field is
    missing or falsy, its ten digits as DDD-DDD-DDDD when it is a string
    that holds ten digits, the string itself when it holds another number
    of digits. *)
Definition phone_or (fs : list (string * Companion.json)) : Companion.json :=
  match field_or fs "phone" (Companion.JString "No phone") with
  | Companion.JString s =>
      if Nat.eqb (ndigits s) 10
      then Companion.JString (ddd_ddd_dddd (filter_string is_digit s))
      else Companion.JString s
  | v => v
  end.

(** A remote answer that can be read: the request is answered with a
    success status and a JSON body whose [choices[0].message.content] is a
    string, not empty, that [JSON.parse] reads, once cleaned, as the object
    [fs]. *)
Definition Answered (R : Companion.Remote)
  (fs : list (string * Companion.json)) : Prop :=
  exists response data c,
    Companion.fetch R = Some response
    /\ Companion.ok response = true
    /\ Companion.body_json response = Some data
    /\ Companion.content_of data = Companion.Ok (Some (Companion.JString c))
    /\ truthy c = true
    /\ Companion.JSON_parse R (Companion.clean c) = Some (Companion.JObject fs).

(** ** Sample inputs *)

(** Wednesday 17 December 2025, 10:30:00 UTC, local time being UTC. *)
Definition sample_clock : Clock :=
  {| now := 1765967400000; LocalTZA := 0 |}.

(** A remote model that answers with the empty object. *)
Definition empty_answer : Companion.Remote :=
  {| Companion.apiKey := Some "key";
     Companion.fetch :=
       Some {| Companion.ok := true;
               Companion.body_text := None;
               Companion.body_json :=
                 Some (Companion.JObject
                   [("choices",
                     Companion.JArray
                       [Companion.JObject
                          [("message",
                            Companion.JObject
                              [("content", Companion.JString "{}")])]])]) |};
     Companion.JSON_parse :=
       fun s => if String.eqb s "{}" then Some (Companion.JObject []) else None |}.

(** A remote model whose answer holds the phone number as a number. *)
Definition numeric_phone : Companion.Remote :=
  {| Companion.apiKey := Some "key";
     Companion.fetch :=
       Some {| Companion.ok := true;
               Companion.body_text := None;
               Companion.body_json :=
                 Some (Companion.JObject
                   [("choices",
                     Companion.JArray
                       [Companion.JObject
                          [("message",
                            Companion.JObject
                              [("content", Companion.JString "{ }")])]])]) |};
     Companion.JSON_parse :=
       fun s => if String.eqb s "{ }"
                then Some (Companion.JObject
                             [("name", Companion.JString "Ann");
                              ("phone", Companion.JNumber 7205551212)])
                else None |}.

(** The calendar view on an empty list, a text typed in. *)
Definition typed_in (text : string) : App.State :=
  {| App.appointments := [];
     App.inputText := text;
     App.currentMonth := newDate sample_clock 2025 2 1;
     App.selectedEvent := None;
     App.isModalOpen := false |}.

(** * Properties *)

(** ** The model on sample inputs *)

Example civil_epoch : civil_from_days 0 = (1970, 1, 1).
Proof. reflexivity. Qed.

Example civil_leap_day :
  civil_from_days (days_from_civil 2024 2 29) = (2024, 2, 29).
Proof. reflexivity. Qed.

Example sample_clock_reading :
  toISOString (now sample_clock) = "2025-12-17T10:30:00.000Z"
  /\ getDay sample_clock (now sample_clock) = 3.
Proof. split; vm_compute; reflexivity. Qed.

(** 30 February is 2 March. *)
Example february_30 :
  toISOString (newDate sample_clock 2025 1 30) = "2025-03-02T00:00:00.000Z".
Proof. vm_compute. reflexivity. Qed.

Example trim_both_ends : trim "  a b  " = "a b".
Proof. reflexivity. Qed.

Example replace_first_only : replace "abcabc" "bc" "" = "aabc".
Proof. reflexivity. Qed.

Example exec_weekday_next :
  exec Patterns.weekday "see you next  friday"
  = Some (RMatch 8 "next  friday" [(2%nat, "friday"); (1%nat, "next  ")]).
Proof. vm_compute. reflexivity. Qed.

(** No word boundary inside "nextfriday". *)
Example exec_weekday_glued : exec Patterns.weekday "nextfriday" = None.
Proof. vm_compute. reflexivity. Qed.

(** The year gives its digits back when no word boundary follows them. *)
Example exec_date_backtracks :
  exec Patterns.specific_date "on 1/2/20255"
  = Some (RMatch 3 "1/2" [(2%nat, "2"); (1%nat, "1")]).
Proof. vm_compute. reflexivity. Qed.

Example exec_time12_upper_case :
  exec Patterns.time12 "at 3:30 PM"
  = Some (RMatch 3 "3:30 PM" [(3%nat, "PM"); (2%nat, "30"); (1%nat, "3")]).
Proof. vm_compute. reflexivity. Qed.

Example extractPhone_parentheses :
  extractPhone "call (720) 555-1212 now"
  = Some {| phone_raw := "(720) 555-1212"; phone_formatted := "720-555-1212" |}.
Proof. vm_compute. reflexivity. Qed.

Example parse_numeric_date :
  parseAppointment sample_clock "Bob 2/30 at 14:30"
  = Some {| name := "Bob"; phone := "No phone"; details := "2/30 at 14:30";
            datetime := "2025-03-02T14:30:00.000Z" |}.
Proof. vm_compute. reflexivity. Qed.

Example parse_removed_date :
  parseAppointment sample_clock "ann 7205551212 tuesday 3pm fix sink"
  = Some {| name := "Unknown"; phone := "720-555-1212";
            details := "ann   fix sink";
            datetime := "2025-12-23T15:00:00.000Z" |}.
Proof. vm_compute. reflexivity. Qed.

(** ** Calendar arithmetic *)


Lemma doe_range z : 0 <= doe_of z <= 146096.
Proof. unfold doe_of. pose proof (Z.mod_pos_bound (z + 719468) 146097). lia. Qed.

Lemma yoe_range doe : 0 <= doe <= 146096 -> 0 <= yoe_of doe <= 399.
Proof. intros H. unfold yoe_of. Z.div_mod_to_equations; lia. Qed.

Lemma doy_range doe : 0 <= doe <= 146096 -> 0 <= doy_of doe <= 365.
Proof. intros H. unfold doy_of, yoe_of. Z.div_mod_to_equations; lia. Qed.

Lemma mp_range doy : 0 <= doy <= 365 -> 0 <= mp_of doy <= 11.
Proof. intros H. unfold mp_of. Z.div_mod_to_equations; lia. Qed.

(** A day number is recovered from its calendar date. *)
Lemma days_from_civil_from_days z :
  let '(y, m, d) := civil_from_days z in days_from_civil y m d = z.
Proof.
  unfold civil_from_days, days_from_civil.
  pose proof (doe_range z) as Hdoe.
  pose proof (yoe_range _ Hdoe) as Hyoe.
  pose proof (doy_range _ Hdoe) as Hdoy.
  pose proof (mp_range _ Hdoy) as Hmp.
  set (doe := doe_of z) in *. set (yoe := yoe_of doe) in *.
  assert (Hdoy' : doy_of doe = doe - (365 * yoe + yoe / 4 - yoe / 100))
    by reflexivity.
  set (doy := doy_of doe) in *. set (mp := mp_of doy) in *.
  assert (Hz : z + 719468 = 146097 * era_of z + doe)
    by (unfold era_of, doe; apply Z.div_mod; lia).
  set (era := era_of z) in *.
  destruct (Z.ltb_spec mp 10) as [Hlt|Hge].
  - replace (mp + 3 <=? 2) with false by (symmetry; apply Z.leb_gt; lia).
    replace (2 <? mp + 3) with true by (symmetry; apply Z.ltb_lt; lia).
    replace ((yoe + era * 400) / 400) with era
      by (Z.div_mod_to_equations; lia).
    replace ((yoe + era * 400) mod 400) with yoe
      by (Z.div_mod_to_equations; lia).
    replace (mp + 3 - 3) with mp by lia. lia.
  - replace (mp - 9 <=? 2) with true by (symmetry; apply Z.leb_le; lia).
    replace (2 <? mp - 9) with false by (symmetry; apply Z.ltb_ge; lia).
    replace ((yoe + era * 400 + 1 - 1) / 400) with era
      by (Z.div_mod_to_equations; lia).
    replace ((yoe + era * 400 + 1 - 1) mod 400) with yoe
      by (Z.div_mod_to_equations; lia).
    replace (mp - 9 + 9) with mp by lia. lia.
Qed.

Lemma month_range z : 1 <= snd (fst (civil_from_days z)) <= 12.
Proof.
  unfold civil_from_days. cbn [fst snd].
  pose proof (mp_range _ (doy_range _ (doe_range z))) as Hmp.
  destruct (Z.ltb_spec (mp_of (doy_of (doe_of z))) 10); lia.
Qed.

Lemma days_from_civil_shift y m d n :
  days_from_civil y m (d + n) = days_from_civil y m d + n.
Proof. unfold days_from_civil. lia. Qed.

(** [MakeDay] on the year and month of [t] counts days from the first
    of that month: the day of [t] itself moved by [n] days. *)
Lemma MakeDay_of_time t n :
  MakeDay (YearFromTime t) (MonthFromTime t) (DateFromTime t + n) = Day t + n.
Proof.
  unfold MakeDay, YearFromTime, MonthFromTime, DateFromTime.
  pose proof (days_from_civil_from_days (Day t)) as H.
  pose proof (month_range (Day t)) as Hm.
  destruct (civil_from_days (Day t)) as [[y m] d]. cbn [fst snd] in *.
  replace ((m - 1) / 12) with 0 by (Z.div_mod_to_equations; lia).
  replace ((m - 1) mod 12 + 1) with m by (Z.div_mod_to_equations; lia).
  replace (y + 0) with y by lia.
  replace 1 with (d + (1 - d)) at 1 by lia.
  rewrite days_from_civil_shift, H. lia.
Qed.

Lemma Day_TimeWithinDay t : Day t * msPerDay + TimeWithinDay t = t.
Proof.
  unfold Day, TimeWithinDay, msPerDay.
  pose proof (Z.div_mod t 86400000). lia.
Qed.

(** [d.setDate(d.getDate() + n)] moves [d] by [n] days exactly. *)
Lemma setDate_getDate K t n :
  setDate K t (getDate K t + n) = t + n * msPerDay.
Proof.
  unfold setDate, getDate, UTC, MakeDate. rewrite MakeDay_of_time.
  pose proof (Day_TimeWithinDay (LocalTime K t)) as H.
  unfold LocalTime in *. lia.
Qed.

Lemma Day_shift t n : Day (t + n * msPerDay) = Day t + n.
Proof. unfold Day, msPerDay. rewrite Z.div_add by lia. reflexivity. Qed.

Lemma WeekDay_range t : 0 <= WeekDay t <= 6.
Proof. unfold WeekDay. pose proof (Z.mod_pos_bound (Day t + 4) 7). lia. Qed.

(** [setHours] keeps the local day and sets the time within it; hours
    and minutes beyond a day carry into the following days. *)
Lemma Day_setHours K t h m :
  0 <= h -> 0 <= m ->
  Day (LocalTime K (setHours K t h m 0 0))
  = Day (LocalTime K t) + (h * 60 + m) / 1440.
Proof.
  intros Hh Hm. unfold setHours, UTC, LocalTime, MakeDate, MakeTime, Day,
    msPerDay, msPerHour, msPerMinute, msPerSecond.
  Z.div_mod_to_equations; lia.
Qed.

Lemma TimeWithinDay_setHours K t h m :
  0 <= h * 60 + m < 1440 ->
  TimeWithinDay (LocalTime K (setHours K t h m 0 0)) = MakeTime h m 0 0.
Proof.
  intros H. unfold setHours, UTC, LocalTime, MakeDate, MakeTime, Day,
    TimeWithinDay, msPerDay, msPerHour, msPerMinute, msPerSecond.
  Z.div_mod_to_equations; lia.
Qed.

Local Open Scope nat_scope.

(** ** Strings *)

Lemma append_assoc s1 s2 s3 :
  ((s1 ++ s2) ++ s3)%string = (s1 ++ (s2 ++ s3))%string.
Proof. induction s1 as [|c s1 IH]; cbn; [reflexivity | now rewrite IH]. Qed.

Lemma length_append s1 s2 :
  String.length (s1 ++ s2) = (String.length s1 + String.length s2)%nat.
Proof. induction s1 as [|c s1 IH]; cbn; [reflexivity | now rewrite IH]. Qed.

Lemma take_append s r : take (String.length s) (s ++ r) = s.
Proof. induction s as [|c s IH]; cbn; [now destruct r | now rewrite IH]. Qed.

Lemma drop_append s r : drop (String.length s) (s ++ r) = r.
Proof. induction s as [|c s IH]; cbn; [now destruct r | exact IH]. Qed.

Lemma take_drop n s : (take n s ++ drop n s)%string = s.
Proof.
  revert s; induction n as [|n IH]; intros [|c s]; cbn; try reflexivity.
  now rewrite IH.
Qed.

Lemma prefix_append p r : prefix p (p ++ r) = true.
Proof.
  induction p as [|c p IH]; cbn; [destruct r; reflexivity|].
  destruct (ascii_dec c c) as [_|N]; [exact IH | congruence].
Qed.

Lemma prefix_take n s : prefix (take n s) s = true.
Proof. rewrite <- (take_drop n s) at 2. apply prefix_append. Qed.

Lemma prefix_inv p s : prefix p s = true -> exists r, s = (p ++ r)%string.
Proof.
  revert s; induction p as [|c p IH]; intros s H; cbn in *.
  - now exists s.
  - destruct s as [|d s]; [discriminate|]. cbn in H.
    destruct (ascii_dec c d) as [->|N]; [|discriminate].
    destruct (IH _ H) as [r ->]. now exists r.
Qed.

(** ** The matcher *)

Lemma in_matches_Seq r1 r2 st st' :
  In st' (matches (Seq r1 r2) st) <->
  exists mid, In mid (matches r1 st) /\ In st' (matches r2 mid).
Proof. cbn [matches]. rewrite in_flat_map. reflexivity. Qed.

Lemma in_matches_WordB st st' : In st' (matches WordB st) -> st' = st.
Proof.
  cbn [matches]. destruct (xorb _ _); cbn [In]; intuition congruence.
Qed.

(** A literal consumes itself and captures nothing. *)
Lemma in_matches_Lit s : forall st st',
  In st' (matches (Lit s) st) ->
  rest st = (s ++ rest st')%string /\ caps st' = caps st.
Proof.
  induction s as [|c s IH]; intros st st' H.
  - cbn in H. destruct H as [<-|[]]. now split.
  - cbn [Lit] in H. apply in_matches_Seq in H as (mid & H1 & H2).
    cbn [matches] in H1. destruct (rest st) as [|d s0] eqn:E; [easy|].
    destruct (Ascii.eqb_spec c d) as [->|N]; [|easy].
    destruct H1 as [<-|[]]. apply IH in H2 as [H2 H3]. cbn in *.
    now rewrite H2.
Qed.

(** What [exec] returns comes from the first way the pattern matches at
    some position of the input. *)
Lemma exec_from_inv r : forall s prev i m,
  exec_from r prev s i = Some m ->
  exists prev' s' st' l,
    matches r (MState prev' s' []) = st' :: l /\
    m_text m = take (String.length s' - String.length (rest st')) s' /\
    m_caps m = caps st'.
Proof.
  induction s as [|c s IH]; intros prev i m H; cbn [exec_from] in H.
  - destruct (matches r (MState prev "" [])) as [|st' l] eqn:E; [discriminate|].
    injection H as <-. now exists prev, "", st', l.
  - destruct (matches r (MState prev (String c s) [])) as [|st' l] eqn:E.
    + eapply IH, H.
    + injection H as <-. now exists prev, (String c s), st', l.
Qed.

Lemma exec_inv r s m :
  exec r s = Some m ->
  exists prev' s' st' l,
    matches r (MState prev' s' []) = st' :: l /\
    m_text m = take (String.length s' - String.length (rest st')) s' /\
    m_caps m = caps st'.
Proof. apply exec_from_inv. Qed.

(** ** Runs of one class *)

Lemma span_le p s : (span p s <= String.length s)%nat.
Proof. induction s as [|c s IH]; cbn; [lia|]. destruct (p c); lia. Qed.

Lemma forall_take_span p s : forall_string p (take (span p s) s) = true.
Proof.
  induction s as [|c s IH]; cbn; [reflexivity|].
  destruct (p c) eqn:E; cbn; [now rewrite E|reflexivity].
Qed.

Lemma span_append p a r :
  forall_string p a = true -> span p (a ++ r) = (String.length a + span p r)%nat.
Proof.
  induction a as [|c a IH]; cbn; intros H; [reflexivity|].
  apply andb_true_iff in H as [-> H]. now rewrite IH.
Qed.

Lemma length_take n s : (n <= String.length s)%nat -> String.length (take n s) = n.
Proof.
  revert s; induction n as [|n IH]; intros [|c s] H; cbn in *; try lia.
  now rewrite IH by lia.
Qed.

Lemma length_drop n s : String.length (drop n s) = (String.length s - n)%nat.
Proof.
  revert s; induction n as [|n IH]; intros [|c s]; cbn; try lia. apply IH.
Qed.

Lemma take_add n k s : take (n + k) s = (take n s ++ take k (drop n s))%string.
Proof.
  revert s; induction n as [|n IH]; intros s; cbn.
  - reflexivity.
  - destruct s as [|c s]; cbn; [now destruct k | now rewrite IH].
Qed.

Lemma drop_add n k s : drop (n + k) s = drop k (drop n s).
Proof.
  revert s; induction n as [|n IH]; intros s; cbn; [reflexivity|].
  destruct s as [|c s]; [now destruct k | apply IH].
Qed.

(** The classes of characters are disjoint where the proofs need it. *)
Lemma classes_disjoint c :
  (is_upper c = true -> is_space c = false /\ is_lower c = false) /\
  (is_lower c = true -> is_space c = false) /\
  (is_space c = true -> is_lower c = false /\ is_upper c = false).
Proof.
  destruct c as [[] [] [] [] [] [] [] []]; vm_compute;
    repeat split; intros; congruence.
Qed.

(** ** The matcher on runs of one class *)

Lemma rest_advance k : forall b s l, rest (advance k b s l) = drop k s.
Proof. induction k as [|k IH]; intros b [|c s] l; cbn; auto. Qed.

Lemma map_countdown_S {A} (f : nat -> A) n :
  map f (countdown (S n)) = map (fun k => f (S k)) (countdown n) ++ [f O].
Proof.
  induction n as [|n IH]; [reflexivity|].
  change (countdown (S (S n))) with (S (S n) :: countdown (S n)).
  cbn [map]. rewrite IH. reflexivity.
Qed.

(** A greedy star over one class offers its longest run first, then each
    shorter one. *)
Lemma star_Chr p : forall fuel b s l,
  (String.length s <= fuel)%nat ->
  star (matches (Chr p)) fuel (MState b s l)
  = map (fun k => advance k b s l) (countdown (span p s)).
Proof.
  induction fuel as [|fuel IH]; intros b s l H.
  - destruct s; [reflexivity | cbn in H; lia].
  - cbn [star matches rest caps]. destruct s as [|c s]; [reflexivity|].
    cbn [span]. destruct (p c); [|reflexivity].
    cbn [flat_map rest String.length].
    replace (String.length s <? S (String.length s))%nat with true
      by (symmetry; apply Nat.ltb_lt; lia).
    rewrite app_nil_r, IH by (cbn in H; lia).
    rewrite map_countdown_S. reflexivity.
Qed.

Lemma matches_Plus_Chr p b s l :
  matches (Plus (Chr p)) (MState b s l)
  = match s with
    | String c s' =>
        if p c then map (fun k => advance k (Some c) s' l) (countdown (span p s'))
        else []
    | EmptyString => []
    end.
Proof.
  unfold Plus. cbn [matches rest caps]. destruct s as [|c s]; [reflexivity|].
  destruct (p c); [|reflexivity].
  cbn [flat_map rest]. rewrite app_nil_r. apply star_Chr. lia.
Qed.

Lemma matches_capword b s l :
  matches Patterns.capword (MState b s l)
  = if Nat.eqb (word_len s) 0 then []
    else map (fun k => advance (2 + k) b s l)
             (countdown (word_len s - 2)).
Proof.
  unfold Patterns.capword. cbn [matches rest caps].
  destruct s as [|u s]; [reflexivity|]. cbn [word_len].
  destruct (is_upper u); cbn [andb flat_map].
  - rewrite app_nil_r, matches_Plus_Chr. destruct s as [|c s]; [reflexivity|].
    destruct (is_lower c); [|reflexivity].
    cbn [Nat.add Nat.eqb Nat.sub]. rewrite Nat.sub_0_r. reflexivity.
  - now destruct s.
Qed.

(** ** The name pattern as a scanner *)

Lemma word_len_le s : (word_len s <= String.length s)%nat.
Proof.
  destruct s as [|u [|c s]]; cbn; try lia.
  destruct (is_upper u && is_lower c); [|lia].
  pose proof (span_le is_lower s). lia.
Qed.

Lemma sep_word_len_le s : (sep_word_len s <= String.length s)%nat.
Proof.
  unfold sep_word_len. destruct (Nat.eqb _ 0); [lia|].
  destruct (Nat.eqb (word_len _) 0) eqn:E; [lia|].
  pose proof (word_len_le (drop (span is_space s) s)) as H.
  rewrite length_drop in H. pose proof (span_le is_space s). lia.
Qed.

Lemma tail_len_le fuel : forall s, (tail_len fuel s <= String.length s)%nat.
Proof.
  induction fuel as [|fuel IH]; intros s; cbn [tail_len]; [lia|].
  destruct (Nat.eqb _ 0); [lia|].
  pose proof (IH (drop (sep_word_len s) s)) as H. rewrite length_drop in H.
  pose proof (sep_word_len_le s). lia.
Qed.

Lemma name_len_le s : (name_len s <= String.length s)%nat.
Proof.
  unfold name_len. destruct (Nat.eqb _ 0); [lia|].
  generalize (String.length (drop (word_len s) s)) at 1. intros fuel.
  pose proof (tail_len_le fuel (drop (word_len s) s)) as H.
  rewrite length_drop in H. pose proof (word_len_le s). lia.
Qed.

Lemma advance_eta k : forall b s l,
  advance k b s l = MState (before (advance k b s l)) (drop k s) l.
Proof. induction k as [|k IH]; intros b [|c s] l; cbn; auto. Qed.

Lemma countdown_head n : exists l, countdown n = n :: l.
Proof. destruct n; cbn; eauto. Qed.

Lemma flat_map_countdown {A B} (f : A -> list B) (h : nat -> A) n :
  (forall k, (k < n)%nat -> f (h k) = []) ->
  flat_map f (map h (countdown n)) = f (h n).
Proof.
  induction n as [|n IH]; intros H; cbn [countdown map flat_map].
  - apply app_nil_r.
  - rewrite IH by (intros; apply H; lia). rewrite (H n) by lia.
    apply app_nil_r.
Qed.

Lemma span_drop_lt p s k :
  (k < span p s)%nat -> exists c s', drop k s = String c s' /\ p c = true.
Proof.
  revert s; induction k as [|k IH]; intros [|c s] H; cbn in H; try lia.
  - destruct (p c) eqn:E; [|lia]. cbn. eauto.
  - destruct (p c) eqn:E; [|lia]. cbn. apply IH. lia.
Qed.

(** White space before a capital letter must be taken whole. *)
Lemma matches_sep_word b s l :
  matches sep_word (MState b s l)
  = if Nat.eqb (span is_space s) 0 then []
    else matches Patterns.capword (advance (span is_space s) b s l).
Proof.
  unfold sep_word. cbn [matches]. rewrite matches_Plus_Chr.
  destruct s as [|c s]; [reflexivity|]. cbn [span].
  destruct (is_space c); [|reflexivity]. cbn [Nat.eqb advance].
  apply (flat_map_countdown (matches Patterns.capword)
           (fun k => advance k (Some c) s l)).
  intros k Hk.
  destruct (span_drop_lt _ _ _ Hk) as (d & s' & Hd & Hp).
  rewrite advance_eta, Hd, matches_capword. cbn [word_len].
  destruct (classes_disjoint d) as (_ & _ & H3).
  destruct (H3 Hp) as [_ ->]. now destruct s'.
Qed.

Lemma hd_error_app {A} (l l' : list A) x :
  hd_error l = Some x -> hd_error (l ++ l') = Some x.
Proof. destruct l; cbn; [discriminate | auto]. Qed.

(** The greedy chain of groups stops after [tail_len] characters. *)
Lemma hd_star_sep_word : forall fuel b s l,
  (String.length s <= fuel)%nat ->
  exists b',
    hd_error (star (matches sep_word) fuel (MState b s l))
    = Some (MState b' (drop (tail_len fuel s) s) l).
Proof.
  induction fuel as [|fuel IH]; intros b s l H.
  - exists b. cbn. now destruct s.
  - cbn [star tail_len]. rewrite matches_sep_word. unfold sep_word_len.
    destruct (Nat.eqb_spec (span is_space s) 0) as [E|E].
    { exists b. cbn. now destruct s. }
    rewrite advance_eta, matches_capword.
    set (s1 := drop (span is_space s) s).
    destruct (Nat.eqb_spec (word_len s1) 0) as [E1|E1].
    { exists b. cbn. now destruct s. }
    destruct (Nat.eqb_spec (span is_space s + word_len s1) 0) as [E2|_];
      [lia|].
    destruct (countdown_head (word_len s1 - 2)) as [tl ->].
    cbn [map flat_map].
    pose proof (span_le is_space s) as Hm.
    pose proof (word_len_le s1) as Hw. unfold s1 in Hw at 2.
    rewrite length_drop in Hw.
    assert (E3 : (2 <= word_len s1)%nat).
    { unfold word_len in *. destruct s1 as [|u [|c s1']]; try lia.
      destruct (is_upper u && is_lower c); lia. }
    replace (2 + (word_len s1 - 2))%nat with (word_len s1) by lia.
    rewrite rest_advance. cbn [rest].
    replace (String.length (drop (word_len s1) s1) <? String.length s)%nat
      with true
      by (symmetry; apply Nat.ltb_lt; unfold s1; rewrite !length_drop; lia).
    rewrite (advance_eta (word_len s1)).
    edestruct (IH (before (advance (word_len s1)
                             (before (advance (span is_space s) b s l)) s1 l))
                 (drop (word_len s1) s1) l) as [b' Hb'].
    { unfold s1. rewrite !length_drop. lia. }
    exists b'. rewrite <- app_assoc. apply hd_error_app.
    rewrite Hb'. unfold s1. now rewrite !drop_add.
Qed.

Lemma name_len_0 s : name_len s = 0%nat <-> word_len s = 0%nat.
Proof.
  unfold name_len. destruct (Nat.eqb_spec (word_len s) 0); split; lia.
Qed.

(** The first way the body of the name pattern matches takes [name_len]
    characters; there is none when no capitalised word starts the text. *)
Lemma hd_name_body b s l :
  (name_len s = 0%nat -> matches name_body (MState b s l) = []) /\
  (name_len s <> 0%nat ->
   exists b' tl,
     matches name_body (MState b s l)
     = MState b' (drop (name_len s) s) l :: tl).
Proof.
  unfold name_body. cbn [matches]. rewrite matches_capword, name_len_0.
  split; intros H.
  - now rewrite H.
  - destruct (Nat.eqb_spec (word_len s) 0) as [E|_]; [contradiction|].
    destruct (countdown_head (word_len s - 2)) as [tl ->].
    assert (E3 : (2 <= word_len s)%nat).
    { unfold word_len in *. destruct s as [|u [|c s']]; try lia.
      destruct (is_upper u && is_lower c); lia. }
    cbn [map flat_map matches].
    replace (2 + (word_len s - 2))%nat with (word_len s) by lia.
    rewrite rest_advance, (advance_eta (word_len s)).
    destruct (hd_star_sep_word (String.length (drop (word_len s) s))
                (before (advance (word_len s) b s l))
                (drop (word_len s) s) l (Nat.le_refl _)) as [b' Hb'].
    destruct (star _ _ _) as [|x xs] eqn:Ex; [discriminate Hb'|].
    injection Hb' as ->. exists b'. eexists. cbn [app].
    unfold name_len. destruct (Nat.eqb_spec (word_len s) 0); [lia|].
    rewrite drop_add. reflexivity.
Qed.

Lemma exec_from_Bol r : forall s c i,
  exec_from (Seq Bol r) (Some c) s i = None.
Proof. induction s as [|d s IH]; intros c i; cbn; auto. Qed.

(** [extractName] returns the first [name_len] characters of the text. *)
Lemma extractName_scan text :
  extractName text
  = if Nat.eqb (name_len text) 0 then None
    else Some (take (name_len text) text).
Proof.
  unfold extractName, exec.
  change Patterns.name with (Seq Bol (Group 1 name_body)).
  destruct (hd_name_body None text []) as [H0 H1].
  destruct (Nat.eqb_spec (name_len text) 0) as [E|E].
  - destruct text as [|c s]; cbn [exec_from matches before flat_map app];
      rewrite (H0 E); cbn [map]; [reflexivity|].
    now rewrite exec_from_Bol.
  - destruct (H1 E) as (b' & tl & Hm).
    assert (Hex : exec_from (Seq Bol (Group 1 name_body)) None text 0
            = Some (RMatch 0 (take (name_len text) text)
                           [(1%nat, take (name_len text) text)])).
    { pose proof (name_len_le text) as Hle.
      destruct text as [|c s]; cbn [exec_from matches before flat_map app];
        rewrite Hm; cbn [map app rest caps before];
        rewrite length_drop;
        match goal with
        | |- context [(?a - (?a - ?b))%nat] =>
            replace (a - (a - b))%nat with b by lia
        end; reflexivity. }
    rewrite Hex. reflexivity.
Qed.

(** ** Names as runs of capitalised words *)

Lemma word_len_starts s :
  word_len s <> 0%nat <-> starts_capitalised s = true.
Proof.
  destruct s as [|u [|c s]]; cbn; try (split; [lia|discriminate]).
  destruct (is_upper u && is_lower c); split; try lia; auto; discriminate.
Qed.

Lemma cap_word_take s :
  word_len s <> 0%nat -> cap_word (take (word_len s) s).
Proof.
  destruct s as [|u [|c s]]; cbn; try lia.
  destruct (is_upper u) eqn:Eu, (is_lower c) eqn:Ec; cbn; try lia.
  rewrite Eu. intros _. split; [reflexivity|]. split; [discriminate|].
  cbn. rewrite Ec. apply forall_take_span.
Qed.

Lemma name_tail_take fuel : forall s,
  name_tail white_space (take (tail_len fuel s) s).
Proof.
  induction fuel as [|fuel IH]; intros s; cbn [tail_len].
  - destruct s; constructor.
  - unfold sep_word_len.
    destruct (Nat.eqb_spec (span is_space s) 0) as [E|E];
      [destruct s; constructor|].
    set (m := span is_space s) in *.
    destruct (Nat.eqb_spec (word_len (drop m s)) 0) as [E1|E1];
      [destruct s; constructor|].
    destruct (Nat.eqb_spec (m + word_len (drop m s)) 0) as [E2|_]; [lia|].
    rewrite <- Nat.add_assoc, take_add, take_add, drop_add.
    constructor.
    + split; [|apply forall_take_span].
      intros H. apply (f_equal String.length) in H.
      rewrite length_take in H by apply span_le. cbn in H. lia.
    + now apply cap_word_take.
    + apply IH.
Qed.

(** The scanner returns a run of capitalised words. *)
Lemma name_run_take s :
  name_len s <> 0%nat -> name_run white_space (take (name_len s) s).
Proof.
  intros H. assert (Hw : word_len s <> 0%nat) by now rewrite <- name_len_0.
  unfold name_len. destruct (Nat.eqb_spec (word_len s) 0); [lia|].
  rewrite take_add. eexists _, _. split; [reflexivity|]. split.
  - now apply cap_word_take.
  - apply name_tail_take.
Qed.

Lemma white_space_head ws :
  white_space ws -> exists c ws', ws = String c ws' /\ is_space c = true.
Proof.
  intros [Hne H]. destruct ws as [|c ws]; [contradiction|].
  cbn in H. apply andb_true_iff in H as [H _]. eauto.
Qed.

Lemma word_len_append w r :
  cap_word w ->
  word_len (w ++ r) = (String.length w + span is_lower r)%nat.
Proof.
  destruct w as [|u [|c s]]; cbn; try tauto; intros (Hu & Hne & Hl);
    try contradiction.
  apply andb_true_iff in Hl as [Hc Hl]. rewrite Hu, Hc. cbn.
  now rewrite span_append.
Qed.

Lemma cap_word_head w :
  cap_word w -> exists u s, w = String u s /\ is_upper u = true.
Proof. destruct w as [|u s]; cbn; [tauto | intros (H & _); eauto]. Qed.

(** The tail the scanner takes is at least as long as any tail of
    separated words at the same place. *)
Lemma span_not_append p c s r :
  p c = false -> span p (String c s ++ r) = 0%nat.
Proof. intros H. cbn. now rewrite H. Qed.

(** A tail is empty or starts with a white-space character. *)
Lemma name_tail_head t r :
  name_tail white_space t -> t = "" \/ span is_lower (t ++ r) = 0%nat.
Proof.
  intros [|ws w t' Hws Hw Ht]; [now left | right].
  destruct (white_space_head ws Hws) as (c & ws' & -> & Hc).
  destruct (classes_disjoint c) as (_ & _ & Hd). destruct (Hd Hc) as [Hcl _].
  rewrite !append_assoc. now apply span_not_append.
Qed.

Lemma tail_len_longest t :
  name_tail white_space t ->
  forall fuel r, (String.length (t ++ r) <= fuel)%nat ->
  (String.length t <= tail_len fuel (t ++ r))%nat.
Proof.
  induction 1 as [|ws w t Hws Hw Ht IH]; intros fuel r Hf; [cbn; lia|].
  destruct fuel as [|fuel].
  { rewrite !length_append in *. lia. }
  cbn [tail_len]. unfold sep_word_len.
  rewrite !append_assoc in *.
  destruct (cap_word_head w Hw) as (u & s & Ew & Hu).
  destruct (classes_disjoint u) as (Hd & _ & _). destruct (Hd Hu) as [Hus _].
  destruct Hws as [Hne Hsp].
  assert (Hlen : (0 < String.length ws)%nat)
    by (destruct ws; cbn; [contradiction|lia]).
  assert (Hlw : (0 < String.length w)%nat) by (rewrite Ew; cbn; lia).
  assert (Hs0 : forall x, span is_space (w ++ x) = 0%nat)
    by (intros; rewrite Ew; now apply span_not_append).
  rewrite (span_append _ _ _ Hsp), Hs0, Nat.add_0_r.
  destruct (Nat.eqb_spec (String.length ws) 0) as [E|_]; [lia|].
  rewrite drop_append, (word_len_append _ _ Hw).
  destruct (Nat.eqb_spec (String.length w + span is_lower (t ++ r)) 0)
    as [E|_]; [lia|].
  destruct (Nat.eqb_spec
              (String.length ws + (String.length w + span is_lower (t ++ r))) 0)
    as [E|_]; [lia|].
  rewrite !length_append in *.
  destruct (name_tail_head t r Ht) as [->|Hl0].
  - cbn [String.length]. lia.
  - rewrite Hl0, Nat.add_0_r.
    replace (String.length ws + String.length w)%nat
      with (String.length (ws ++ w)) by apply length_append.
    rewrite <- (append_assoc ws w), drop_append.
    specialize (IH fuel r). rewrite length_append in IH.
    assert (H : (String.length t + String.length r <= fuel)%nat) by lia.
    specialize (IH H). rewrite length_append. lia.
Qed.

(** The scanner returns the longest run at the start of the text. *)
Lemma name_len_longest p r :
  name_run white_space p -> (String.length p <= name_len (p ++ r))%nat.
Proof.
  intros (w & t & -> & Hw & Ht). rewrite append_assoc.
  unfold name_len. rewrite (word_len_append _ _ Hw).
  destruct (cap_word_head w Hw) as (u & s & E & _).
  assert (Hlw : (0 < String.length w)%nat) by (rewrite E; cbn; lia).
  destruct (Nat.eqb_spec (String.length w + span is_lower (t ++ r)) 0)
    as [E0|_]; [lia|].
  rewrite length_append.
  destruct (name_tail_head t r Ht) as [->|Hl0].
  - cbn [String.length]. lia.
  - rewrite Hl0, Nat.add_0_r, drop_append.
    pose proof (tail_len_longest t Ht (String.length (t ++ r)) r
                  (Nat.le_refl _)).
    lia.
Qed.

(** ** What a match consumes, and what [replace] removes *)

Section StarSound.

Variable r : regex.
Hypothesis step_sound :
  forall a b, In b (matches r a) ->
  exists p, rest a = (p ++ rest b)%string /\ lang r p.

(** Rounds that each consume a word of [r] consume a word of [r*]. *)
Lemma star_sound :
  forall fuel st st', In st' (star (matches r) fuel st) ->
  exists p, rest st = (p ++ rest st')%string /\ lang (Star r) p.
Proof.
  pose proof step_sound as Hstep.
  induction fuel as [|fuel IH]; intros st st' H.
  - destruct H as [<-|[]]. exists "". split; [reflexivity | constructor].
  - cbn [star] in H. apply in_app_or in H as [H|[<-|[]]].
    2: { exists "". split; [reflexivity | constructor]. }
    apply in_flat_map in H as (mid & Hmid & H).
    destruct (Nat.ltb _ _); [|destruct H].
    destruct (Hstep _ _ Hmid) as (p1 & E1 & L1).
    destruct (IH _ _ H) as (p2 & E2 & L2).
    exists (p1 ++ p2)%string. split; [|now constructor].
    now rewrite E1, E2, append_assoc.
Qed.

End StarSound.

(** A match consumes a prefix of the input, a word of the pattern. *)
Lemma matches_sound r : forall st st',
  In st' (matches r st) ->
  exists p, rest st = (p ++ rest st')%string /\ lang r p.
Proof.
  induction r as [|p|r1 IH1 r2 IH2|r1 IH1 r2 IH2|r1 IH1|n r1 IH1| |];
    intros st st' H; cbn [matches] in H.
  - destruct H as [<-|[]]. exists "". split; [reflexivity | constructor].
  - destruct (rest st) as [|c s]; [destruct H|].
    destruct (p c) eqn:E; [|destruct H]. destruct H as [<-|[]].
    exists (String c ""). split; [reflexivity | now constructor].
  - apply in_flat_map in H as (mid & Hmid & H).
    destruct (IH1 _ _ Hmid) as (p1 & E1 & L1).
    destruct (IH2 _ _ H) as (p2 & E2 & L2).
    exists (p1 ++ p2)%string. split; [|now constructor].
    now rewrite E1, E2, append_assoc.
  - apply in_app_or in H as [H|H].
    + destruct (IH1 _ _ H) as (p & E & L). exists p. split; [exact E|].
      now apply lang_Alt_l.
    + destruct (IH2 _ _ H) as (p & E & L). exists p. split; [exact E|].
      now apply lang_Alt_r.
  - eapply star_sound; eauto.
  - apply in_map_iff in H as (x & <- & H). cbn [rest].
    destruct (IH1 _ _ H) as (p & E & L). exists p. split; [exact E|].
    now constructor.
  - destruct (before st); [destruct H|]. destruct H as [<-|[]].
    exists "". split; [reflexivity | constructor].
  - destruct (xorb _ _); [|destruct H]. destruct H as [<-|[]].
    exists "". split; [reflexivity | constructor].
Qed.

Lemma matches_suffix r st st' :
  In st' (matches r st) -> exists p, rest st = (p ++ rest st')%string.
Proof. intros H. apply matches_sound in H as (p & E & _). eauto. Qed.

(** The text of a match is a word of the pattern. *)
Lemma first_match_lang r prev s st' l :
  matches r (MState prev s []) = st' :: l ->
  lang r (take (String.length s - String.length (rest st')) s).
Proof.
  intros E.
  assert (Hin : In st' (matches r (MState prev s []))) by (rewrite E; now left).
  apply matches_sound in Hin as (p & Hp & L). cbn [rest] in Hp.
  rewrite Hp. now rewrite length_append, Nat.add_sub, take_append.
Qed.

Lemma exec_lang r s m : exec r s = Some m -> lang r (m_text m).
Proof.
  unfold exec. generalize (@None ascii) 0%nat. revert m.
  induction s as [|c s IH]; intros m prev i H; cbn [exec_from] in H.
  - destruct (matches r (MState prev "" [])) as [|st' l] eqn:E; [discriminate|].
    injection H as <-. apply (first_match_lang _ _ _ _ _ E).
  - destruct (matches r (MState prev (String c s) [])) as [|st' l] eqn:E.
    + eapply IH, H.
    + injection H as <-. apply (first_match_lang _ _ _ _ _ E).
Qed.

(** The text of a match stands in the input at the index of the match. *)
Lemma first_match_text r prev s st' l :
  matches r (MState prev s []) = st' :: l ->
  s = (take (String.length s - String.length (rest st')) s ++ rest st')%string.
Proof.
  intros E.
  assert (Hin : In st' (matches r (MState prev s []))) by (rewrite E; now left).
  apply matches_suffix in Hin as [p Hp]. cbn [rest] in Hp.
  rewrite Hp at 1 2 3. now rewrite length_append, Nat.add_sub, take_append.
Qed.

Lemma exec_from_substring r : forall s prev i m,
  exec_from r prev s i = Some m ->
  exists a b, s = (a ++ m_text m ++ b)%string
              /\ m_index m = (i + String.length a)%nat.
Proof.
  induction s as [|c s IH]; intros prev i m H; cbn [exec_from] in H.
  - destruct (matches r (MState prev "" [])) as [|st' l] eqn:E; [discriminate|].
    injection H as <-. cbn [m_text m_index].
    exists "", (rest st'). split; [|cbn; lia].
    apply (first_match_text _ _ _ _ _ E).
  - destruct (matches r (MState prev (String c s) [])) as [|st' l] eqn:E.
    + destruct (IH _ _ _ H) as (a & b & -> & Hi).
      exists (String c a), b. split; [reflexivity|]. cbn. lia.
    + injection H as <-. cbn [m_text m_index].
      exists "", (rest st'). split; [|cbn; lia].
      apply (first_match_text _ _ _ _ _ E).
Qed.

(** [replace] removes the first occurrence of the pattern, and nothing
    when there is none. *)
Lemma replace_first s pat :
  includes s pat = true ->
  exists a b,
    s = (a ++ pat ++ b)%string /\ replace s pat "" = (a ++ b)%string /\
    forall a' b', s = (a' ++ pat ++ b')%string ->
                  (String.length a <= String.length a')%nat.
Proof.
  induction s as [|c s IH]; cbn [includes replace]; intros H.
  - rewrite orb_false_r in H. rewrite H.
    apply prefix_inv in H as [r Hr]. exists "", r. cbn.
    rewrite <- Hr. destruct pat; [|discriminate Hr]. cbn in Hr. subst r.
    repeat split. intros; lia.
  - destruct (prefix pat (String c s)) eqn:Ep.
    + apply prefix_inv in Ep as [r Hr]. exists "", r. rewrite Hr.
      rewrite drop_append. repeat split. intros; cbn; lia.
    + cbn [orb] in H. destruct (IH H) as (a & b & Hs & Hr & Hmin).
      exists (String c a), b. cbn. rewrite <- Hs, Hr. repeat split.
      intros a' b' E. destruct a' as [|c' a'].
      * cbn in E. rewrite E, prefix_append in Ep. discriminate.
      * cbn in E. injection E as _ E. cbn. apply le_n_S. eapply Hmin, E.
Qed.


Lemma includes_prefix s pat : prefix pat s = true -> includes s pat = true.
Proof. intros H. destruct s; cbn [includes]; now rewrite H. Qed.

Lemma includes_append a pat b : includes (a ++ pat ++ b) pat = true.
Proof.
  induction a as [|c a IH]; cbn [String.append].
  - apply includes_prefix, prefix_append.
  - cbn [includes]. rewrite IH. apply orb_true_r.
Qed.

Lemma replace_prefix s pat :
  prefix pat s = true -> replace s pat "" = drop (String.length pat) s.
Proof. intros H. destruct s; cbn [replace]; now rewrite H. Qed.

(** X2. The name step removes the name from the start of the working
    text. *)
Lemma name_step_removes_name text n :
  extractName (trim text) = Some n ->
  exists r, trim text = (n ++ r)%string /\ afterName text = trim r.
Proof.
  intros H. unfold afterName. rewrite H.
  rewrite extractName_scan in H.
  destruct (Nat.eqb_spec (name_len (trim text)) 0) as [E|E]; [discriminate|].
  injection H as <-.
  exists (drop (name_len (trim text)) (trim text)).
  split; [now rewrite take_drop|].
  assert (Ht : truthy (take (name_len (trim text)) (trim text)) = true).
  { pose proof (name_len_le (trim text)) as Hle.
    destruct (trim text) as [|c s]; [cbn in *; lia|].
    destruct (name_len (String c s)); [contradiction | reflexivity]. }
  rewrite Ht, replace_prefix by apply prefix_take.
  rewrite length_take by apply name_len_le. reflexivity.
Qed.

(** X3. The phone step removes the first occurrence of the matched text. *)
Lemma phone_step_removes_match text p :
  extractPhone (afterName text) = Some p ->
  exists a b,
    afterName text = (a ++ phone_raw p ++ b)%string /\
    afterPhone text = trim (a ++ b) /\
    forall a' b', afterName text = (a' ++ phone_raw p ++ b')%string ->
                  (String.length a <= String.length a')%nat.
Proof.
  intros H. unfold afterPhone. rewrite H.
  assert (Hin : includes (afterName text) (phone_raw p) = true).
  { revert H. unfold extractPhone. generalize phonePatterns.
    induction l as [|pattern others IH]; cbn [extractPhoneWith];
      [discriminate|].
    destruct (exec pattern (afterName text)) as [m|] eqn:Em; [|exact IH].
    destruct (Nat.eqb _ 10); [|exact IH].
    intros [= <-]. cbn [phone_raw].
    apply exec_from_substring in Em as (a & b & -> & _).
    apply includes_append. }
  destruct (replace_first _ _ Hin) as (a & b & Hs & Hr & Hmin).
  exists a, b. rewrite Hr. auto.
Qed.


Local Open Scope Z_scope.

(** ** The orchestrator *)

(** [parseAppointment], step by step. *)
Lemma parseAppointment_steps K text :
  parseAppointment K text
  = if negb (truthy (trim text)) then None
    else
      Some {| name := match extractName (trim text) with
                      | Some n => or_else n "Unknown"
                      | None => "Unknown"
                      end;
              phone := match extractPhone (afterName text) with
                       | Some p => phone_formatted p
                       | None => "No phone"
                       end;
              details :=
                or_else (trim (afterDateTime K text)) "No details provided";
              datetime := match extractDateTime K (afterPhone text) with
                          | Some d => dt_datetime d
                          | None => toISOString (now K)
                          end |}.
Proof. reflexivity. Qed.

(** The name and the phone number of the record returned. *)
Lemma parseAppointment_name_phone K text r :
  parseAppointment K text = Some r ->
  name r = match extractName (trim text) with
           | Some n => or_else n "Unknown"
           | None => "Unknown"
           end
  /\ phone r = match extractPhone (afterName text) with
               | Some p => phone_formatted p
               | None => "No phone"
               end.
Proof.
  intros E.
  pose proof (f_equal (option_map name) E) as En.
  pose proof (f_equal (option_map phone) E) as Ep.
  rewrite parseAppointment_steps in En, Ep.
  destruct (truthy (trim text)); cbn [negb option_map name phone] in En, Ep;
    [|discriminate En].
  injection En as <-. injection Ep as <-. split; reflexivity.
Qed.

Lemma append_nonempty a c b : (a ++ String c b)%string <> "".
Proof. destruct a; discriminate. Qed.

Lemma toISOString_nonempty t : toISOString t <> "".
Proof. unfold toISOString. apply append_nonempty. Qed.

Lemma formatDigits_ten ds :
  String.length ds = 10%nat -> formatDigits ds = ddd_ddd_dddd ds.
Proof.
  intros H. do 10 (destruct ds as [|? ds]; [discriminate H|]).
  destruct ds; [reflexivity | discriminate H].
Qed.

Lemma formatDigits_nonempty digits : formatDigits digits <> "".
Proof. unfold formatDigits. apply append_nonempty. Qed.

Lemma or_else_nonempty x d : d <> "" -> or_else x d <> "".
Proof. unfold or_else. destruct x; cbn; [auto | discriminate]. Qed.

Lemma extractPhoneWith_formatted patterns : forall text p,
  extractPhoneWith patterns text = Some p ->
  String.length (filter_string is_digit (phone_raw p)) = 10%nat /\
  phone_formatted p = formatDigits (filter_string is_digit (phone_raw p)).
Proof.
  induction patterns as [|pattern others IH]; intros text p H;
    cbn [extractPhoneWith] in H; [discriminate|].
  destruct (exec pattern text) as [m|]; [|now apply IH in H].
  destruct (Nat.eqb_spec (String.length (filter_string is_digit (m_text m))) 10)
    as [E|E]; [|now apply IH in H].
  injection H as <-. cbn. auto.
Qed.

(** C1. The parser is total: the trimmed text being empty it returns
    [null], and otherwise a record whose four fields are non-empty strings,
    the name, the phone number and the details being their sentinels when
    the step that looks for them finds nothing.  [fallbackParser] is the
    same function. *)
Theorem parseAppointment_total (K : Clock) (text : string) :
  Companion.fallbackParser K text = parseAppointment K text /\
  (trim text = "" -> parseAppointment K text = None) /\
  (trim text <> "" ->
   exists r,
     parseAppointment K text = Some r /\
     name r <> "" /\ phone r <> "" /\ details r <> "" /\ datetime r <> "" /\
     (extractName (trim text) = None -> name r = "Unknown") /\
     (extractPhone (afterName text) = None -> phone r = "No phone") /\
     (trim (afterDateTime K text) = "" -> details r = "No details provided")).
Proof.
  split; [reflexivity|]. rewrite parseAppointment_steps. split.
  - intros ->. reflexivity.
  - intros H. destruct (trim text) as [|c s] eqn:E; [contradiction|].
    cbn [truthy negb]. eexists. split; [reflexivity|]. cbn [name phone details datetime].
    repeat split.
    + destruct (extractName _); [apply or_else_nonempty|]; discriminate.
    + destruct (extractPhone _) as [p|] eqn:Ep; [|discriminate].
      apply extractPhoneWith_formatted in Ep as [_ ->].
      apply formatDigits_nonempty.
    + apply or_else_nonempty. discriminate.
    + cbn. apply toISOString_nonempty.
    + now intros ->.
    + now intros ->.
    + now intros ->.
Qed.

Lemma parseAppointment_total_witness :
  parseAppointment sample_clock "   " = None /\
  exists r,
    parseAppointment sample_clock "hello" = Some r /\
    name r = "Unknown" /\ phone r = "No phone" /\ details r <> "".
Proof.
  destruct (parseAppointment_total sample_clock "   ") as (_ & H & _).
  split; [apply H; reflexivity|].
  destruct (parseAppointment_total sample_clock "hello") as (_ & _ & H').
  destruct H' as (r & Hr & _ & _ & Hd & _ & Hn & Hp & _); [discriminate|].
  exists r. repeat split; [exact Hr | apply Hn | apply Hp | exact Hd];
    reflexivity.
Defined.

(** C2. Without any date or time cue the date stays today and the time
    becomes 09:00 local: the clock reading itself is not returned. *)
Theorem no_cue_gives_nine_oclock :
  parseAppointment sample_clock "hello"
  = Some {| name := "Unknown"; phone := "No phone"; details := "hello";
            datetime := "2025-12-17T09:00:00.000Z" |}
  /\ toISOString (now sample_clock) = "2025-12-17T10:30:00.000Z".
Proof. split; vm_compute; reflexivity. Qed.

(** X1. On every text without a date or time cue, at every clock,
    [extractDateTime] returns an object: today at 09:00 local time, and
    nothing to remove. *)
Lemma no_cue_datetime (K : Clock) (text : string) :
  includes (toLowerCase text) "tomorrow" = false ->
  exec Patterns.weekday (toLowerCase text) = None ->
  exec Patterns.specific_date text = None ->
  exec Patterns.time12 text = None ->
  exec Patterns.time24 text = None ->
  extractDateTime K text
  = Some {| dt_raw := ""; dt_datetime := toISOString (setHours K (now K) 9 0 0 0) |}.
Proof.
  intros H1 H2 H3 H4 H5.
  unfold extractDateTime, resultTime, stages, stage_time24, stage_time12,
    stage_date, stage_weekday, stage_tomorrow.
  rewrite H1, H2, H3, H4, H5. reflexivity.
Qed.

Lemma daysToAdd_plain tw cw :
  0 <= tw <= 6 -> 0 <= cw <= 6 -> 1 <= daysToAdd tw cw false <= 7.
Proof.
  intros Ht Hc. unfold daysToAdd.
  destruct (Z.leb_spec (tw - cw) 0); cbn [orb]; lia.
Qed.

Lemma weekdayDate_shift K wm :
  weekdayDate K wm
  = now K + daysToAdd (indexOf weekdays (captured 2 wm)) (getDay K (now K))
                      (isNext wm) * msPerDay.
Proof. unfold weekdayDate. apply setDate_getDate. Qed.

Lemma stages_tuesday_3pm K :
  stages K "wants estimate Tuesday at 3pm"
  = {| targetDate := now K + daysToAdd 2 (getDay K (now K)) false * msPerDay;
       targetTime := Some (15, 0);
       matchedText := "tuesday 3pm" |}.
Proof.
  unfold stages, stage_time24, stage_time12, stage_date, stage_weekday,
    stage_tomorrow.
  change (toLowerCase "wants estimate Tuesday at 3pm")
    with "wants estimate tuesday at 3pm".
  eval_text. cbn iota beta. rewrite weekdayDate_shift.
  reflexivity.
Qed.

(** C3. On the sample sentence the time is 15:00 and the day is the first
    Tuesday after today, but the details keep the words of the date: what
    [extractDateTime] hands back for removal, "tuesday 3pm", is not a part
    of the text. *)
Theorem tuesday_at_3pm (K : Clock) :
  let d := daysToAdd 2 (getDay K (now K)) false in
  let t := setHours K (now K + d * msPerDay) 15 0 0 0 in
  parseAppointment K "John Doe 7205551212 wants estimate Tuesday at 3pm"
  = Some {| name := "John Doe"; phone := "720-555-1212";
            details := "wants estimate Tuesday at 3pm";
            datetime := toISOString t |}
  /\ 1 <= d <= 7
  /\ Day (LocalTime K t) = Day (LocalTime K (now K)) + d
  /\ WeekDay (LocalTime K t) = 2
  /\ TimeWithinDay (LocalTime K t) = MakeTime 15 0 0 0.
Proof.
  intros d t.
  assert (Hd : 1 <= d <= 7)
    by (apply daysToAdd_plain; [lia | apply WeekDay_range]).
  assert (HD : Day (LocalTime K t) = Day (LocalTime K (now K)) + d).
  { unfold t. rewrite Day_setHours by lia.
    change ((15 * 60 + 0) / 1440) with 0.
    unfold LocalTime. rewrite <- Z.add_assoc, (Z.add_comm (d * msPerDay)),
      Z.add_assoc, Day_shift. lia. }
  repeat split; try lia; try exact HD.
  - rewrite parseAppointment_steps.
    unfold afterDateTime, extractDateTime, resultTime.
    change (afterPhone "John Doe 7205551212 wants estimate Tuesday at 3pm")
      with "wants estimate Tuesday at 3pm".
    change (afterName "John Doe 7205551212 wants estimate Tuesday at 3pm")
      with "7205551212 wants estimate Tuesday at 3pm".
    change (trim "John Doe 7205551212 wants estimate Tuesday at 3pm")
      with "John Doe 7205551212 wants estimate Tuesday at 3pm".
    rewrite stages_tuesday_3pm. cbn [matchedText applyTime targetTime targetDate].
    reflexivity.
  - unfold WeekDay. rewrite HD. unfold d, daysToAdd, getDay, WeekDay.
    set (D := Day (LocalTime K (now K))).
    destruct (Z.leb_spec (2 - (D + 4) mod 7) 0); cbn [orb];
      Z.div_mod_to_equations; lia.
  - unfold t. apply TimeWithinDay_setHours. lia.
Qed.

(** C4. The name and the phone number are removed from the working text,
    the weekday is not: the date step matches "Tuesday" in the lower-cased
    text and hands back "tuesday", which the text does not contain. *)
Theorem weekday_left_in_text (K : Clock) :
  afterName "Ann 7205551212 see you Tuesday" = "7205551212 see you Tuesday"
  /\ afterPhone "Ann 7205551212 see you Tuesday" = "see you Tuesday"
  /\ exec Patterns.weekday (toLowerCase "see you Tuesday")
     = Some (RMatch 8 "tuesday" [(2%nat, "tuesday")])
  /\ option_map dt_raw (extractDateTime K "see you Tuesday") = Some "tuesday"
  /\ afterDateTime K "Ann 7205551212 see you Tuesday" = "see you Tuesday"
  /\ option_map details (parseAppointment K "Ann 7205551212 see you Tuesday")
     = Some "see you Tuesday".
Proof. repeat split; reflexivity. Qed.

(** ** The remote companion *)

(** C5, as the code has it.  Every failure of the remote attempt (request
    rejected, status not a success, body or answer not JSON, no answer in
    the body) gives the result of the rule-based parser on the text
    received.  A field missing from the answer is no failure: an answer
    read as an object is adopted when its phone number is missing, falsy or
    a string, every field that is missing or falsy getting its default. *)
Theorem remote_failure_falls_back (R : Companion.Remote) (K : Clock)
  (text : string) :
  (Companion.Failed R ->
   Companion.parseAppointment R K text = Companion.fallback K text)
  /\ (forall fs,
      truthy (trim text) = true ->
      Companion.has_key R = true ->
      Answered R fs ->
      (forall v, Companion.assoc "phone" fs = Some v -> not_a_string v = false) ->
      Companion.parseAppointment R K text
      = Some {| Companion.name :=
                  field_or fs "name" (Companion.JString "Unknown");
                Companion.phone := phone_or fs;
                Companion.details :=
                  field_or fs "details" (Companion.JString "No details provided");
                Companion.datetime :=
                  field_or fs "datetime"
                    (Companion.JString (toISOString (now K))) |}).
Proof.
  split.
  - intros HF. unfold Companion.parseAppointment.
    destruct (truthy (trim text)) eqn:Et; cbn [negb].
    2: { unfold Companion.fallback, Companion.fallbackParser, parseAppointment.
         now rewrite Et. }
    destruct (Companion.has_key R); cbn [negb]; [|reflexivity].
    unfold Companion.attempt.
    destruct HF as [H | response H Hok | response H Hok Hb
                   | response data H Hok Hb Hc | response data c H Hok Hb Hc Hp];
      rewrite H; try reflexivity; rewrite Hok; cbn [negb].
    + now destruct (Companion.body_text response).
    + now rewrite Hb.
    + rewrite Hb. destruct Hc as [-> | (content & -> & Hc)]; [reflexivity|].
      cbn [Companion.bind]. now rewrite Hc.
    + rewrite Hb, Hc. cbn [Companion.bind].
      destruct c; cbn [Companion.js_truthy truthy negb]; [reflexivity|].
      now rewrite Hp.
  - intros fs Et Hk (response & data & c & Hf & Hok & Hb & Hc & Tc & Hp) Hph.
    unfold Companion.parseAppointment, Companion.attempt.
    rewrite Et, Hk, Hf, Hok, Hb, Hc. cbn [negb Companion.bind Companion.js_truthy].
    rewrite Tc, Hp. cbn [negb].
    unfold Companion.adopt. cbn [Companion.member Companion.bind].
    assert (P : Companion.formatPhone (Companion.assoc "phone" fs)
                = Companion.Ok (phone_or fs)).
    { unfold Companion.formatPhone, phone_or, field_or, Companion.js_or.
      specialize (Hph).
      destruct (Companion.assoc "phone" fs) as [v|] eqn:Ev; [|reflexivity].
      specialize (Hph v eq_refl).
      destruct v as [|b|z|s|l|o]; cbn [not_a_string] in Hph;
        try (rewrite Hph; reflexivity); try reflexivity.
      cbn [Companion.js_truthy].
      destruct (truthy s) eqn:Ts; [|reflexivity].
      unfold ndigits.
      destruct (Nat.eqb_spec (String.length (filter_string is_digit s)) 10)
        as [E|E].
      - rewrite (formatDigits_ten _ E).
        destruct (String.eqb_spec s "No phone") as [->|_]; [discriminate E|].
        reflexivity.
      - destruct (String.eqb s "No phone"); reflexivity. }
    assert (F : forall key d,
              Companion.js_or (Companion.assoc key fs) d = field_or fs key d).
    { intros key d. unfold field_or, Companion.js_or.
      now destruct (Companion.assoc key fs). }
    rewrite P. cbn [Companion.bind]. now rewrite !F.
Qed.

Lemma remote_failure_falls_back_witness :
  Companion.Failed
    {| Companion.apiKey := Some "key";
       Companion.fetch := None;
       Companion.JSON_parse := fun _ => None |}
  /\ Companion.parseAppointment
       {| Companion.apiKey := Some "key";
          Companion.fetch := None;
          Companion.JSON_parse := fun _ => None |}
       sample_clock "call Bob tomorrow"
     = Some (Companion.of_parsed
               {| name := "Unknown"; phone := "No phone"; details := "call Bob";
                  datetime := "2025-12-18T09:00:00.000Z" |})
  /\ Answered empty_answer []
  /\ Companion.parseAppointment empty_answer sample_clock "call Bob tomorrow"
     = Some {| Companion.name := Companion.JString "Unknown";
               Companion.phone := Companion.JString "No phone";
               Companion.details := Companion.JString "No details provided";
               Companion.datetime :=
                 Companion.JString "2025-12-17T10:30:00.000Z" |}.
Proof.
  assert (HF : Companion.Failed
                 {| Companion.apiKey := Some "key";
                    Companion.fetch := None;
                    Companion.JSON_parse := fun _ => None |})
    by (apply Companion.failed_network; reflexivity).
  assert (HA : Answered empty_answer []).
  { do 3 eexists. repeat split; reflexivity. }
  split; [exact HF|]. split; [|split; [exact HA|]].
  - rewrite (proj1 (remote_failure_falls_back _ sample_clock
                      "call Bob tomorrow") HF).
    vm_compute. reflexivity.
  - rewrite (proj2 (remote_failure_falls_back empty_answer sample_clock
                      "call Bob tomorrow") [] eq_refl eq_refl HA).
    + vm_compute. reflexivity.
    + intros v Hv. discriminate Hv.
Defined.

(** C5, as stated, fails: an answer without any of the four fields is not
    turned into a call of the rule-based parser. *)
Lemma answer_without_fields_is_adopted :
  Companion.JSON_parse empty_answer "{}" = Some (Companion.JObject [])
  /\ Companion.parseAppointment empty_answer sample_clock
       "John Doe 7205551212 wants estimate Tuesday at 3pm"
     = Some {| Companion.name := Companion.JString "Unknown";
               Companion.phone := Companion.JString "No phone";
               Companion.details := Companion.JString "No details provided";
               Companion.datetime :=
                 Companion.JString "2025-12-17T10:30:00.000Z" |}
  /\ Companion.fallback sample_clock
       "John Doe 7205551212 wants estimate Tuesday at 3pm"
     = Some {| Companion.name := Companion.JString "John Doe";
               Companion.phone := Companion.JString "720-555-1212";
               Companion.details :=
                 Companion.JString "wants estimate Tuesday at 3pm";
               Companion.datetime :=
                 Companion.JString "2025-12-23T15:00:00.000Z" |}
  /\ Companion.parseAppointment empty_answer sample_clock
       "John Doe 7205551212 wants estimate Tuesday at 3pm"
     <> Companion.fallback sample_clock
          "John Doe 7205551212 wants estimate Tuesday at 3pm".
Proof.
  repeat split; try (vm_compute; reflexivity).
  vm_compute. discriminate.
Qed.

(** ** The date and time stages *)

Lemma parseInt_acc_nonneg s : forall acc, 0 <= acc -> 0 <= parseInt_acc acc s.
Proof.
  induction s as [|c s IH]; intros acc H; cbn [parseInt_acc]; [exact H|].
  destruct (is_digit c); [apply IH; lia | exact H].
Qed.

Lemma parseInt_nonneg s : 0 <= parseInt s.
Proof. apply parseInt_acc_nonneg. lia. Qed.

Lemma time12_of_nonneg m : 0 <= fst (time12_of m) /\ 0 <= snd (time12_of m).
Proof.
  unfold time12_of. cbn [fst snd].
  pose proof (parseInt_nonneg (captured 1 m)) as Hh. split.
  - destruct (_ && (_ =? 12)); [lia|]. destruct (_ && negb _); lia.
  - destruct (group 2 m) as [mm|]; [|lia].
    destruct (truthy mm); [apply parseInt_nonneg | lia].
Qed.

Lemma time24_of_range m h mi :
  time24_of m = Some (h, mi) -> 0 <= h < 24 /\ 0 <= mi < 60.
Proof.
  unfold time24_of.
  destruct (Z.leb_spec 0 (parseInt (captured 1 m))),
           (Z.ltb_spec (parseInt (captured 1 m)) 24),
           (Z.leb_spec 0 (parseInt (captured 2 m))),
           (Z.ltb_spec (parseInt (captured 2 m)) 60);
    cbn [andb]; intros E; try discriminate E.
  injection E as <- <-. lia.
Qed.

Lemma foundTime_nonneg text h mi :
  foundTime text = Some (h, mi) -> 0 <= h /\ 0 <= mi.
Proof.
  unfold foundTime. destruct (exec Patterns.time12 text) as [m|].
  - intros E. pose proof (time12_of_nonneg m) as Hn.
    destruct (time12_of m) as [h' mi']. injection E as -> ->. exact Hn.
  - destruct (exec Patterns.time24 text) as [m|]; [|discriminate].
    intros E. apply time24_of_range in E. lia.
Qed.

(** The time stages leave the date alone, and the date stages the time. *)
Lemma stages_targetTime K text : targetTime (stages K text) = foundTime text.
Proof.
  unfold stages, foundTime, stage_time24, stage_time12.
  destruct (exec Patterns.time12 text) as [m12|].
  - now destruct (exec Patterns.time24 text).
  - destruct (exec Patterns.time24 text) as [m24|].
    + destruct (time24_of m24); [reflexivity|].
      unfold stage_date, stage_weekday, stage_tomorrow.
      destruct (exec Patterns.specific_date _), (exec Patterns.weekday _),
               (includes _ _); reflexivity.
    + unfold stage_date, stage_weekday, stage_tomorrow.
      destruct (exec Patterns.specific_date _), (exec Patterns.weekday _),
               (includes _ _); reflexivity.
Qed.

Lemma stages_targetDate K text :
  targetDate (stages K text)
  = match exec Patterns.specific_date text with
    | Some dm => specificDate K dm
    | None =>
        match exec Patterns.weekday (toLowerCase text) with
        | Some wm => weekdayDate K wm
        | None =>
            if includes (toLowerCase text) "tomorrow" then tomorrowDate K
            else now K
        end
    end.
Proof.
  unfold stages, stage_time24, stage_time12, stage_date, stage_weekday,
    stage_tomorrow.
  destruct (exec Patterns.time24 text) as [m24|],
           (exec Patterns.time12 text) as [m12|],
           (exec Patterns.specific_date text),
           (exec Patterns.weekday (toLowerCase text)),
           (includes (toLowerCase text) "tomorrow");
    try destruct (time24_of m24); reflexivity.
Qed.

(** The returned instant is on the working date, moved by the days the
    time of day carries. *)
Lemma resultTime_day K text :
  Day (LocalTime K (resultTime K text))
  = Day (LocalTime K (targetDate (stages K text))) + carry (foundTime text).
Proof.
  unfold resultTime, applyTime. rewrite stages_targetTime.
  destruct (foundTime text) as [[h mi]|] eqn:E.
  - apply foundTime_nonneg in E. now apply Day_setHours.
  - rewrite Day_setHours by lia. reflexivity.
Qed.

Lemma carry_without_time12 text :
  exec Patterns.time12 text = None -> carry (foundTime text) = 0.
Proof.
  intros H. unfold foundTime. rewrite H.
  destruct (exec Patterns.time24 text) as [m|]; [|reflexivity].
  destruct (time24_of m) as [[h mi]|] eqn:E; [|reflexivity].
  apply time24_of_range in E. cbn [carry].
  apply Z.div_small. lia.
Qed.

(** C6, as the code has it.  With "tomorrow" and a weekday both found, the
    working date is the weekday's, or the numeric date's when there is one,
    and the returned instant is on that date moved by the days the time of
    day carries: none unless a 12-hour time is out of range. *)
Theorem later_date_stage_wins (K : Clock) (text : string) (wm : rmatch) :
  includes (toLowerCase text) "tomorrow" = true ->
  exec Patterns.weekday (toLowerCase text) = Some wm ->
  (exec Patterns.specific_date text = None ->
   targetDate (stages K text) = weekdayDate K wm /\
   Day (LocalTime K (resultTime K text))
   = Day (LocalTime K (weekdayDate K wm)) + carry (foundTime text))
  /\ (forall dm, exec Patterns.specific_date text = Some dm ->
      targetDate (stages K text) = specificDate K dm /\
      Day (LocalTime K (resultTime K text))
      = Day (LocalTime K (specificDate K dm)) + carry (foundTime text))
  /\ (exec Patterns.time12 text = None -> carry (foundTime text) = 0)
  /\ option_map dt_datetime (extractDateTime K text)
     = Some (toISOString (resultTime K text)).
Proof.
  intros Ht Hw. pose proof (stages_targetDate K text) as HD.
  pose proof (resultTime_day K text) as HR. rewrite Hw in HD.
  repeat split.
  - rewrite H in HD. exact HD.
  - rewrite H in HD. now rewrite <- HD.
  - rewrite H in HD. exact HD.
  - rewrite H in HD. now rewrite <- HD.
  - apply carry_without_time12.
Qed.

Lemma later_date_stage_wins_witness :
  includes (toLowerCase "tomorrow or friday at 4pm") "tomorrow" = true
  /\ exec Patterns.weekday (toLowerCase "tomorrow or friday at 4pm")
     = Some (RMatch 12 "friday" [(2%nat, "friday")])
  /\ exec Patterns.specific_date "tomorrow or friday at 4pm" = None
  /\ targetDate (stages sample_clock "tomorrow or friday at 4pm")
     = weekdayDate sample_clock (RMatch 12 "friday" [(2%nat, "friday")])
  /\ Day (LocalTime sample_clock
            (resultTime sample_clock "tomorrow or friday at 4pm"))
     = Day (LocalTime sample_clock
              (weekdayDate sample_clock (RMatch 12 "friday" [(2%nat, "friday")])))
       + 0.
Proof.
  assert (H1 : includes (toLowerCase "tomorrow or friday at 4pm") "tomorrow"
               = true) by reflexivity.
  assert (H2 : exec Patterns.weekday (toLowerCase "tomorrow or friday at 4pm")
               = Some (RMatch 12 "friday" [(2%nat, "friday")]))
    by reflexivity.
  assert (H3 : exec Patterns.specific_date "tomorrow or friday at 4pm" = None)
    by reflexivity.
  do 3 (split; [assumption|]).
  destruct (later_date_stage_wins sample_clock _ _ H1 H2) as (H & _).
  exact (H H3).
Defined.

(** C6, as stated, fails: a 12-hour time out of range moves the returned
    date off the weekday's date. *)
Lemma overflowing_hour_moves_the_date :
  includes (toLowerCase "tomorrow friday 30pm") "tomorrow" = true
  /\ exec Patterns.weekday (toLowerCase "tomorrow friday 30pm")
     = Some (RMatch 9 "friday" [(2%nat, "friday")])
  /\ exec Patterns.specific_date "tomorrow friday 30pm" = None
  /\ toISOString
       (weekdayDate sample_clock (RMatch 9 "friday" [(2%nat, "friday")]))
     = "2025-12-19T10:30:00.000Z"
  /\ extractDateTime sample_clock "tomorrow friday 30pm"
     = Some {| dt_raw := "friday 30pm";
               dt_datetime := "2025-12-20T18:00:00.000Z" |}
  /\ Day (LocalTime sample_clock
            (resultTime sample_clock "tomorrow friday 30pm"))
     <> Day (LocalTime sample_clock
               (weekdayDate sample_clock
                  (RMatch 9 "friday" [(2%nat, "friday")]))).
Proof.
  repeat split; try (vm_compute; reflexivity).
  vm_compute. discriminate.
Qed.

Lemma lang_Star_Chr p s :
  lang (Star (Chr p)) s -> forall_string p s = true.
Proof.
  intros H. remember (Star (Chr p)) as r eqn:Er.
  induction H as [| | | | | |r0 s1 s2 H1 _ H2 IH| | |]; try discriminate.
  - reflexivity.
  - injection Er as ->. inversion H1; subst. cbn [String.append forall_string].
    rewrite H0. cbn [andb]. now apply IH.
Qed.

Lemma take_prefix_length p r :
  take (String.length (p ++ r) - String.length r) (p ++ r)%string = p.
Proof. now rewrite length_append, Nat.add_sub, take_append. Qed.

(** A match of the weekday pattern: one of the seven names, alone or after
    "next" and white space, which is then the first group. *)
Lemma weekday_match_shape s m :
  exec Patterns.weekday s = Some m ->
  exists name, In name Patterns.weekday_names /\ group 2 m = Some name
    /\ ((group 1 m = None /\ m_text m = name)
        \/ exists gap, white_space gap
             /\ group 1 m = Some ("next" ++ gap)%string
             /\ m_text m = ("next" ++ gap ++ name)%string).
Proof.
  intros H. apply exec_inv in H as (prev & s' & st' & l & H & Ht & Hc).
  assert (Hin : In st' (matches Patterns.weekday (MState prev s' [])))
    by (rewrite H; now left).
  unfold Patterns.weekday in Hin.
  apply in_matches_Seq in Hin as (a & Ha & Hin).
  apply in_matches_WordB in Ha as ->.
  apply in_matches_Seq in Hin as (b & Hb & Hin).
  apply in_matches_Seq in Hin as (c & Hin & Hw).
  apply in_matches_WordB in Hw as ->.
  cbn [matches] in Hin. apply in_map_iff in Hin as (x & <- & Hx).
  cbn [rest caps] in *.
  assert (N : exists name, In name Patterns.weekday_names
                /\ rest b = (name ++ rest x)%string /\ caps x = caps b).
  { repeat (apply in_app_or in Hx as [Hx|Hx]);
      apply in_matches_Lit in Hx as [Hx Hcx]; eexists;
      (split; [|split; [exact Hx | exact Hcx]]); cbn; tauto. }
  destruct N as (name & Hn & Eb & Cx).
  exists name. split; [exact Hn|].
  unfold group. rewrite Hc. cbn [lookup Nat.eqb].
  rewrite Eb, take_prefix_length. split; [reflexivity|].
  unfold Opt in Hb. cbn [matches] in Hb.
  apply in_app_or in Hb as [Hb|[<-|[]]].
  - right. apply in_map_iff in Hb as (y & <- & Hy). cbn [rest caps] in *.
    apply (matches_sound (Seq (Lit "next") (Plus (Chr is_space)))) in Hy
      as (p & Ep & L). cbn [rest] in Ep.
    rewrite Cx. cbn [lookup Nat.eqb].
    assert (G : exists gap, white_space gap /\ p = ("next" ++ gap)%string).
    { unfold Plus in L. cbn [Lit] in L.
      inversion L as [| |r1 r2 s1 s2 L1 L2| | | | | | |]; subst.
      inversion L2 as [| |r1 r2 s3 s4 L3 L4| | | | | | |]; subst.
      apply lang_Star_Chr in L4.
      inversion L3; subst.
      invert_lang.
      repeat match goal with
             | H : Ascii.eqb _ _ = true |- _ => apply Ascii.eqb_eq in H; subst
             end.
      eexists. split; [|reflexivity]. split; [discriminate|].
      cbn [String.append forall_string].
      match goal with H : is_space _ = true |- _ => rewrite H end.
      exact L4. }
    destruct G as (gap & Wg & ->). exists gap.
    split; [exact Wg|]. rewrite Ht. subst s'. rewrite Eb.
    split.
    + rewrite <- Eb. now rewrite take_prefix_length.
    + rewrite <- (append_assoc ("next" ++ gap) name (rest x)).
      rewrite take_prefix_length. now rewrite append_assoc.
  - left. cbn [rest caps] in *. rewrite Cx. cbn [lookup].
    split; [reflexivity|]. now rewrite Ht, Eb, take_prefix_length.
Qed.

Lemma weekday_numbered name :
  In name Patterns.weekday_names ->
  exists i, 0 <= i <= 6 /\ name = day_name i /\ indexOf weekdays name = i.
Proof.
  cbn [In Patterns.weekday_names].
  intros [<-|[<-|[<-|[<-|[<-|[<-|[<-|[]]]]]]]];
    [exists 1|exists 2|exists 3|exists 4|exists 5|exists 6|exists 0];
    (split; [lia|split; reflexivity]).
Qed.

Lemma day_name_cases i : 0 <= i <= 6 ->
  i = 0 \/ i = 1 \/ i = 2 \/ i = 3 \/ i = 4 \/ i = 5 \/ i = 6.
Proof. lia. Qed.

Lemma day_name_head i : 0 <= i <= 6 ->
  exists c r, day_name i = String c r /\ is_space c = false
              /\ c <> "n"%char.
Proof.
  intros H.
  destruct (day_name_cases i H) as [->|[->|[->|[->|[->|[->| ->]]]]]];
    do 2 eexists; (split; [reflexivity|split; [reflexivity|discriminate]]).
Qed.

Lemma day_name_inj i j : 0 <= i <= 6 -> 0 <= j <= 6 ->
  day_name i = day_name j -> i = j.
Proof.
  intros Hi Hj.
  destruct (day_name_cases i Hi) as [->|[->|[->|[->|[->|[->| ->]]]]]];
    destruct (day_name_cases j Hj) as [->|[->|[->|[->|[->|[->| ->]]]]]];
    intros E; first [reflexivity | discriminate E].
Qed.

(** White space before a word that does not start with white space is
    read in one way. *)
Lemma gap_unique g1 : forall g2 c1 r1 c2 r2,
  forall_string is_space g1 = true -> forall_string is_space g2 = true ->
  is_space c1 = false -> is_space c2 = false ->
  (g1 ++ String c1 r1)%string = (g2 ++ String c2 r2)%string ->
  String c1 r1 = String c2 r2.
Proof.
  induction g1 as [|a g1 IH]; intros g2 c1 r1 c2 r2 H1 H2 N1 N2 E.
  - destruct g2 as [|b g2]; [exact E|].
    cbn in E, H2. injection E as -> _.
    apply andb_true_iff in H2 as [H2 _]. congruence.
  - destruct g2 as [|b g2]; cbn in E, H1.
    + injection E as -> _. apply andb_true_iff in H1 as [H1 _]. congruence.
    + cbn in H2. injection E as _ E.
      apply andb_true_iff in H1 as [_ H1]. apply andb_true_iff in H2 as [_ H2].
      eapply IH; eassumption.
Qed.

(** A matched text reads as one weekday only, with or without "next". *)
Lemma reads_as_unique t i next gap i' next' gap' :
  reads_as t i next gap -> reads_as t i' next' gap' ->
  i' = i /\ next' = next.
Proof.
  intros (Hi & T & W) (Hi' & T' & W'). rewrite T in T'. clear T.
  destruct (day_name_head i Hi) as (c & r & E & S & N).
  destruct (day_name_head i' Hi') as (c' & r' & E' & S' & N').
  destruct next, next'.
  - destruct W as [_ W], W' as [_ W'].
    cbn [String.append] in T'.
    injection T' as T'. rewrite E, E' in T'.
    pose proof (gap_unique _ _ _ _ _ _ W W' S S' T') as Q.
    rewrite <- E, <- E' in Q. split; [|reflexivity].
    symmetry. now apply day_name_inj.
  - exfalso. rewrite E' in T'. cbn in T'. injection T' as T' _. congruence.
  - exfalso. rewrite E in T'. cbn in T'. injection T' as T' _. congruence.
  - split; [|reflexivity]. symmetry. now apply day_name_inj.
Qed.

(** C7. A match of the weekday pattern reads as a weekday name, alone or
    after "next" and white space, and in one way only.  The weekday stage
    sets the working date [d] local days after today, [d] being the
    distance from today's weekday to the weekday named, a week more when
    that is not positive or "next" is there: from 1 to 13 days ahead, on
    the weekday named. *)
Theorem weekday_stage_offset (K : Clock) (lowerText : string) (w : Work)
  (wm : rmatch) :
  exec Patterns.weekday lowerText = Some wm ->
  (exists i next gap, reads_as (m_text wm) i next gap)
  /\ forall i next gap, reads_as (m_text wm) i next gap ->
       let today := Day (LocalTime K (now K)) in
       let cw := WeekDay (LocalTime K (now K)) in
       let d := i - cw + (if (i - cw <=? 0) || next then 7 else 0) in
       let t := targetDate (stage_weekday K lowerText w) in
       Day (LocalTime K t) = today + d
       /\ 1 <= d <= 13
       /\ today < Day (LocalTime K t) <= today + 13
       /\ WeekDay (LocalTime K t) = i.
Proof.
  intros H.
  destruct (weekday_match_shape _ _ H) as (name & Hn & G2 & Hs).
  destruct (weekday_numbered _ Hn) as (i & Hi & -> & Hx).
  assert (R : exists gap, reads_as (m_text wm) i (isNext wm) gap).
  { unfold isNext, reads_as.
    destruct Hs as [[-> T]|(gap & Wg & -> & T)].
    - exists "". auto.
    - exists gap. split; [exact Hi|]. split; [|exact Wg].
      now rewrite T, append_assoc. }
  destruct R as (gap & R).
  split; [now exists i, (isNext wm), gap|].
  intros i' next' gap' R'.
  destruct (reads_as_unique _ _ _ _ _ _ _ R R') as [-> ->].
  clear R R' gap gap'. intros today cw d t.
  assert (Hcw : 0 <= cw <= 6) by apply WeekDay_range.
  assert (Ht : t = now K + d * msPerDay).
  { unfold t, stage_weekday. rewrite H. cbn [targetDate].
    rewrite weekdayDate_shift. unfold captured. rewrite G2, Hx.
    fold cw. unfold d, daysToAdd, getDay. fold cw.
    destruct ((i - cw <=? 0) || isNext wm); f_equal; f_equal; lia. }
  assert (Hd : 1 <= d <= 13).
  { unfold d. destruct (Z.leb_spec (i - cw) 0), (isNext wm); cbn [orb]; lia. }
  assert (HD : Day (LocalTime K t) = today + d).
  { rewrite Ht. unfold LocalTime.
    rewrite <- Z.add_assoc, (Z.add_comm (d * msPerDay)), Z.add_assoc.
    apply Day_shift. }
  split; [exact HD|]. split; [exact Hd|]. split; [lia|].
  unfold WeekDay. rewrite HD. unfold d, cw, WeekDay. fold today.
  destruct ((i - (today + 4) mod 7 <=? 0) || isNext wm);
    Z.div_mod_to_equations; lia.
Qed.

Lemma weekday_stage_offset_witness :
  exec Patterns.weekday "see you next friday"
  = Some (RMatch 8 "next friday" [(2%nat, "friday"); (1%nat, "next ")])
  /\ reads_as "next friday" 5 true " "
  /\ Day (LocalTime sample_clock
            (targetDate (stage_weekday sample_clock "see you next friday"
                           (initialWork sample_clock))))
     = Day (LocalTime sample_clock (now sample_clock)) + 9.
Proof.
  assert (H1 : exec Patterns.weekday "see you next friday"
               = Some (RMatch 8 "next friday"
                         [(2%nat, "friday"); (1%nat, "next ")]))
    by reflexivity.
  assert (H2 : reads_as "next friday" 5 true " ").
  { split; [lia|]. split; [reflexivity|]. split; [discriminate|reflexivity]. }
  split; [exact H1|]. split; [exact H2|].
  destruct (weekday_stage_offset sample_clock "see you next friday"
              (initialWork sample_clock) _ H1) as (_ & U).
  destruct (U 5 true " " H2) as (D & _).
  rewrite D. vm_compute. reflexivity.
Defined.

(** C10. A 12-hour match whose hour is from 13 to 99 with "pm" is taken as
    it is: the hour becomes [h + 12], and setting it moves the working date
    forward by the days it holds, at least one. *)
Theorem pm_hour_is_not_checked (K : Clock) (text : string) (m : rmatch) (h : Z) :
  exec Patterns.time12 text = Some m ->
  parseInt (captured 1 m) = h ->
  13 <= h <= 99 ->
  toLowerCase (captured 3 m) = "pm" ->
  let mi := snd (time12_of m) in
  let w := stages K text in
  targetTime w = Some (h + 12, mi)
  /\ (exists before, matchedText w = (before ++ " " ++ m_text m)%string)
  /\ extractDateTime K text
     = Some {| dt_raw := trim (matchedText w);
               dt_datetime :=
                 toISOString (setHours K (targetDate w) (h + 12) mi 0 0) |}
  /\ Day (LocalTime K (setHours K (targetDate w) (h + 12) mi 0 0))
     = Day (LocalTime K (targetDate w)) + ((h + 12) * 60 + mi) / 1440
  /\ 1 <= ((h + 12) * 60 + mi) / 1440.
Proof.
  intros Hm Hh Hr Hpm mi w.
  assert (Ht : time12_of m = (h + 12, mi)).
  { unfold mi, time12_of. rewrite Hh, Hpm. cbn [fst snd String.eqb].
    change ("pm" =? "pm")%string with true.
    change ("pm" =? "am")%string with false. cbn [andb].
    destruct (Z.eqb_spec h 12) as [E|_]; [lia|]. cbn [negb].
    reflexivity. }
  assert (Hmi : 0 <= mi) by apply time12_of_nonneg.
  assert (HT : targetTime w = Some (h + 12, mi)).
  { unfold w. rewrite stages_targetTime. unfold foundTime.
    now rewrite Hm, Ht. }
  repeat split.
  - exact HT.
  - unfold w, stages, stage_time24, stage_time12. rewrite Hm.
    destruct (exec Patterns.time24 text); cbn [matchedText]; eauto.
  - unfold extractDateTime, resultTime, applyTime. fold w. now rewrite HT.
  - apply Day_setHours; lia.
  - apply Z.div_le_lower_bound; lia.
Qed.

Lemma pm_hour_is_not_checked_witness :
  exec Patterns.time12 "meet at 19pm"
  = Some (RMatch 8 "19pm" [(3%nat, "pm"); (1%nat, "19")])
  /\ parseInt "19" = 19
  /\ 13 <= 19 <= 99
  /\ toLowerCase "pm" = "pm"
  /\ extractDateTime sample_clock "meet at 19pm"
     = Some {| dt_raw := "19pm"; dt_datetime := "2025-12-18T07:00:00.000Z" |}.
Proof.
  assert (H1 : exec Patterns.time12 "meet at 19pm"
               = Some (RMatch 8 "19pm" [(3%nat, "pm"); (1%nat, "19")]))
    by reflexivity.
  assert (H3 : 13 <= 19 <= 99) by lia.
  split; [exact H1|]. split; [reflexivity|]. split; [exact H3|].
  split; [reflexivity|].
  destruct (pm_hour_is_not_checked sample_clock "meet at 19pm" _ 19
              H1 eq_refl H3 eq_refl) as (_ & _ & H & _).
  rewrite H. vm_compute. reflexivity.
Defined.

(** ** The name *)

(** C8, as the code has it.  [extractName] finds a name exactly when the
    text starts with a capital letter followed by a lower-case one, and the
    name is then the longest run, at the start of the text, of capitalised
    words separated by white space (one or more characters of it); a text
    that starts otherwise gets the name "Unknown". *)
Theorem extractName_longest_run (text : string) :
  (extractName text <> None <-> starts_capitalised text = true)
  /\ (forall n, extractName text = Some n ->
      prefix n text = true /\ name_run white_space n /\
      forall p, name_run white_space p -> prefix p text = true ->
                (String.length p <= String.length n)%nat)
  /\ (forall K r, starts_capitalised (trim text) = false ->
      parseAppointment K text = Some r -> name r = "Unknown").
Proof.
  assert (Hiff : forall s, extractName s <> None <-> starts_capitalised s = true).
  { intros s. rewrite extractName_scan, <- word_len_starts, <- name_len_0.
    destruct (Nat.eqb_spec (name_len s) 0); split; congruence. }
  split; [apply Hiff|]. split.
  - intros n. rewrite extractName_scan.
    destruct (Nat.eqb_spec (name_len text) 0) as [E|E]; [discriminate|].
    intros [= <-]. split; [apply prefix_take|]. split.
    + now apply name_run_take.
    + intros p Hp Hpre. apply prefix_inv in Hpre as [r ->].
      rewrite length_take by apply name_len_le. now apply name_len_longest.
  - intros K r Hs Hr. apply parseAppointment_name_phone in Hr as [-> _].
    destruct (extractName (trim text)) eqn:E; [|reflexivity].
    assert (H : extractName (trim text) <> None) by congruence.
    apply Hiff in H. congruence.
Qed.

Lemma extractName_longest_run_witness :
  starts_capitalised (trim "call Bob tomorrow") = false
  /\ exists r, parseAppointment sample_clock "call Bob tomorrow" = Some r
               /\ name r = "Unknown".
Proof.
  split; [reflexivity|].
  destruct (extractName_longest_run "call Bob tomorrow") as (_ & _ & H).
  eexists. split; [reflexivity|].
  eapply H; [|reflexivity]. reflexivity.
Defined.

Lemma append_eq_cons s t c r :
  (s ++ t)%string = String c r ->
  (s = "" /\ t = String c r) \/ exists s', s = String c s' /\ (s' ++ t)%string = r.
Proof.
  destruct s as [|d s]; cbn; [now left|]. intros [= -> <-]. right. eauto.
Qed.

Lemma single_space_tail_head t :
  name_tail single_space t ->
  t = "" \/ exists u r, t = String " " (String u r) /\ is_upper u = true.
Proof.
  intros [|ws w t' Hws Hw Ht]; [now left | right].
  unfold single_space in Hws. subst ws.
  destruct w as [|u s]; [destruct Hw|]. destruct Hw as (Hu & _).
  cbn. eauto.
Qed.

(** C8, as stated, fails: two spaces between the words do not end the
    name, which is then not a run of words separated by single spaces. *)
Lemma double_space_kept_in_name :
  extractName "John  Doe" = Some "John  Doe"
  /\ ~ name_run single_space "John  Doe".
Proof.
  split; [vm_compute; reflexivity|].
  intros (w & t & E & Hw & Ht).
  destruct w as [|u s]; [destruct Hw|]. destruct Hw as (_ & Hne & Hl).
  cbn in E. injection E as <- E. symmetry in E.
  apply single_space_tail_head in Ht.
  repeat match goal with
         | H : (?s ++ t)%string = String _ _ |- _ =>
             apply append_eq_cons in H as [[-> ->]|(? & -> & H)]
         | H : (?s ++ t)%string = "" |- _ =>
             destruct s; [cbn in H; subst t | discriminate H]
         end;
    try contradiction; try discriminate Hl;
    destruct Ht as [Ht|(u' & r' & Ht & Hu')]; try discriminate Ht;
    injection Ht as <- _; discriminate Hu'.
Qed.

(** ** The phone number *)

Lemma filter_string_append p s1 s2 :
  filter_string p (s1 ++ s2) = (filter_string p s1 ++ filter_string p s2)%string.
Proof.
  induction s1 as [|c s1 IH]; cbn; [reflexivity|].
  destruct (p c); cbn; now rewrite IH.
Qed.

Lemma ndigits_append s1 s2 : ndigits (s1 ++ s2) = (ndigits s1 + ndigits s2)%nat.
Proof. unfold ndigits. now rewrite filter_string_append, length_append. Qed.

Lemma not_digit c :
  (Ascii.eqb "(" c = true \/ Ascii.eqb ")" c = true \/ is_sep c = true) ->
  is_digit c = false.
Proof.
  destruct c as [[] [] [] [] [] [] [] []]; vm_compute; intuition congruence.
Qed.

(** Every word of the two phone patterns holds exactly ten digits. *)
Lemma phone_grouped_digits p : lang Patterns.phone_grouped p -> ndigits p = 10%nat.
Proof.
  unfold Patterns.phone_grouped, Opt, Patterns.digit. cbn [Rep Lit].
  intros H. invert_lang; rewrite ?ndigits_append; unfold ndigits;
    cbn [filter_string];
    repeat match goal with
           | H : is_digit _ = true |- _ => rewrite H; clear H
           | H : Ascii.eqb _ _ = true |- _ =>
               rewrite (not_digit _ (or_introl H)); clear H
           | H : Ascii.eqb _ _ = true |- _ =>
               rewrite (not_digit _ (or_intror (or_introl H))); clear H
           | H : is_sep _ = true |- _ =>
               rewrite (not_digit _ (or_intror (or_intror H))); clear H
           end; reflexivity.
Qed.

Lemma phone_bare_digits p : lang Patterns.phone_bare p -> ndigits p = 10%nat.
Proof.
  unfold Patterns.phone_bare, Patterns.digit. cbn [Rep].
  intros H. invert_lang; rewrite ?ndigits_append; unfold ndigits;
    cbn [filter_string];
    repeat match goal with
           | H : is_digit _ = true |- _ => rewrite H; clear H
           end; reflexivity.
Qed.

Lemma digit_not_other c :
  is_digit c = true ->
  Ascii.eqb "(" c = false /\ Ascii.eqb ")" c = false /\ is_sep c = false.
Proof.
  destruct c as [[] [] [] [] [] [] [] []]; vm_compute; intros H;
    first [discriminate H | repeat split].
Qed.

Lemma string_length_10 ds :
  String.length ds = 10%nat ->
  exists d1 d2 d3 d4 d5 d6 d7 d8 d9 d10,
    ds = string_of_list_ascii [d1; d2; d3; d4; d5; d6; d7; d8; d9; d10].
Proof.
  intros H.
  do 10 (destruct ds as [|? ds]; [discriminate H|]).
  destruct ds; [|discriminate H].
  repeat eexists.
Qed.

Lemma extractPhone_formatDigits ds :
  String.length ds = 10%nat ->
  forall_string is_digit ds = true ->
  extractPhone (formatDigits ds)
  = Some {| phone_raw := formatDigits ds; phone_formatted := formatDigits ds |}.
Proof.
  intros Hlen Hdig.
  destruct (string_length_10 ds Hlen)
    as (d1 & d2 & d3 & d4 & d5 & d6 & d7 & d8 & d9 & d10 & ->).
  clear Hlen. cbn [forall_string string_of_list_ascii] in Hdig.
  repeat (apply andb_true_iff in Hdig as [? Hdig]). clear Hdig.
  repeat match goal with
         | H : is_digit ?c = true |- _ =>
             let H1 := fresh in let H2 := fresh in let H3 := fresh in
             destruct (digit_not_other c H) as (H1 & H2 & H3);
             revert H
         end.
  intros.
  unfold extractPhone, phonePatterns, extractPhoneWith, exec.
  cbn [string_of_list_ascii formatDigits slice drop take Nat.sub String.append].
  repeat (cbn -[is_digit is_sep Ascii.eqb];
          try change (Ascii.eqb ")" "-") with false;
          try change (Ascii.eqb "(" "-") with false;
          try change (is_sep "-") with true;
          try change (is_digit "-") with false;
          repeat match goal with
                 | H : _ = _ |- _ => rewrite H
                 end).
  reflexivity.
Qed.

(** C9. Ten digits written DDD-DDD-DDDD are read back as they are, and a
    match that does not hold exactly ten digits is passed over: the next
    pattern is tried, and "No phone" stands when none is left.  What is
    returned is always the ten digits of the match, written DDD-DDD-DDDD. *)
Theorem phone_round_trip (ds : string) :
  String.length ds = 10%nat ->
  forall_string is_digit ds = true ->
  extractPhone (ddd_ddd_dddd ds)
  = Some {| phone_raw := ddd_ddd_dddd ds; phone_formatted := ddd_ddd_dddd ds |}
  /\ (forall pattern others text m,
      exec pattern text = Some m ->
      String.length (filter_string is_digit (m_text m)) <> 10%nat ->
      extractPhoneWith (pattern :: others) text = extractPhoneWith others text)
  /\ (forall text p, extractPhone text = Some p ->
      String.length (filter_string is_digit (phone_raw p)) = 10%nat /\
      phone_formatted p = ddd_ddd_dddd (filter_string is_digit (phone_raw p)))
  /\ (forall K text r, parseAppointment K text = Some r ->
      extractPhone (afterName text) = None -> phone r = "No phone").
Proof.
  intros Hlen Hdig. split.
  { rewrite <- (formatDigits_ten ds Hlen). now apply extractPhone_formatDigits. }
  split; [|split].
  - intros pattern others text m Hm Hn. cbn [extractPhoneWith]. rewrite Hm.
    destruct (Nat.eqb_spec (String.length (filter_string is_digit (m_text m))) 10);
      [contradiction | reflexivity].
  - intros text p H. apply extractPhoneWith_formatted in H as [L F].
    split; [exact L|]. rewrite F. now apply formatDigits_ten.
  - intros K text r Hr Hp.
    apply parseAppointment_name_phone in Hr as [_ ->]. now rewrite Hp.
Qed.

Lemma phone_round_trip_witness :
  String.length "7205551212" = 10%nat
  /\ forall_string is_digit "7205551212" = true
  /\ extractPhone "720-555-1212"
     = Some {| phone_raw := "720-555-1212";
               phone_formatted := "720-555-1212" |}.
Proof.
  split; [reflexivity|]. split; [reflexivity|].
  destruct (phone_round_trip "7205551212" eq_refl eq_refl) as (H & _).
  exact H.
Defined.

(** ** Further properties *)

Lemma no_cue_datetime_witness :
  includes (toLowerCase "hello") "tomorrow" = false
  /\ exec Patterns.weekday (toLowerCase "hello") = None
  /\ exec Patterns.specific_date "hello" = None
  /\ exec Patterns.time12 "hello" = None
  /\ exec Patterns.time24 "hello" = None
  /\ extractDateTime sample_clock "hello"
     = Some {| dt_raw := ""; dt_datetime := "2025-12-17T09:00:00.000Z" |}.
Proof.
  do 5 (split; [reflexivity|]).
  rewrite (no_cue_datetime sample_clock "hello"
             eq_refl eq_refl eq_refl eq_refl eq_refl).
  vm_compute. reflexivity.
Defined.

Lemma name_step_removes_name_witness :
  extractName (trim "  Ann Lee  call back ") = Some "Ann Lee"
  /\ exists r, trim "  Ann Lee  call back " = ("Ann Lee" ++ r)%string
               /\ afterName "  Ann Lee  call back " = trim r.
Proof.
  split; [reflexivity|].
  apply (name_step_removes_name "  Ann Lee  call back " "Ann Lee" eq_refl).
Defined.

Lemma phone_step_removes_match_witness :
  extractPhone (afterName "Ann at 720 555 1212 or 720 555 1212")
  = Some {| phone_raw := "720 555 1212"; phone_formatted := "720-555-1212" |}
  /\ exists a b,
       afterName "Ann at 720 555 1212 or 720 555 1212"
       = (a ++ "720 555 1212" ++ b)%string
       /\ afterPhone "Ann at 720 555 1212 or 720 555 1212" = trim (a ++ b)
       /\ forall a' b',
          afterName "Ann at 720 555 1212 or 720 555 1212"
          = (a' ++ "720 555 1212" ++ b')%string ->
          (String.length a <= String.length a')%nat.
Proof.
  split; [reflexivity|].
  apply (phone_step_removes_match "Ann at 720 555 1212 or 720 555 1212"
           {| phone_raw := "720 555 1212"; phone_formatted := "720-555-1212" |}
           eq_refl).
Defined.

(** X4. The last date stage that matches decides the working date: the
    numeric date, else the weekday, else tomorrow, else now. *)
Theorem date_stage_precedence (K : Clock) (text : string) :
  targetDate (stages K text)
  = match exec Patterns.specific_date text with
    | Some dm => specificDate K dm
    | None =>
        match exec Patterns.weekday (toLowerCase text) with
        | Some wm => weekdayDate K wm
        | None =>
            if includes (toLowerCase text) "tomorrow" then tomorrowDate K
            else now K
        end
    end.
Proof. apply stages_targetDate. Qed.

(** X5. The local day of the returned instant is the local day of the
    working date plus the days the time of day carries. *)
Theorem returned_day_carries (K : Clock) (text : string) :
  Day (LocalTime K (resultTime K text))
  = Day (LocalTime K (targetDate (stages K text))) + carry (foundTime text).
Proof. apply resultTime_day. Qed.

(** X6. Every call ends in the result of the rule-based parser or in an
    answer adopted from the remote model: no exception leaves the
    function. *)
Theorem remote_outcomes (R : Companion.Remote) (K : Clock) (text : string) :
  Companion.parseAppointment R K text = Companion.fallback K text
  \/ exists response data c parsed a,
       Companion.fetch R = Some response
       /\ Companion.ok response = true
       /\ Companion.body_json response = Some data
       /\ Companion.content_of data = Companion.Ok (Some (Companion.JString c))
       /\ Companion.JSON_parse R (Companion.clean c) = Some parsed
       /\ Companion.adopt K parsed = Companion.Ok (Some a)
       /\ Companion.parseAppointment R K text = Some a.
Proof.
  unfold Companion.parseAppointment.
  destruct (truthy (trim text)) eqn:Et; cbn [negb].
  2: { left. unfold Companion.fallback, Companion.fallbackParser,
         parseAppointment. now rewrite Et. }
  destruct (Companion.has_key R); cbn [negb]; [|now left].
  unfold Companion.attempt.
  destruct (Companion.fetch R) as [response|] eqn:Ef; [|now left].
  destruct (Companion.ok response) eqn:Eok; cbn [negb].
  2: { destruct (Companion.body_text response); now left. }
  destruct (Companion.body_json response) as [data|] eqn:Eb; [|now left].
  destruct (Companion.content_of data) as [content|] eqn:Ec; [|now left].
  cbn [Companion.bind].
  destruct (Companion.js_truthy content) eqn:Ej; cbn [negb]; [|now left].
  destruct content as [[| | |c| |]|]; try now left.
  destruct (Companion.JSON_parse R (Companion.clean c)) as [parsed|] eqn:Ep;
    [|now left].
  destruct (Companion.adopt K parsed) as [[a|]|] eqn:Ea; try now left.
  - right. exists response, data, c, parsed, a. auto 10.
  - exfalso. revert Ea. unfold Companion.adopt.
    destruct (Companion.member "phone" parsed); cbn [Companion.bind];
      [|discriminate].
    destruct (Companion.formatPhone _); cbn [Companion.bind]; [|discriminate].
    destruct (Companion.member "name" parsed); cbn [Companion.bind];
      [|discriminate].
    destruct (Companion.member "details" parsed); cbn [Companion.bind];
      [|discriminate].
    destruct (Companion.member "datetime" parsed); cbn [Companion.bind];
      discriminate.
Qed.

(** X7. The ten-digit check of [extractPhone] never rejects a match of its
    two patterns: the first pattern that matches decides. *)
Theorem extractPhone_first_match (text : string) :
  extractPhone text
  = match exec Patterns.phone_grouped text with
    | Some m =>
        Some {| phone_raw := m_text m;
                phone_formatted :=
                  formatDigits (filter_string is_digit (m_text m)) |}
    | None =>
        match exec Patterns.phone_bare text with
        | Some m =>
            Some {| phone_raw := m_text m;
                    phone_formatted :=
                      formatDigits (filter_string is_digit (m_text m)) |}
        | None => None
        end
    end.
Proof.
  unfold extractPhone, phonePatterns. cbn [extractPhoneWith].
  destruct (exec Patterns.phone_grouped text) as [m|] eqn:E1.
  - apply exec_lang, phone_grouped_digits in E1. unfold ndigits in E1.
    now rewrite E1.
  - destruct (exec Patterns.phone_bare text) as [m|] eqn:E2; [|reflexivity].
    apply exec_lang, phone_bare_digits in E2. unfold ndigits in E2.
    now rewrite E2.
Qed.

(** * The rest of the code

    What the code does beyond the sentences above: its other functions,
    and what follows from the ones already seen. *)

(** ** Months and dates *)

Local Open Scope Z_scope.

Lemma month_start_at q r : 0 <= r < 12 ->
  month_start (12 * q + r) = days_from_civil q (r + 1) 1.
Proof.
  intros H. unfold month_start.
  replace ((12 * q + r) / 12) with q by (Z.div_mod_to_equations; lia).
  replace ((12 * q + r) mod 12) with r by (Z.div_mod_to_equations; lia).
  reflexivity.
Qed.

Lemma month_start_step n : 28 <= month_start (n + 1) - month_start n <= 31.
Proof.
  assert (H : 0 <= n mod 12 < 12) by (apply Z.mod_pos_bound; lia).
  assert (Hq : n = 12 * (n / 12) + n mod 12) by (apply Z.div_mod; lia).
  set (q := n / 12) in *. set (r := n mod 12) in *. clearbody q r. subst n.
  destruct (Z.eq_dec r 11) as [->|N].
  - replace (12 * q + 11 + 1) with (12 * (q + 1) + 0) by lia.
    rewrite !month_start_at by lia. unfold days_from_civil. cbn.
    Z.div_mod_to_equations; lia.
  - replace (12 * q + r + 1) with (12 * q + (r + 1)) by lia.
    rewrite !month_start_at by lia.
    assert (C : r = 0 \/ r = 1 \/ r = 2 \/ r = 3 \/ r = 4 \/ r = 5 \/ r = 6
                \/ r = 7 \/ r = 8 \/ r = 9 \/ r = 10) by lia.
    unfold days_from_civil.
    destruct C as [C|[C|[C|[C|[C|[C|[C|[C|[C|[C|C]]]]]]]]]]; subst r; cbn;
      Z.div_mod_to_equations; lia.
Qed.

Lemma month_start_mono_nat (k : nat) n :
  month_start n + 28 * Z.of_nat k <= month_start (n + Z.of_nat k).
Proof.
  induction k as [|k IH].
  - replace (n + Z.of_nat 0) with n by lia. lia.
  - pose proof (month_start_step (n + Z.of_nat k)) as H.
    replace (n + Z.of_nat (S k)) with (n + Z.of_nat k + 1) by lia. lia.
Qed.

Lemma month_start_mono n n' : n < n' -> month_start n + 28 <= month_start n'.
Proof.
  intros H. pose proof (month_start_mono_nat (Z.to_nat (n' - n)) n) as M.
  replace (n + Z.of_nat (Z.to_nat (n' - n))) with n' in M by lia. lia.
Qed.

Lemma MakeDay_month_start y mo d :
  MakeDay y mo d = month_start (12 * y + mo) + d - 1.
Proof.
  unfold MakeDay, month_start.
  replace ((12 * y + mo) / 12) with (y + mo / 12) by (Z.div_mod_to_equations; lia).
  replace ((12 * y + mo) mod 12) with (mo mod 12) by (Z.div_mod_to_equations; lia).
  reflexivity.
Qed.


Lemma month_end_after era doe yoe doy mp :
  0 <= doe <= 146096 ->
  yoe = (doe - doe / 1460 + doe / 36524 - doe / 146096) / 365 ->
  doy = doe - (365 * yoe + yoe / 4 - yoe / 100) ->
  mp = (5 * doy + 2) / 153 ->
  era * 146097 + doe - 719468
  < month_start (12 * (if (if mp <? 10 then mp + 3 else mp - 9) <=? 2
                       then yoe + era * 400 + 1 else yoe + era * 400)
                 + (if mp <? 10 then mp + 3 else mp - 9)).
Proof.
  intros Hdoe Hyoe Hdoy Hmp.
  assert (Ryoe : 0 <= yoe <= 399) by (subst yoe; Z.div_mod_to_equations; lia).
  assert (Rdoy : 0 <= doy <= 365)
    by (subst doy yoe; Z.div_mod_to_equations; lia).
  assert (Rmp : 0 <= mp <= 11) by (subst mp; Z.div_mod_to_equations; lia).
  assert (E400 : forall k, 0 <= k <= 399 ->
            (k + era * 400) / 400 = era /\ (k + era * 400) mod 400 = k)
    by (intros k Hk; Z.div_mod_to_equations; lia).
  assert (C : mp = 0 \/ mp = 1 \/ mp = 2 \/ mp = 3 \/ mp = 4 \/ mp = 5
              \/ mp = 6 \/ mp = 7 \/ mp = 8 \/ mp = 9 \/ mp = 10 \/ mp = 11)
    by lia.
  destruct C as [C|[C|[C|[C|[C|[C|[C|[C|[C|[C|[C|C]]]]]]]]]]]; rewrite C in *;
    match goal with
    | |- context [if ?a <? 10 then ?b else ?c] =>
        let v := eval compute in (if a <? 10 then b else c) in
        change (if a <? 10 then b else c) with v
    end;
    match goal with
    | |- context [?a <=? 2] =>
        let v := eval compute in (a <=? 2) in change (a <=? 2) with v
    end; cbv iota.
  10: replace (12 * (yoe + era * 400) + 12)
        with (12 * (yoe + era * 400 + 1) + 0) by lia.
  1-11: rewrite month_start_at by lia; unfold days_from_civil;
        match goal with
        | |- context [?a + 1 <=? 2] =>
            let v := eval compute in (a + 1 <=? 2) in
            change (a + 1 <=? 2) with v
        end;
        match goal with
        | |- context [2 <? ?a + 1] =>
            let v := eval compute in (2 <? a + 1) in
            change (2 <? a + 1) with v
        end; cbv iota;
        try replace (yoe + era * 400 + 1 - 1) with (yoe + era * 400) by lia;
        destruct (E400 yoe Ryoe) as [-> ->];
        Z.div_mod_to_equations; lia.
  rewrite month_start_at by lia. unfold days_from_civil.
  change (2 + 1 <=? 2) with false. change (2 <? 2 + 1) with true. cbv iota.
  destruct (Z.eq_dec yoe 399) as [Y|Y].
  - replace ((yoe + era * 400 + 1) / 400) with (era + 1)
      by (Z.div_mod_to_equations; lia).
    replace ((yoe + era * 400 + 1) mod 400) with 0
      by (Z.div_mod_to_equations; lia).
    Z.div_mod_to_equations; lia.
  - destruct (E400 (yoe + 1) ltac:(lia)) as [E1 E2].
    replace (yoe + era * 400 + 1) with (yoe + 1 + era * 400) by lia.
    rewrite E1, E2. Z.div_mod_to_equations; lia.
Qed.

(** A day lies in the month its calendar date names. *)
Lemma civil_from_days_month z :
  let '(y, m, d) := civil_from_days z in
  1 <= m <= 12 /\
  month_start (12 * y + (m - 1)) <= z < month_start (12 * y + m) /\
  d = z - month_start (12 * y + (m - 1)) + 1.
Proof.
  pose proof (days_from_civil_from_days z) as H.
  pose proof (month_range z) as Hm.
  pose proof (month_end_after (era_of z) (doe_of z) _ _ _ (doe_range z)
                eq_refl eq_refl eq_refl) as Hup.
  assert (Hz : z + 719468 = 146097 * era_of z + doe_of z)
    by (unfold era_of, doe_of; apply Z.div_mod; lia).
  unfold civil_from_days in *. cbn [fst snd] in Hm.
  fold (yoe_of (doe_of z)) in Hup.
  change (doe_of z - (365 * yoe_of (doe_of z) + yoe_of (doe_of z) / 4
                      - yoe_of (doe_of z) / 100)) with (doy_of (doe_of z)) in Hup.
  fold (mp_of (doy_of (doe_of z))) in Hup.
  set (mp := mp_of (doy_of (doe_of z))) in *.
  set (m := if mp <? 10 then mp + 3 else mp - 9) in *.
  set (y := if m <=? 2 then yoe_of (doe_of z) + era_of z * 400 + 1
            else yoe_of (doe_of z) + era_of z * 400) in *.
  set (d := doy_of (doe_of z) - (153 * mp + 2) / 5 + 1) in *.
  split; [exact Hm|].
  rewrite (month_start_at y (m - 1)) by lia.
  replace (m - 1 + 1) with m by lia.
  assert (Hd : 1 <= d).
  { unfold d, mp, mp_of.
    pose proof (doy_range _ (doe_range z)). Z.div_mod_to_equations; lia. }
  assert (E : days_from_civil y m 1 = z - d + 1).
  { replace 1 with (d + (1 - d)) at 1 by lia.
    rewrite days_from_civil_shift, H. lia. }
  split; [|lia]. split; [lia|]. lia.
Qed.

(** The calendar date of a day number is the only date that names it. *)
Lemma civil_from_days_unique z y m d :
  1 <= m <= 12 ->
  month_start (12 * y + (m - 1)) <= z < month_start (12 * y + m) ->
  d = z - month_start (12 * y + (m - 1)) + 1 ->
  civil_from_days z = (y, m, d).
Proof.
  intros Hm Hz Hd. pose proof (civil_from_days_month z) as H.
  destruct (civil_from_days z) as [[y' m'] d'].
  destruct H as (Hm' & Hz' & Hd').
  assert (E : 12 * y' + (m' - 1) = 12 * y + (m - 1)).
  { destruct (Z.lt_trichotomy (12 * y' + (m' - 1)) (12 * y + (m - 1)))
      as [L|[L|L]]; [|exact L|].
    - assert (L' : 12 * y' + m' <= 12 * y + (m - 1)) by lia.
      apply Zle_lt_or_eq in L' as [L'|L'].
      + pose proof (month_start_mono _ _ L'). lia.
      + rewrite L' in Hz'. lia.
    - assert (L' : 12 * y + m <= 12 * y' + (m' - 1)) by lia.
      apply Zle_lt_or_eq in L' as [L'|L'].
      + pose proof (month_start_mono _ _ L'). lia.
      + rewrite L' in Hz. lia. }
  assert (y' = y) by lia. assert (m' = m) by lia. subst y' m'.
  f_equal. lia.
Qed.

Lemma month_length y m :
  1 <= m <= 12 ->
  month_start (12 * y + m) - month_start (12 * y + (m - 1)) = days_in_month y m.
Proof.
  intros Hm.
  rewrite (month_start_at y (m - 1)) by lia.
  replace (m - 1 + 1) with m by lia.
  assert (C : m = 1 \/ m = 2 \/ m = 3 \/ m = 4 \/ m = 5 \/ m = 6 \/ m = 7
              \/ m = 8 \/ m = 9 \/ m = 10 \/ m = 11 \/ m = 12) by lia.
  destruct C as [C|[C|[C|[C|[C|[C|[C|[C|[C|[C|[C|C]]]]]]]]]]]; subst m.
  12: replace (12 * y + 12) with (12 * (y + 1) + 0) by lia.
  all: rewrite month_start_at by lia; unfold days_from_civil, days_in_month.
  all: cbn.
  all: try (replace (y + 1 - 1) with y by lia).
  all: try (Z.div_mod_to_equations; lia).
  unfold leap_year.
  destruct (Z.eqb_spec (y mod 4) 0), (Z.eqb_spec (y mod 100) 0),
           (Z.eqb_spec (y mod 400) 0); cbn [andb orb negb];
    Z.div_mod_to_equations; lia.
Qed.

(** A date of the calendar is the calendar date of its day number. *)
Lemma civil_from_days_from_civil y m d :
  1 <= m <= 12 -> 1 <= d <= days_in_month y m ->
  civil_from_days (days_from_civil y m d) = (y, m, d).
Proof.
  intros Hm Hd. pose proof (month_length y m Hm) as L.
  assert (E : days_from_civil y m d = month_start (12 * y + (m - 1)) + d - 1).
  { rewrite month_start_at by lia. replace (m - 1 + 1) with m by lia.
    replace d with (1 + (d - 1)) at 1 by lia.
    rewrite days_from_civil_shift. lia. }
  apply civil_from_days_unique; [exact Hm | lia | lia].
Qed.

Lemma MonthFromTime_range t : 0 <= MonthFromTime t <= 11.
Proof. unfold MonthFromTime. pose proof (month_range (Day t)). lia. Qed.

Lemma Day_newDate K year month day :
  Day (LocalTime K (newDate K year month day))
  = month_start (12 * century year + month) + day - 1
  /\ TimeWithinDay (LocalTime K (newDate K year month day)) = 0.
Proof.
  unfold newDate. fold (century year). rewrite <- MakeDay_month_start.
  unfold LocalTime, UTC, MakeDate, MakeTime, Day, TimeWithinDay, msPerDay.
  split; Z.div_mod_to_equations; lia.
Qed.

(** The date fields of a day of the month with index [n]. *)
Lemma fields_in_month t n d :
  Day t = month_start n + d - 1 ->
  1 <= d <= month_start (n + 1) - month_start n ->
  YearFromTime t = n / 12 /\ MonthFromTime t = n mod 12 /\ DateFromTime t = d.
Proof.
  intros E Hd. unfold YearFromTime, MonthFromTime, DateFromTime.
  assert (Hn : n = 12 * (n / 12) + n mod 12) by (apply Z.div_mod; lia).
  assert (Hr : 0 <= n mod 12 < 12) by (apply Z.mod_pos_bound; lia).
  rewrite (civil_from_days_unique (Day t) (n / 12) (n mod 12 + 1) d).
  - cbn [fst snd]. repeat split; lia.
  - lia.
  - replace (n mod 12 + 1 - 1) with (n mod 12) by lia.
    replace (12 * (n / 12) + (n mod 12 + 1)) with (n + 1) by lia.
    rewrite <- Hn. lia.
  - replace (n mod 12 + 1 - 1) with (n mod 12) by lia. rewrite <- Hn. lia.
Qed.

Lemma newDate_fields K year month day :
  0 <= month <= 11 ->
  1 <= day <= days_in_month (century year) (month + 1) ->
  getFullYear K (newDate K year month day) = century year
  /\ getMonth K (newDate K year month day) = month
  /\ getDate K (newDate K year month day) = day
  /\ TimeWithinDay (LocalTime K (newDate K year month day)) = 0.
Proof.
  intros Hm Hd. destruct (Day_newDate K year month day) as [E T].
  pose proof (month_length (century year) (month + 1) ltac:(lia)) as L.
  replace (month + 1 - 1) with month in L by lia.
  replace (12 * century year + (month + 1))
    with (12 * century year + month + 1) in L by lia.
  destruct (fields_in_month _ _ _ E ltac:(lia)) as (Hy & Hmo & Hda).
  unfold getFullYear, getMonth, getDate.
  rewrite Hy, Hmo, Hda.
  repeat split; try assumption; Z.div_mod_to_equations; lia.
Qed.


(** ** Captures *)

Local Open Scope nat_scope.

Lemma star_caps step :
  (forall a b, In b (step a) -> caps b = caps a) ->
  forall fuel st st', In st' (star step fuel st) -> caps st' = caps st.
Proof.
  intros Hstep. induction fuel as [|fuel IH]; intros st st' H.
  - destruct H as [<-|[]]. reflexivity.
  - cbn [star] in H. apply in_app_or in H as [H|[<-|[]]]; [|reflexivity].
    apply in_flat_map in H as (mid & Hmid & H).
    destruct (Nat.ltb _ _); [|destruct H].
    rewrite (IH _ _ H). now apply Hstep.
Qed.

(** A pattern without groups leaves the captures as they are. *)
Lemma matches_nocap r : nocap r = true ->
  forall st st', In st' (matches r st) -> caps st' = caps st.
Proof.
  induction r as [|p|r1 IH1 r2 IH2|r1 IH1 r2 IH2|r1 IH1|n r1 IH1| |];
    cbn [nocap]; intros N st st' H; cbn [matches] in H.
  - destruct H as [<-|[]]. reflexivity.
  - destruct (rest st) as [|c s]; [destruct H|].
    destruct (p c); [|destruct H]. destruct H as [<-|[]]. reflexivity.
  - apply andb_true_iff in N as [N1 N2].
    apply in_flat_map in H as (mid & Hmid & H).
    rewrite (IH2 N2 _ _ H). now apply IH1.
  - apply andb_true_iff in N as [N1 N2].
    apply in_app_or in H as [H|H]; [now apply IH1 | now apply IH2].
  - eapply star_caps; [|exact H]. now apply IH1.
  - discriminate.
  - destruct (before st); [destruct H|]. destruct H as [<-|[]]. reflexivity.
  - destruct (xorb _ _); [|destruct H]. destruct H as [<-|[]]. reflexivity.
Qed.

(** A group captures the word its body consumed. *)
Lemma in_matches_Group n r st st' :
  In st' (matches (Group n r) st) ->
  exists x p, In x (matches r st) /\ lang r p /\
              rest st = (p ++ rest st')%string /\
              rest st' = rest x /\ caps st' = (n, p) :: caps x.
Proof.
  cbn [matches]. intros H. apply in_map_iff in H as (x & <- & H).
  destruct (matches_sound _ _ _ H) as (p & E & L).
  exists x, p. cbn [rest caps]. repeat split; try assumption.
  rewrite E, length_append, Nat.add_sub, take_append. reflexivity.
Qed.

Lemma nocap_Lit s : nocap (Lit s) = true.
Proof. induction s; cbn; auto. Qed.

Lemma nocap_LitI s : nocap (LitI s) = true.
Proof. induction s; cbn; auto. Qed.

Lemma nocap_Rep n r : nocap r = true -> nocap (Rep n r) = true.
Proof. intros H. induction n; cbn; [reflexivity|]. now rewrite H. Qed.

Lemma nocap_UpTo n r : nocap r = true -> nocap (UpTo n r) = true.
Proof. intros H. induction n; cbn; [reflexivity|]. now rewrite H, IHn. Qed.

Local Open Scope Z_scope.

(** One or two digits read as a number below 100. *)
Lemma parseInt_two_digits s :
  (String.length s <= 2)%nat -> forall_string is_digit s = true ->
  0 <= parseInt s <= 99.
Proof.
  intros Hl Hd.
  assert (D : forall c, is_digit c = true -> 0 <= Z.of_nat (code c - 48) <= 9).
  { intros c H. unfold is_digit, between in H.
    apply andb_true_iff in H as [H1 H2].
    apply Nat.leb_le in H1, H2. lia. }
  destruct s as [|a [|b [|c s]]]; cbn [String.length] in Hl; try lia;
    cbn [forall_string] in Hd; unfold parseInt; cbn [parseInt_acc].
  - lia.
  - apply andb_true_iff in Hd as [Ha _]. rewrite Ha.
    specialize (D a Ha). lia.
  - apply andb_true_iff in Hd as [Ha Hd]. apply andb_true_iff in Hd as [Hb _].
    rewrite Ha, Hb.
    pose proof (D a Ha). pose proof (D b Hb). lia.
Qed.

Lemma lang_digits12 p :
  lang (RepRange 1 1 Patterns.digit) p ->
  (1 <= String.length p <= 2)%nat /\ forall_string is_digit p = true.
Proof.
  unfold RepRange, Patterns.digit. cbn [Rep UpTo]. unfold Opt.
  intros H. invert_lang; cbn;
    repeat match goal with H : is_digit _ = true |- _ => rewrite H; clear H end;
    split; (lia || reflexivity).
Qed.

Lemma lang_digits2 p :
  lang (Rep 2 Patterns.digit) p ->
  String.length p = 2%nat /\ forall_string is_digit p = true.
Proof.
  unfold Patterns.digit. cbn [Rep].
  intros H. invert_lang; cbn;
    repeat match goal with H : is_digit _ = true |- _ => rewrite H; clear H end;
    split; (lia || reflexivity).
Qed.

Lemma canonicalize_letter c x :
  In x ["a"; "p"; "m"]%char ->
  Ascii.eqb (canonicalize c) (canonicalize x) = true -> toLowerChar c = x.
Proof.
  intros [<-|[<-|[<-|[]]]];
    destruct c as [[] [] [] [] [] [] [] []]; vm_compute; congruence.
Qed.

(** The captures of a 12-hour match: one or two digits, maybe two more
    after a colon, and "am" or "pm" in either case of the letters. *)
Lemma time12_captures text m :
  exec Patterns.time12 text = Some m ->
  0 <= parseInt (captured 1 m) <= 99
  /\ match group 2 m with
     | Some mm => 0 <= parseInt mm <= 99 /\ truthy mm = true
     | None => True
     end
  /\ (toLowerCase (captured 3 m) = "am" \/ toLowerCase (captured 3 m) = "pm").
Proof.
  intros H. apply exec_inv in H as (prev & s' & st' & l & H & _ & Hc).
  assert (Hin : In st' (matches Patterns.time12 (MState prev s' [])))
    by (rewrite H; now left).
  unfold Patterns.time12 in Hin.
  apply in_matches_Seq in Hin as (a & Ha & Hin).
  apply in_matches_WordB in Ha as ->.
  apply in_matches_Seq in Hin as (b & Hb & Hin).
  apply in_matches_Group in Hb as (xb & p1 & Hxb & L1 & _ & _ & Cb).
  apply matches_nocap in Hxb; [|reflexivity]. cbn [caps] in Hxb.
  rewrite Hxb in Cb. clear xb Hxb.
  apply in_matches_Seq in Hin as (c & Hcc & Hin).
  apply in_matches_Seq in Hin as (d & Hd & Hin).
  apply matches_nocap in Hd; [|reflexivity].
  apply in_matches_Seq in Hin as (e & He & Hin).
  apply in_matches_WordB in Hin as ->.
  apply in_matches_Group in He as (xe & p3 & Hxe & L3 & _ & _ & Ce).
  apply matches_nocap in Hxe; [|reflexivity].
  rewrite Hxe, Hd in Ce. clear xe Hxe Hd.
  apply lang_digits12 in L1 as [Hl1 Hd1].
  assert (C2 : (caps c = caps b) \/
               exists p2, caps c = (2%nat, p2) :: caps b
                          /\ lang (Rep 2 Patterns.digit) p2).
  { unfold Opt in Hcc. cbn [matches] in Hcc.
    apply in_app_or in Hcc as [Hcc|[<-|[]]]; [|now left].
    apply in_flat_map in Hcc as (x & Hx & Hcc).
    apply (matches_nocap (Lit ":") (nocap_Lit _)) in Hx.
    apply in_matches_Group in Hcc as (y & p2 & Hy & L2 & _ & _ & Cc).
    apply matches_nocap in Hy; [|reflexivity].
    right. exists p2. rewrite Cc, Hy, Hx. auto. }
  assert (H3 : toLowerCase p3 = "am" \/ toLowerCase p3 = "pm").
  { clear - L3. unfold LitI in L3. invert_lang;
      repeat match goal with
             | H : Ascii.eqb (canonicalize ?c) _ = true |- _ =>
                 apply canonicalize_letter in H; [|cbn; tauto]
             end; cbn [String.append toLowerCase];
      repeat match goal with H : toLowerChar _ = _ |- _ => rewrite H end;
      auto. }
  unfold captured, group. rewrite Hc, Ce. cbn [lookup Nat.eqb].
  destruct C2 as [C2|(p2 & C2 & L2)]; rewrite C2, Cb; cbn [lookup Nat.eqb].
  - split; [apply parseInt_two_digits; [lia | exact Hd1]|].
    split; [exact I | exact H3].
  - apply lang_digits2 in L2 as [Hl2 Hd2].
    split; [apply parseInt_two_digits; [lia | exact Hd1]|]. split; [|exact H3].
    split; [apply parseInt_two_digits; [lia | exact Hd2]|].
    destruct p2; [discriminate Hl2 | reflexivity].
Qed.

(** The time of day of a 12-hour match is below 112:00, and that of a
    clock time below 24:00. *)
Lemma time12_of_bound text m :
  exec Patterns.time12 text = Some m ->
  0 <= fst (time12_of m) <= 111 /\ 0 <= snd (time12_of m) <= 99.
Proof.
  intros H. apply time12_captures in H as (H1 & H2 & _).
  unfold time12_of. cbn [fst snd]. split.
  - destruct (_ && (_ =? 12)); [lia|]. destruct (_ && negb _); lia.
  - destruct (group 2 m) as [mm|]; [|lia]. destruct H2 as [H2 ->]. exact H2.
Qed.

Lemma carry_bound text : 0 <= carry (foundTime text) <= 4.
Proof.
  unfold foundTime. destruct (exec Patterns.time12 text) as [m|] eqn:E.
  - apply time12_of_bound in E. destruct (time12_of m) as [h mi].
    cbn [fst snd carry] in *. Z.div_mod_to_equations; lia.
  - destruct (exec Patterns.time24 text) as [m|]; [|cbn; lia].
    destruct (time24_of m) as [[h mi]|] eqn:E24; [|cbn; lia].
    apply time24_of_range in E24. cbn [carry]. Z.div_mod_to_equations; lia.
Qed.



(** ** The time of day *)

Lemma TimeWithinDay_setHours_mod K t h m :
  TimeWithinDay (LocalTime K (setHours K t h m 0 0))
  = ((h * 60 + m) mod 1440) * msPerMinute.
Proof.
  unfold setHours, UTC, LocalTime, MakeDate, MakeTime, Day,
    TimeWithinDay, msPerDay, msPerHour, msPerMinute, msPerSecond.
  Z.div_mod_to_equations; lia.
Qed.

Lemma resultTime_timeOfDay K text :
  resultTime K text
  = setHours K (targetDate (stages K text))
      (fst (timeOfDay text)) (snd (timeOfDay text)) 0 0.
Proof.
  unfold resultTime, applyTime, timeOfDay. rewrite stages_targetTime.
  destruct (foundTime text) as [[h mi]|]; reflexivity.
Qed.

(** X8. In a time zone whose offset from UTC does not change, which is
    what a [Clock] describes, the time of day of the returned instant in
    local time: the hours and minutes found (09:00 when none), taken modulo
    a day, with seconds and milliseconds zero; they are the hours and
    minutes found themselves when those are below 24 and 60, as those of a
    24-hour time always are.  (Where the offset changes, a local time that
    the change skips is moved on by [setHours]; that case is outside the
    clocks modelled here.) *)
Theorem result_time_of_day (K : Clock) (text : string) :
  let lt := LocalTime K (resultTime K text) in
  let h := fst (timeOfDay text) in
  let mi := snd (timeOfDay text) in
  TimeWithinDay lt = ((h * 60 + mi) mod 1440) * msPerMinute
  /\ SecFromTime lt = 0 /\ msFromTime lt = 0
  /\ (foundTime text = None -> HourFromTime lt = 9 /\ MinFromTime lt = 0)
  /\ (h < 24 -> mi < 60 -> HourFromTime lt = h /\ MinFromTime lt = mi)
  /\ (exec Patterns.time12 text = None -> h < 24 /\ mi < 60).
Proof.
  intros lt h mi.
  assert (T : TimeWithinDay lt = ((h * 60 + mi) mod 1440) * msPerMinute).
  { unfold lt. rewrite resultTime_timeOfDay. apply TimeWithinDay_setHours_mod. }
  assert (N : 0 <= h /\ 0 <= mi).
  { unfold h, mi, timeOfDay. destruct (foundTime text) as [[a b]|] eqn:E.
    - apply foundTime_nonneg in E. exact E.
    - cbn. lia. }
  assert (R : h < 24 -> mi < 60 -> HourFromTime lt = h /\ MinFromTime lt = mi).
  { intros Hh Hm. revert T.
    unfold TimeWithinDay, HourFromTime, MinFromTime, msPerDay, msPerHour,
      msPerMinute. intros T. Z.div_mod_to_equations; lia. }
  split; [exact T|]. split; [|split; [|split; [|split]]].
  - revert T. unfold TimeWithinDay, SecFromTime, msPerDay, msPerSecond, msPerMinute.
    intros T. Z.div_mod_to_equations; lia.
  - revert T. unfold TimeWithinDay, msFromTime, msPerDay, msPerSecond, msPerMinute.
    intros T. Z.div_mod_to_equations; lia.
  - intros E. unfold h, mi, timeOfDay in R. rewrite E in R. apply R; cbn; lia.
  - exact R.
  - intros E. unfold h, mi, timeOfDay, foundTime. rewrite E.
    destruct (exec Patterns.time24 text) as [m|]; [|cbn; lia].
    destruct (time24_of m) as [[a b]|] eqn:E24; [|cbn; lia].
    apply time24_of_range in E24. cbn. lia.
Qed.

(** X9. The hour of a 12-hour match: the number written, 12 counting as
    0, plus 12 for "pm".  The meridiem is "am" or "pm" whatever the case of
    its letters, the number written is at most 99, and an hour up to 12 with
    minutes below 60 stays within the day. *)
Theorem twelve_hour_conversion (text : string) (m : rmatch) :
  exec Patterns.time12 text = Some m ->
  let g := parseInt (captured 1 m) in
  let meridiem := toLowerCase (captured 3 m) in
  let hours := fst (time12_of m) in
  let minutes := snd (time12_of m) in
  (meridiem = "am" \/ meridiem = "pm")
  /\ 0 <= g <= 99 /\ 0 <= minutes <= 99
  /\ hours = (if g =? 12 then 0 else g) + (if String.eqb meridiem "pm" then 12 else 0)
  /\ (g <= 12 -> minutes < 60 -> 0 <= hours < 24)
  /\ foundTime text = Some (hours, minutes).
Proof.
  intros H g meridiem hours minutes.
  pose proof (time12_captures _ _ H) as (Hg & H2 & H3).
  pose proof (time12_of_bound _ _ H) as (_ & Hmi).
  fold g in Hg. fold meridiem in H3. fold minutes in Hmi.
  assert (Hh : hours = (if g =? 12 then 0 else g)
                       + (if String.eqb meridiem "pm" then 12 else 0)).
  { unfold hours, time12_of. cbn [fst]. fold g. fold meridiem.
    destruct H3 as [-> | ->]; cbn [String.eqb Ascii.eqb Bool.eqb andb];
      change ("pm" =? "pm")%string with true;
      change ("am" =? "am")%string with true;
      change ("pm" =? "am")%string with false;
      change ("am" =? "pm")%string with false; cbn [andb];
      destruct (Z.eqb_spec g 12) as [E|E]; cbn [negb andb]; lia. }
  split; [exact H3|]. split; [exact Hg|]. split; [exact Hmi|].
  split; [exact Hh|]. split.
  - intros G _. rewrite Hh.
    destruct (Z.eqb_spec g 12), (String.eqb meridiem "pm"); lia.
  - unfold foundTime. rewrite H. unfold hours, minutes.
    now destruct (time12_of m).
Qed.

(** X10. The returned instant is on the working date or on one of the four
    days after it, and on the working date itself when the time of day is a
    time of day. *)
Theorem date_moves_at_most_four_days (K : Clock) (text : string) :
  let workingDay := Day (LocalTime K (targetDate (stages K text))) in
  let returnedDay := Day (LocalTime K (resultTime K text)) in
  workingDay <= returnedDay <= workingDay + 4
  /\ (fst (timeOfDay text) < 24 -> snd (timeOfDay text) < 60 ->
      returnedDay = workingDay).
Proof.
  intros workingDay returnedDay. unfold workingDay, returnedDay.
  rewrite resultTime_day. pose proof (carry_bound text) as B.
  split; [lia|]. intros Hh Hm.
  unfold timeOfDay in Hh, Hm.
  destruct (foundTime text) as [[h mi]|] eqn:E; cbn [carry fst snd] in *; [|lia].
  apply foundTime_nonneg in E. rewrite Z.div_small by lia. lia.
Qed.

Lemma tomorrowDate_shift K : tomorrowDate K = now K + msPerDay.
Proof. unfold tomorrowDate. rewrite setDate_getDate. lia. Qed.

(** X11. With "tomorrow" as the only date cue (the word standing anywhere
    in the lower-cased text, inside another word too), the working date is
    on the local day after today's, whatever the month and the year, and
    the returned instant is on that day as well, moved by the days the time
    of day carries: none without a 12-hour time. *)
Theorem tomorrow_is_one_day_on (K : Clock) (text : string) :
  includes (toLowerCase text) "tomorrow" = true ->
  exec Patterns.weekday (toLowerCase text) = None ->
  exec Patterns.specific_date text = None ->
  let today := Day (LocalTime K (now K)) in
  Day (LocalTime K (targetDate (stages K text))) = today + 1
  /\ Day (LocalTime K (resultTime K text)) = today + 1 + carry (foundTime text)
  /\ (exec Patterns.time12 text = None ->
      Day (LocalTime K (resultTime K text)) = today + 1).
Proof.
  intros Ht Hw Hd today.
  assert (E : targetDate (stages K text) = now K + msPerDay).
  { rewrite stages_targetDate, Hd, Hw, Ht. apply tomorrowDate_shift. }
  assert (D : Day (LocalTime K (targetDate (stages K text))) = today + 1).
  { rewrite E. unfold LocalTime.
    replace (now K + msPerDay + LocalTZA K)
      with (now K + LocalTZA K + 1 * msPerDay) by lia.
    apply Day_shift. }
  split; [exact D|]. split.
  - rewrite resultTime_day, D. reflexivity.
  - intros H12. rewrite resultTime_day, D, (carry_without_time12 _ H12). lia.
Qed.

(** ** Numeric dates *)

Lemma lang_digits24 p :
  lang (RepRange 2 2 Patterns.digit) p ->
  (2 <= String.length p <= 4)%nat /\ forall_string is_digit p = true.
Proof.
  unfold RepRange, Patterns.digit. cbn [Rep UpTo]. unfold Opt.
  intros H. invert_lang; cbn;
    repeat match goal with H : is_digit _ = true |- _ => rewrite H; clear H end;
    split; (lia || reflexivity).
Qed.

(** The captures of a numeric date: one or two digits twice, and two to
    four digits for the year when it is written. *)
Lemma date_captures text m :
  exec Patterns.specific_date text = Some m ->
  (exists p1, group 1 m = Some p1 /\ (1 <= String.length p1 <= 2)%nat
              /\ forall_string is_digit p1 = true)
  /\ (exists p2, group 2 m = Some p2 /\ (1 <= String.length p2 <= 2)%nat
                 /\ forall_string is_digit p2 = true)
  /\ match group 3 m with
     | Some p3 => (2 <= String.length p3 <= 4)%nat
                  /\ forall_string is_digit p3 = true
     | None => True
     end.
Proof.
  intros H. apply exec_inv in H as (prev & s' & st' & l & H & _ & Hc).
  assert (Hin : In st' (matches Patterns.specific_date (MState prev s' [])))
    by (rewrite H; now left).
  unfold Patterns.specific_date in Hin.
  apply in_matches_Seq in Hin as (a & Ha & Hin).
  apply in_matches_WordB in Ha as ->.
  apply in_matches_Seq in Hin as (b & Hb & Hin).
  apply in_matches_Group in Hb as (xb & p1 & Hxb & L1 & _ & _ & Cb).
  apply matches_nocap in Hxb; [|reflexivity]. cbn [caps] in Hxb.
  rewrite Hxb in Cb. clear xb Hxb.
  apply in_matches_Seq in Hin as (c & Hcc & Hin).
  apply (matches_nocap (Lit "/") (nocap_Lit _)) in Hcc.
  apply in_matches_Seq in Hin as (d & Hd & Hin).
  apply in_matches_Group in Hd as (xd & p2 & Hxd & L2 & _ & _ & Cd).
  apply matches_nocap in Hxd; [|reflexivity].
  rewrite Hxd, Hcc, Cb in Cd. clear xd Hxd Hcc Cb.
  apply in_matches_Seq in Hin as (e & He & Hin).
  apply in_matches_WordB in Hin as ->.
  apply lang_digits12 in L1 as [Hl1 Hd1].
  apply lang_digits12 in L2 as [Hl2 Hd2].
  unfold group. rewrite Hc.
  unfold Opt in He. cbn [matches] in He.
  apply in_app_or in He as [He|[<-|[]]].
  - apply in_flat_map in He as (x & Hx & He).
    apply (matches_nocap (Lit "/") (nocap_Lit _)) in Hx.
    apply in_matches_Group in He as (y & p3 & Hy & L3 & _ & _ & Ce).
    apply matches_nocap in Hy; [|reflexivity].
    rewrite Hy, Hx, Cd in Ce. rewrite Ce. cbn [lookup Nat.eqb].
    apply lang_digits24 in L3. eauto 10.
  - rewrite Cd. cbn [lookup Nat.eqb]. eauto 10.
Qed.

(** X12. The working date of a numeric date M/D, M/D/YY or M/D/YYYY is
    on the local day that lies D - 1 days after the first of month M of the
    year written; when M is a month and D a day of it, that is the date
    itself. *)
Theorem numeric_date_fields (K : Clock) (text : string) (dm : rmatch) :
  exec Patterns.specific_date text = Some dm ->
  let month := parseInt (captured 1 dm) in
  let day := parseInt (captured 2 dm) in
  let year := writtenYear K dm in
  let d := targetDate (stages K text) in
  0 <= month <= 99 /\ 0 <= day <= 99
  /\ Day (LocalTime K d) = month_start (12 * year + (month - 1)) + day - 1
  /\ (1 <= month <= 12 -> 1 <= day <= days_in_month year month ->
      getFullYear K d = year /\ getMonth K d = month - 1 /\ getDate K d = day).
Proof.
  intros H month day year d.
  destruct (date_captures _ _ H) as ((p1 & G1 & L1 & D1) & (p2 & G2 & L2 & D2) & G3).
  assert (Hm : 0 <= month <= 99).
  { unfold month, captured. rewrite G1. apply parseInt_two_digits; [lia|exact D1]. }
  assert (Hd : 0 <= day <= 99).
  { unfold day, captured. rewrite G2. apply parseInt_two_digits; [lia|exact D2]. }
  assert (E : d = newDate K (match group 3 dm with
                             | Some y => if Nat.eqb (String.length y) 2
                                         then 2000 + parseInt y else parseInt y
                             | None => getFullYear K (now K)
                             end) (month - 1) day).
  { unfold d. rewrite stages_targetDate, H. unfold specificDate.
    destruct (group 3 dm) as [y|]; [|reflexivity].
    destruct G3 as [G3 _]. destruct y; [cbn in G3; lia | reflexivity]. }
  assert (Y : century (match group 3 dm with
                       | Some y => if Nat.eqb (String.length y) 2
                                   then 2000 + parseInt y else parseInt y
                       | None => getFullYear K (now K)
                       end) = year).
  { unfold year, writtenYear. destruct (group 3 dm) as [y|]; [|reflexivity].
    destruct (Nat.eqb (String.length y) 2); [|reflexivity].
    pose proof (parseInt_nonneg y). unfold century.
    destruct (Z.leb_spec (2000 + parseInt y) 99); [lia|].
    now rewrite andb_false_r. }
  split; [exact Hm|]. split; [exact Hd|].
  pose proof (Day_newDate K (match group 3 dm with
                             | Some y => if Nat.eqb (String.length y) 2
                                         then 2000 + parseInt y else parseInt y
                             | None => getFullYear K (now K)
                             end) (month - 1) day) as [HD _].
  rewrite Y, <- E in HD.
  split; [exact HD|].
  intros Rm Rd.
  pose proof (newDate_fields K (match group 3 dm with
                             | Some y => if Nat.eqb (String.length y) 2
                                         then 2000 + parseInt y else parseInt y
                             | None => getFullYear K (now K)
                             end) (month - 1) day ltac:(lia)) as F.
  rewrite Y, <- E in F. replace (month - 1 + 1) with month in F by lia.
  destruct (F Rd) as (F1 & F2 & F3 & _). auto.
Qed.

(** ** What the record is made of *)

Local Open Scope nat_scope.

Lemma subseq_refl s : subseq s s.
Proof. induction s; constructor; assumption. Qed.

Lemma subseq_empty s : subseq "" s.
Proof. induction s; constructor; assumption. Qed.

Lemma subseq_trans s t u : subseq s t -> subseq t u -> subseq s u.
Proof.
  intros H1 H2. revert s H1.
  induction H2 as [|c t u H2 IH|c t u H2 IH]; intros s H1.
  - exact H1.
  - apply subseq_skip, IH, H1.
  - inversion H1; subst.
    + apply subseq_skip, IH. assumption.
    + apply subseq_keep, IH. assumption.
Qed.

Lemma subseq_drop n : forall s, subseq (drop n s) s.
Proof.
  induction n as [|n IH]; intros [|c s]; cbn; try apply subseq_refl.
  apply subseq_skip, IH.
Qed.

Lemma subseq_trimStart s : subseq (trimStart s) s.
Proof.
  induction s as [|c s IH]; cbn; [constructor|].
  destruct (is_space c); [now apply subseq_skip | apply subseq_refl].
Qed.

Lemma subseq_trimEnd s : subseq (trimEnd s) s.
Proof.
  induction s as [|c s IH]; cbn; [constructor|].
  destruct (trimEnd s) as [|d t].
  - destruct (is_space c); [apply subseq_empty|].
    apply subseq_keep, subseq_empty.
  - now apply subseq_keep.
Qed.

Lemma subseq_trim s : subseq (trim s) s.
Proof.
  unfold trim. eapply subseq_trans; [apply subseq_trimEnd | apply subseq_trimStart].
Qed.

Lemma subseq_replace pat : forall s, subseq (replace s pat "") s.
Proof.
  induction s as [|c s IH]; cbn [replace].
  - destruct (prefix pat ""); cbn; [apply subseq_drop | constructor].
  - destruct (prefix pat (String c s)); [apply subseq_drop|].
    now apply subseq_keep.
Qed.

Lemma subseq_append_r a s t : subseq s t -> subseq s (a ++ t)%string.
Proof. intros H. induction a; cbn; [exact H | now apply subseq_skip]. Qed.

Lemma subseq_append a b s t :
  subseq a s -> subseq b t -> subseq (a ++ b)%string (s ++ t)%string.
Proof.
  intros H1 H2. induction H1; cbn; [exact H2 | |];
    [now apply subseq_skip | now apply subseq_keep].
Qed.

Lemma subseq_filter p s : subseq (filter_string p s) s.
Proof.
  induction s as [|c s IH]; cbn; [constructor|].
  destruct (p c); [now apply subseq_keep | now apply subseq_skip].
Qed.

(** ** [trim] *)

Lemma trimEnd_idem s : trimEnd (trimEnd s) = trimEnd s.
Proof.
  induction s as [|c s IH]; cbn [trimEnd]; [reflexivity|].
  destruct (trimEnd s) as [|d t] eqn:E.
  - destruct (is_space c) eqn:Ec; cbn [trimEnd]; [reflexivity|].
    now rewrite Ec.
  - cbn [trimEnd]. cbn [trimEnd] in IH. now rewrite IH.
Qed.

Lemma trimEnd_head c s :
  is_space c = false -> exists t, trimEnd (String c s) = String c t.
Proof.
  intros H. cbn [trimEnd]. destruct (trimEnd s); [rewrite H|]; eauto.
Qed.

Lemma trimStart_head s :
  trimStart s = "" \/ exists c t, trimStart s = String c t /\ is_space c = false.
Proof.
  induction s as [|c s IH]; cbn; [now left|].
  destruct (is_space c) eqn:E; [exact IH|]. right. eauto.
Qed.

Lemma trim_idem s : trim (trim s) = trim s.
Proof.
  unfold trim. destruct (trimStart_head s) as [->|(c & t & -> & Hc)];
    [reflexivity|].
  destruct (trimEnd_head c t Hc) as [u E]. rewrite E.
  cbn [trimStart]. rewrite Hc, <- E. apply trimEnd_idem.
Qed.

Lemma trimEnd_last x d :
  is_space d = false ->
  trimEnd (x ++ String d "")%string = (x ++ String d "")%string.
Proof.
  intros H. induction x as [|c x IH]; cbn [String.append trimEnd].
  - now rewrite H.
  - rewrite IH. destruct x; reflexivity.
Qed.

(** A text that neither starts nor ends with white space is its own
    [trim]. *)
Lemma trim_fixed c x d :
  is_space c = false -> is_space d = false ->
  trim (String c x ++ String d "")%string = (String c x ++ String d "")%string.
Proof.
  intros Hc Hd. unfold trim. cbn [String.append trimStart]. rewrite Hc.
  apply (trimEnd_last (String c x) d Hd).
Qed.

Lemma trim_fixed1 c : is_space c = false -> trim (String c "") = String c "".
Proof. intros H. unfold trim. cbn. rewrite H. cbn. now rewrite H. Qed.


Lemma subseq_middle a m b : subseq m (a ++ m ++ b)%string.
Proof.
  apply subseq_append_r. induction m as [|c m IH]; cbn.
  - apply subseq_empty.
  - now apply subseq_keep.
Qed.

Lemma subseq_afterName text : subseq (afterName text) text.
Proof.
  unfold afterName. destruct (extractName (trim text)) as [n|].
  - destruct (truthy n); [|apply subseq_trim].
    eapply subseq_trans; [apply subseq_trim|].
    eapply subseq_trans; [apply subseq_replace | apply subseq_trim].
  - apply subseq_trim.
Qed.

Lemma subseq_afterPhone text : subseq (afterPhone text) text.
Proof.
  unfold afterPhone. destruct (extractPhone (afterName text)) as [p|].
  - eapply subseq_trans; [apply subseq_trim|].
    eapply subseq_trans; [apply subseq_replace | apply subseq_afterName].
  - apply subseq_afterName.
Qed.

Lemma subseq_afterDateTime K text : subseq (afterDateTime K text) text.
Proof.
  unfold afterDateTime. destruct (extractDateTime K (afterPhone text)) as [p|].
  - eapply subseq_trans; [apply subseq_trim|].
    eapply subseq_trans; [apply subseq_replace | apply subseq_afterPhone].
  - apply subseq_afterPhone.
Qed.

Lemma exec_substring r s m :
  exec r s = Some m -> exists a b, s = (a ++ m_text m ++ b)%string.
Proof.
  intros H. apply exec_from_substring in H as (a & b & E & _). eauto.
Qed.

Lemma extractPhoneWith_substring patterns : forall text p,
  extractPhoneWith patterns text = Some p ->
  exists a b, text = (a ++ phone_raw p ++ b)%string.
Proof.
  induction patterns as [|pattern others IH]; intros text p H;
    cbn [extractPhoneWith] in H; [discriminate|].
  destruct (exec pattern text) as [m|] eqn:E; [|now apply IH in H].
  destruct (Nat.eqb _ 10); [|now apply IH in H].
  injection H as <-. cbn [phone_raw]. eapply exec_substring, E.
Qed.

Lemma parseAppointment_details K text r :
  parseAppointment K text = Some r ->
  details r = or_else (trim (afterDateTime K text)) "No details provided".
Proof.
  intros E. pose proof (f_equal (option_map details) E) as Ed.
  rewrite parseAppointment_steps in Ed.
  destruct (truthy (trim text)); cbn [negb option_map details] in Ed;
    [|discriminate Ed].
  now injection Ed as <-.
Qed.

(** X13. Nothing in the record is made up: the name is the sentinel or a
    prefix of the trimmed text, the phone number is the sentinel or ten
    digits of the text in their order, written DDD-DDD-DDDD, and the
    details are the sentinel or a text that is not empty, has no white
    space at its ends and is the input with characters left out. *)
Theorem fields_come_from_text (K : Clock) (text : string) (r : ParsedAppointment) :
  parseAppointment K text = Some r ->
  (name r = "Unknown" \/ (name r <> "" /\ prefix (name r) (trim text) = true))
  /\ (phone r = "No phone" \/
      exists digits,
        phone r = ddd_ddd_dddd digits /\ String.length digits = 10%nat
        /\ forall_string is_digit digits = true /\ subseq digits text)
  /\ (details r = "No details provided" \/
      (details r <> "" /\ trim (details r) = details r
       /\ subseq (details r) text)).
Proof.
  intros H. pose proof (parseAppointment_name_phone _ _ _ H) as [Hn Hp].
  pose proof (parseAppointment_details _ _ _ H) as Hd.
  split; [|split].
  - rewrite Hn. destruct (extractName (trim text)) as [n|] eqn:E; [|now left].
    unfold or_else. destruct (truthy n) eqn:T; [|now left]. right.
    split; [now destruct n|].
    rewrite extractName_scan in E.
    destruct (Nat.eqb (name_len (trim text)) 0); [discriminate|].
    injection E as <-. apply prefix_take.
  - rewrite Hp. destruct (extractPhone (afterName text)) as [p|] eqn:E;
      [|now left]. right.
    pose proof (extractPhoneWith_formatted _ _ _ E) as [L F].
    apply extractPhoneWith_substring in E as (a & b & E).
    exists (filter_string is_digit (phone_raw p)).
    split; [now rewrite F, (formatDigits_ten _ L)|]. split; [exact L|]. split.
    + clear. induction (phone_raw p) as [|c s IH]; cbn; [reflexivity|].
      destruct (is_digit c) eqn:D; cbn; [now rewrite D|exact IH].
    + eapply subseq_trans; [apply subseq_filter|].
      eapply subseq_trans; [|apply subseq_afterName].
      rewrite E. apply subseq_middle.
  - rewrite Hd. unfold or_else.
    destruct (truthy (trim (afterDateTime K text))) eqn:T; [|now left]. right.
    split; [now destruct (trim (afterDateTime K text))|].
    split; [apply trim_idem|].
    eapply subseq_trans; [apply subseq_trim | apply subseq_afterDateTime].
Qed.

(** ** What the date step removes *)





Lemma keeps_end_last d : is_space d = false -> keeps_end (String d "").
Proof. intros H. split; [discriminate|]. cbn. now rewrite H. Qed.

Lemma keeps_end_cons c t : keeps_end t -> keeps_end (String c t).
Proof.
  intros [N H]. split; [discriminate|]. cbn [trimEnd]. rewrite H.
  destruct t; [contradiction | reflexivity].
Qed.

Lemma keeps_end_app x t : keeps_end t -> keeps_end (x ++ t)%string.
Proof.
  intros H. induction x as [|c x IH]; cbn [String.append]; [exact H|].
  now apply keeps_end_cons.
Qed.

Lemma trim_ends s : trimStart s = s -> keeps_end s -> trim s = s.
Proof. intros H1 [_ H2]. unfold trim. now rewrite H1. Qed.
















(** ** Phone numbers anywhere *)

Lemma lang_ten_digits p :
  lang Patterns.phone_bare p ->
  exists d1 d2 d3 d4 d5 d6 d7 d8 d9 d10,
    p = string_of_list_ascii [d1; d2; d3; d4; d5; d6; d7; d8; d9; d10]
    /\ forallb is_digit [d1; d2; d3; d4; d5; d6; d7; d8; d9; d10] = true.
Proof.
  unfold Patterns.phone_bare, Patterns.digit. cbn [Rep].
  intros H. invert_lang. do 10 eexists. cbn [String.append string_of_list_ascii forallb].
  split; [reflexivity|].
  repeat match goal with H : is_digit _ = true |- _ => rewrite H; clear H end.
  reflexivity.
Qed.

(** Where ten digits stand, the first phone pattern matches. *)
Lemma grouped_where_bare prev s :
  matches Patterns.phone_bare (MState prev s []) <> [] ->
  matches Patterns.phone_grouped (MState prev s []) <> [].
Proof.
  intros H.
  destruct (matches Patterns.phone_bare (MState prev s [])) as [|st' l] eqn:E;
    [contradiction|]. clear H.
  assert (Hin : In st' (matches Patterns.phone_bare (MState prev s [])))
    by (rewrite E; now left).
  apply matches_sound in Hin as (p & Hp & L). cbn [rest] in Hp.
  apply lang_ten_digits in L
    as (d1 & d2 & d3 & d4 & d5 & d6 & d7 & d8 & d9 & d10 & -> & Hd).
  cbn [forallb] in Hd.
  repeat (apply andb_true_iff in Hd as [? Hd]). clear Hd.
  repeat match goal with
         | H : is_digit ?c = true |- _ =>
             let H1 := fresh in let H2 := fresh in let H3 := fresh in
             destruct (digit_not_other c H) as (H1 & H2 & H3);
             revert H
         end.
  intros. subst s. clear E.
  unfold Patterns.phone_grouped, Patterns.digit, Opt.
  cbn [string_of_list_ascii String.append Rep Lit].
  repeat (cbn -[is_digit is_sep Ascii.eqb];
          repeat match goal with
                 | H : _ = _ |- _ => rewrite H
                 end).
  discriminate.
Qed.

Lemma exec_from_some r (P : regex) :
  (forall prev s, matches r (MState prev s []) <> [] ->
                  matches P (MState prev s []) <> []) ->
  forall s prev i, exec_from r prev s i <> None -> exec_from P prev s i <> None.
Proof.
  intros H. induction s as [|c s IH]; intros prev i; cbn [exec_from];
    specialize (H prev).
  - specialize (H ""). destruct (matches r (MState prev "" [])); [congruence|].
    destruct (matches P (MState prev "" [])); [|discriminate].
    intros _. exfalso. now apply H.
  - specialize (H (String c s)).
    destruct (matches P (MState prev (String c s) [])); [|discriminate].
    destruct (matches r (MState prev (String c s) [])); [apply IH|].
    intros _. exfalso. now apply H.
Qed.

(** X15. The second phone pattern never decides: where ten digits stand
    the first pattern matches too, so [extractPhone] is the first pattern's
    match or [null]. *)
Theorem bare_pattern_never_decides (text : string) :
  (exec Patterns.phone_grouped text = None -> exec Patterns.phone_bare text = None)
  /\ extractPhone text
     = match exec Patterns.phone_grouped text with
       | Some m =>
           Some {| phone_raw := m_text m;
                   phone_formatted :=
                     formatDigits (filter_string is_digit (m_text m)) |}
       | None => None
       end.
Proof.
  assert (H : exec Patterns.phone_grouped text = None ->
              exec Patterns.phone_bare text = None).
  { intros E. destruct (exec Patterns.phone_bare text) eqn:B; [|reflexivity].
    exfalso. revert E. unfold exec in *.
    apply (exec_from_some Patterns.phone_bare Patterns.phone_grouped
             grouped_where_bare). congruence. }
  split; [exact H|].
  unfold extractPhone, phonePatterns. cbn [extractPhoneWith].
  destruct (exec Patterns.phone_grouped text) as [m|] eqn:E1.
  - apply exec_lang, phone_grouped_digits in E1. unfold ndigits in E1.
    now rewrite E1.
  - now rewrite (H eq_refl).
Qed.

Lemma matches_at_ten_digits prev ds r :
  String.length ds = 10%nat -> forall_string is_digit ds = true ->
  matches Patterns.phone_grouped (MState prev (ds ++ r) []) <> [].
Proof.
  intros Hlen Hdig.
  destruct (string_length_10 ds Hlen)
    as (d1 & d2 & d3 & d4 & d5 & d6 & d7 & d8 & d9 & d10 & ->).
  clear Hlen. cbn [forall_string string_of_list_ascii] in Hdig.
  repeat (apply andb_true_iff in Hdig as [? Hdig]). clear Hdig.
  repeat match goal with
         | H : is_digit ?c = true |- _ =>
             let H1 := fresh in let H2 := fresh in let H3 := fresh in
             destruct (digit_not_other c H) as (H1 & H2 & H3);
             revert H
         end.
  intros.
  unfold Patterns.phone_grouped, Patterns.digit, Opt.
  cbn [string_of_list_ascii String.append Rep Lit].
  repeat (cbn -[is_digit is_sep Ascii.eqb];
          repeat match goal with
                 | H : _ = _ |- _ => rewrite H
                 end).
  discriminate.
Qed.

Lemma exec_from_at r a : forall s prev i,
  (forall prev', matches r (MState prev' s []) <> []) ->
  exec_from r prev (a ++ s) i <> None.
Proof.
  induction a as [|c a IH]; intros s prev i H; cbn [String.append].
  - specialize (H prev). destruct s; cbn [exec_from];
      destruct (matches r _); congruence.
  - cbn [exec_from]. destruct (matches r _); [|discriminate]. now apply IH.
Qed.

(** X16. Ten digits in a row are found wherever they stand, inside a
    longer run of digits or of letters too: the patterns ask for no word
    boundary. *)
Theorem ten_digits_are_found (a ds b : string) :
  String.length ds = 10%nat -> forall_string is_digit ds = true ->
  exists p, extractPhone (a ++ ds ++ b) = Some p
            /\ String.length (phone_formatted p) = 12%nat.
Proof.
  intros Hl Hd.
  assert (E : exec Patterns.phone_grouped (a ++ ds ++ b) <> None).
  { apply exec_from_at. intros prev'. now apply matches_at_ten_digits. }
  unfold extractPhone, phonePatterns. cbn [extractPhoneWith].
  destruct (exec Patterns.phone_grouped (a ++ ds ++ b)) as [m|] eqn:Em;
    [|contradiction].
  apply exec_lang, phone_grouped_digits in Em. unfold ndigits in Em.
  rewrite Em. cbn [Nat.eqb]. eexists. split; [reflexivity|].
  cbn [phone_formatted]. revert Em.
  generalize (filter_string is_digit (m_text m)). intros s Hs.
  do 10 (destruct s as [|? s]; [discriminate|]).
  destruct s; [reflexivity | discriminate].
Qed.

(** ** Letter case *)

Lemma length_toLowerCase s : String.length (toLowerCase s) = String.length s.
Proof. induction s as [|c s IH]; cbn; [|rewrite IH]; reflexivity. Qed.

Lemma take_toLowerCase n : forall s,
  take n (toLowerCase s) = toLowerCase (take n s).
Proof.
  induction n as [|n IH]; intros [|c s]; cbn; try reflexivity.
  now rewrite IH.
Qed.

Lemma is_word_toLowerChar c : is_word (toLowerChar c) = is_word c.
Proof. destruct c as [[] [] [] [] [] [] [] []]; reflexivity. Qed.

Lemma word_at_lower o : word_at (option_map toLowerChar o) = word_at o.
Proof. destruct o; cbn; [apply is_word_toLowerChar | reflexivity]. Qed.

Lemma next_char_lower s :
  next_char (toLowerCase s) = option_map toLowerChar (next_char s).
Proof. destruct s; reflexivity. Qed.

Lemma star_lower step :
  (forall st, step (lower_state st) = map lower_state (step st)) ->
  forall fuel st,
    star step fuel (lower_state st) = map lower_state (star step fuel st).
Proof.
  intros Hstep. induction fuel as [|fuel IH]; intros st; [reflexivity|].
  cbn [star]. rewrite map_app. cbn [map]. f_equal.
  rewrite Hstep, flat_map_concat_map, map_map, flat_map_concat_map,
    concat_map, map_map.
  f_equal. apply map_ext. intros a. cbn [lower_state rest].
  rewrite !length_toLowerCase.
  destruct (Nat.ltb _ _); [apply IH | reflexivity].
Qed.

(** Such a pattern matches the lower-cased input the way it matches the
    input. *)
Lemma matches_lower r : caseless r ->
  forall st, matches r (lower_state st) = map lower_state (matches r st).
Proof.
  induction r as [|p|r1 IH1 r2 IH2|r1 IH1 r2 IH2|r1 IH1|n r1 IH1| |];
    cbn [caseless]; intros C st; cbn [matches].
  - reflexivity.
  - cbn [lower_state rest]. destruct (rest st) as [|c s]; [reflexivity|].
    cbn [toLowerCase]. rewrite C. destruct (p c); reflexivity.
  - destruct C as [C1 C2]. rewrite (IH1 C1).
    rewrite flat_map_concat_map, map_map, flat_map_concat_map, concat_map,
      map_map.
    f_equal. apply map_ext. intros a. now apply IH2.
  - destruct C as [C1 C2]. now rewrite map_app, (IH1 C1), (IH2 C2).
  - cbn [lower_state rest]. rewrite length_toLowerCase.
    apply star_lower. now apply IH1.
  - rewrite (IH1 C), !map_map. apply map_ext. intros a.
    unfold lower_state. cbn [before rest caps lower_caps map fst snd].
    rewrite !length_toLowerCase, take_toLowerCase. reflexivity.
  - cbn [lower_state before]. destruct (before st); reflexivity.
  - cbn [lower_state before rest]. rewrite word_at_lower, next_char_lower,
      word_at_lower.
    destruct (xorb _ _); reflexivity.
Qed.

Lemma exec_from_lower r : caseless r ->
  forall s prev i,
    exec_from r (option_map toLowerChar prev) (toLowerCase s) i
    = option_map lower_match (exec_from r prev s i).
Proof.
  intros C. induction s as [|c s IH]; intros prev i; cbn [exec_from toLowerCase].
  - pose proof (matches_lower r C (MState prev "" [])) as M.
    unfold lower_state at 1 in M.
    cbn [before rest caps lower_caps map toLowerCase] in M.
    rewrite M. destruct (matches r (MState prev "" [])) as [|st' l];
      [reflexivity|].
    cbn [map option_map lower_match m_index m_text m_caps lower_state rest caps].
    rewrite length_toLowerCase. reflexivity.
  - pose proof (matches_lower r C (MState prev (String c s) [])) as M.
    unfold lower_state at 1 in M.
    cbn [before rest caps lower_caps map toLowerCase] in M.
    rewrite M. destruct (matches r (MState prev (String c s) [])) as [|st' l].
    + cbn [map]. apply (IH (Some c)).
    + cbn [map option_map lower_match m_index m_text m_caps lower_state rest
           caps String.length].
      rewrite !length_toLowerCase.
      change (String (toLowerChar c) (toLowerCase s))
        with (toLowerCase (String c s)).
      rewrite take_toLowerCase. reflexivity.
Qed.

Lemma exec_lower r s :
  caseless r -> exec r (toLowerCase s) = option_map lower_match (exec r s).
Proof. intros C. apply (exec_from_lower r C s None 0). Qed.

Lemma toLowerChar_idem c : toLowerChar (toLowerChar c) = toLowerChar c.
Proof. destruct c as [[] [] [] [] [] [] [] []]; reflexivity. Qed.

Lemma toLowerCase_idem s : toLowerCase (toLowerCase s) = toLowerCase s.
Proof.
  induction s as [|c s IH]; cbn; [reflexivity|].
  now rewrite toLowerChar_idem, IH.
Qed.

Lemma is_digit_toLowerChar c :
  is_digit (toLowerChar c) = is_digit c
  /\ (is_digit c = true -> toLowerChar c = c).
Proof. destruct c as [[] [] [] [] [] [] [] []]; split; (reflexivity || discriminate). Qed.

Lemma is_space_toLowerChar c : is_space (toLowerChar c) = is_space c.
Proof. destruct c as [[] [] [] [] [] [] [] []]; reflexivity. Qed.

Lemma punctuation_toLowerChar x c :
  In x ["/"; ":"]%char -> Ascii.eqb x (toLowerChar c) = Ascii.eqb x c.
Proof.
  intros [<-|[<-|[]]]; destruct c as [[] [] [] [] [] [] [] []]; reflexivity.
Qed.

Lemma canonicalize_toLowerChar c : canonicalize (toLowerChar c) = canonicalize c.
Proof. destruct c as [[] [] [] [] [] [] [] []]; reflexivity. Qed.

Lemma caseless_digit : caseless Patterns.digit.
Proof. intros c. apply is_digit_toLowerChar. Qed.

Lemma caseless_specific_date : caseless Patterns.specific_date.
Proof.
  pose proof caseless_digit as D.
  assert (S : caseless (Lit "/")).
  { cbn [Lit caseless]. split; [|exact I]. intros c.
    apply punctuation_toLowerChar. cbn [In]; tauto. }
  unfold Patterns.specific_date, RepRange, Opt. cbn [Rep UpTo]. unfold Opt.
  cbn [caseless]. tauto.
Qed.

Lemma caseless_time24 : caseless Patterns.time24.
Proof.
  pose proof caseless_digit as D.
  assert (S : caseless (Lit ":")).
  { cbn [Lit caseless]. split; [|exact I]. intros c.
    apply punctuation_toLowerChar. cbn [In]; tauto. }
  unfold Patterns.time24, RepRange, Opt. cbn [Rep UpTo]. unfold Opt.
  cbn [caseless]. tauto.
Qed.

Lemma caseless_LitI s : caseless (LitI s).
Proof.
  induction s as [|x s IH]; cbn [LitI caseless]; [exact I|].
  split; [|exact IH]. intros c. now rewrite canonicalize_toLowerChar.
Qed.

Lemma caseless_time12 : caseless Patterns.time12.
Proof.
  pose proof caseless_digit as D.
  pose proof (caseless_LitI "am") as A. pose proof (caseless_LitI "pm") as P.
  assert (S : caseless (Lit ":")).
  { cbn [Lit caseless]. split; [|exact I]. intros c.
    apply punctuation_toLowerChar. cbn [In]; tauto. }
  assert (W : caseless (Chr is_space)) by (intros c; apply is_space_toLowerChar).
  unfold Patterns.time12, RepRange, Opt. cbn [Rep UpTo]. unfold Opt.
  cbn [caseless]. tauto.
Qed.

Lemma lookup_lower n l :
  lookup n (lower_caps l) = option_map toLowerCase (lookup n l).
Proof.
  induction l as [|[k v] l IH]; cbn [lower_caps map lookup fst snd];
    [reflexivity|].
  destruct (Nat.eqb k n); [reflexivity | exact IH].
Qed.

Lemma group_lower n m :
  group n (lower_match m) = option_map toLowerCase (group n m).
Proof. apply lookup_lower. Qed.

Lemma captured_lower n m :
  captured n (lower_match m) = toLowerCase (captured n m).
Proof. unfold captured. rewrite group_lower. now destruct (group n m). Qed.

Lemma parseInt_acc_lower s : forall acc,
  parseInt_acc acc (toLowerCase s) = parseInt_acc acc s.
Proof.
  induction s as [|c s IH]; intros acc; cbn [toLowerCase parseInt_acc];
    [reflexivity|].
  destruct (is_digit_toLowerChar c) as [E F]. rewrite E.
  destruct (is_digit c); [|reflexivity]. rewrite (F eq_refl). apply IH.
Qed.

Lemma parseInt_lower s : parseInt (toLowerCase s) = parseInt s.
Proof. apply parseInt_acc_lower. Qed.

Lemma truthy_lower s : truthy (toLowerCase s) = truthy s.
Proof. now destruct s. Qed.

Lemma specificDate_lower K m : specificDate K (lower_match m) = specificDate K m.
Proof.
  unfold specificDate. rewrite !captured_lower, !parseInt_lower, group_lower.
  destruct (group 3 m) as [y|]; cbn [option_map]; [|reflexivity].
  now rewrite truthy_lower, length_toLowerCase, parseInt_lower.
Qed.

Lemma time12_of_lower m : time12_of (lower_match m) = time12_of m.
Proof.
  unfold time12_of. rewrite !captured_lower, parseInt_lower, group_lower,
    toLowerCase_idem.
  destruct (group 2 m) as [mm|]; cbn [option_map]; [|reflexivity].
  now rewrite truthy_lower, parseInt_lower.
Qed.

Lemma time24_of_lower m : time24_of (lower_match m) = time24_of m.
Proof. unfold time24_of. now rewrite !captured_lower, !parseInt_lower. Qed.

Lemma foundTime_lower text : foundTime (toLowerCase text) = foundTime text.
Proof.
  unfold foundTime.
  rewrite (exec_lower _ _ caseless_time12), (exec_lower _ _ caseless_time24).
  destruct (exec Patterns.time12 text) as [m|]; cbn [option_map].
  - now rewrite time12_of_lower.
  - destruct (exec Patterns.time24 text) as [m|]; cbn [option_map];
      [apply time24_of_lower | reflexivity].
Qed.

(** X17. On a text of code units below 256, which is what a [string]
    holds, the date and the time found do not depend on the case of the
    letters: the text in lower case gives the same working date, the same
    time of day and the same [datetime].  (Beyond that range lower-casing
    can turn a character that is no word character into a letter, U+212A
    into "k", and so remove a word boundary.) *)
Theorem date_and_time_ignore_case (K : Clock) (text : string) :
  targetDate (stages K (toLowerCase text)) = targetDate (stages K text)
  /\ targetTime (stages K (toLowerCase text)) = targetTime (stages K text)
  /\ resultTime K (toLowerCase text) = resultTime K text
  /\ option_map dt_datetime (extractDateTime K (toLowerCase text))
     = option_map dt_datetime (extractDateTime K text).
Proof.
  assert (D : targetDate (stages K (toLowerCase text))
              = targetDate (stages K text)).
  { rewrite !stages_targetDate, toLowerCase_idem.
    rewrite (exec_lower _ _ caseless_specific_date).
    destruct (exec Patterns.specific_date text) as [m|]; cbn [option_map];
      [apply specificDate_lower | reflexivity]. }
  assert (T : targetTime (stages K (toLowerCase text))
              = targetTime (stages K text)).
  { rewrite !stages_targetTime. apply foundTime_lower. }
  assert (R : resultTime K (toLowerCase text) = resultTime K text).
  { unfold resultTime, applyTime. now rewrite D, T. }
  repeat split; try assumption.
  unfold extractDateTime. cbn [option_map dt_datetime]. now rewrite R.
Qed.

(** ** The companion, whatever the answer *)

(** ** The companion: what it resolves to *)

Lemma fallback_blank K text :
  truthy (trim text) = false -> Companion.fallback K text = None.
Proof.
  intros H. unfold Companion.fallback, Companion.fallbackParser.
  rewrite parseAppointment_steps, H. reflexivity.
Qed.

(** The record of the rule-based parser has four non-empty strings. *)
Lemma fallback_fields K text :
  truthy (trim text) = true ->
  exists a, Companion.fallback K text = Some a
    /\ Companion.js_truthy (Some (Companion.name a)) = true
    /\ Companion.js_truthy (Some (Companion.phone a)) = true
    /\ Companion.js_truthy (Some (Companion.details a)) = true
    /\ Companion.js_truthy (Some (Companion.datetime a)) = true.
Proof.
  intros H. unfold Companion.fallback, Companion.fallbackParser.
  rewrite parseAppointment_steps, H. cbn [negb option_map].
  eexists. split; [reflexivity|].
  unfold Companion.of_parsed, fields.
  cbn [Companion.name Companion.phone Companion.details Companion.datetime
       name phone details datetime Companion.js_truthy].
  assert (T : forall s, s <> "" -> truthy s = true) by (intros [|]; easy).
  repeat split; apply T.
  - destruct (extractName _); [apply or_else_nonempty|]; discriminate.
  - destruct (extractPhone _) as [p|] eqn:Ep; [|discriminate].
    apply extractPhoneWith_formatted in Ep as [_ ->].
    apply formatDigits_nonempty.
  - apply or_else_nonempty. discriminate.
  - cbn. apply toISOString_nonempty.
Qed.

Lemma js_or_truthy x d :
  Companion.js_truthy (Some d) = true ->
  Companion.js_truthy (Some (Companion.js_or x d)) = true.
Proof.
  intros H. unfold Companion.js_or. destruct x as [v|]; [|exact H].
  destruct (Companion.js_truthy (Some v)) eqn:E; [exact E | exact H].
Qed.

Lemma formatPhone_truthy p v :
  Companion.formatPhone p = Companion.Ok v ->
  Companion.js_truthy (Some v) = true.
Proof.
  unfold Companion.formatPhone.
  pose proof (js_or_truthy p (Companion.JString "No phone") eq_refl) as T.
  destruct (Companion.js_or p (Companion.JString "No phone")) as [| | |s| |];
    try discriminate.
  destruct (String.eqb s "No phone"); [now intros [= <-]|].
  destruct (Nat.eqb _ 10); intros [= <-]; [|exact T].
  cbn [Companion.js_truthy].
  pose proof (formatDigits_nonempty (filter_string is_digit s)).
  now destruct (formatDigits (filter_string is_digit s)).
Qed.

(** An answer that is adopted gives a record, with four truthy fields. *)
Lemma adopt_fields K parsed r :
  Companion.adopt K parsed = Companion.Ok r ->
  exists a, r = Some a
    /\ Companion.js_truthy (Some (Companion.name a)) = true
    /\ Companion.js_truthy (Some (Companion.phone a)) = true
    /\ Companion.js_truthy (Some (Companion.details a)) = true
    /\ Companion.js_truthy (Some (Companion.datetime a)) = true.
Proof.
  unfold Companion.adopt.
  destruct (Companion.member "phone" parsed) as [p|]; cbn [Companion.bind];
    [|discriminate].
  destruct (Companion.formatPhone p) as [fp|] eqn:Ef; cbn [Companion.bind];
    [|discriminate].
  destruct (Companion.member "name" parsed) as [n|]; cbn [Companion.bind];
    [|discriminate].
  destruct (Companion.member "details" parsed) as [d|]; cbn [Companion.bind];
    [|discriminate].
  destruct (Companion.member "datetime" parsed) as [t|]; cbn [Companion.bind];
    [|discriminate].
  intros [= <-]. eexists. split; [reflexivity|].
  cbn [Companion.name Companion.phone Companion.details Companion.datetime].
  repeat split.
  - now apply js_or_truthy.
  - eapply formatPhone_truthy, Ef.
  - now apply js_or_truthy.
  - apply js_or_truthy. cbn [Companion.js_truthy].
    pose proof (toISOString_nonempty (now K)).
    now destruct (toISOString (now K)).
Qed.

(** What the attempt resolves to is the fallback's result or an adopted
    answer. *)
Lemma attempt_cases R K text r :
  Companion.attempt R K text = Companion.Ok r ->
  r = Companion.fallback K text
  \/ exists parsed, Companion.adopt K parsed = Companion.Ok r.
Proof.
  unfold Companion.attempt.
  destruct (Companion.fetch R) as [response|]; [|discriminate].
  destruct (Companion.ok response); cbn [negb].
  2: { destruct (Companion.body_text response); [|discriminate].
       intros [= <-]. now left. }
  destruct (Companion.body_json response) as [data|]; [|discriminate].
  destruct (Companion.content_of data) as [content|]; [|discriminate].
  cbn [Companion.bind].
  destruct (Companion.js_truthy content); cbn [negb];
    [|intros [= <-]; now left].
  destruct content as [[| | |c| |]|]; try discriminate.
  destruct (Companion.JSON_parse R (Companion.clean c)) as [parsed|];
    [|discriminate].
  intros H. right. now exists parsed.
Qed.

(** X18. The asynchronous [parseAppointment] resolves to [null] exactly
    when the trimmed text is empty, and otherwise to a record whose four
    fields are truthy, whichever path produced it. *)
Theorem companion_total (R : Companion.Remote) (K : Clock) (text : string) :
  (trim text = "" -> Companion.parseAppointment R K text = None)
  /\ (trim text <> "" ->
      exists a, Companion.parseAppointment R K text = Some a
        /\ Companion.js_truthy (Some (Companion.name a)) = true
        /\ Companion.js_truthy (Some (Companion.phone a)) = true
        /\ Companion.js_truthy (Some (Companion.details a)) = true
        /\ Companion.js_truthy (Some (Companion.datetime a)) = true).
Proof.
  unfold Companion.parseAppointment. split.
  - intros ->. reflexivity.
  - intros N. assert (T : truthy (trim text) = true)
      by (destruct (trim text); [contradiction | reflexivity]).
    rewrite T. cbn [negb].
    destruct (Companion.has_key R); cbn [negb]; [|now apply fallback_fields].
    destruct (Companion.attempt R K text) as [r|] eqn:E;
      [|now apply fallback_fields].
    apply attempt_cases in E as [->|[parsed E]];
      [now apply fallback_fields|].
    now apply adopt_fields in E.
Qed.

(** X19. An answer of the wrong type ends in the rule-based parser: a
    content that is truthy but no string (no [trim]), an answer text that
    reads as [null] (no property can be read), a phone number that is
    truthy but no string (no [replace]). *)
Theorem ill_typed_answer_falls_back (R : Companion.Remote) (K : Clock)
    (text : string) (response : Companion.Response) (data : Companion.json) :
  Companion.fetch R = Some response ->
  Companion.ok response = true ->
  Companion.body_json response = Some data ->
  (forall v, Companion.content_of data = Companion.Ok (Some v) ->
             not_a_string v = true ->
             Companion.parseAppointment R K text = Companion.fallback K text)
  /\ (forall c parsed,
        Companion.content_of data = Companion.Ok (Some (Companion.JString c)) ->
        Companion.JSON_parse R (Companion.clean c) = Some parsed ->
        (parsed = Companion.JNull \/
         exists v, Companion.member "phone" parsed = Companion.Ok (Some v)
                   /\ not_a_string v = true) ->
        Companion.parseAppointment R K text = Companion.fallback K text).
Proof.
  intros Hf Hok Hb.
  assert (G : forall r, Companion.attempt R K text = r ->
              (r = Companion.Throw \/ r = Companion.Ok (Companion.fallback K text)) ->
              Companion.parseAppointment R K text = Companion.fallback K text).
  { intros r Hr Hc. unfold Companion.parseAppointment.
    destruct (truthy (trim text)) eqn:T; cbn [negb];
      [|now rewrite fallback_blank].
    destruct (Companion.has_key R); cbn [negb]; [|reflexivity].
    rewrite Hr. now destruct Hc as [-> | ->]. }
  split.
  - intros v Hc Hv. eapply G; [reflexivity|]. left.
    unfold Companion.attempt. rewrite Hf, Hok, Hb, Hc.
    cbn [negb Companion.bind].
    destruct v as [| | | | |]; cbn in Hv; try discriminate;
      cbn [Companion.js_truthy]; rewrite ?Hv; reflexivity.
  - intros c parsed Hc Hp Hbad. eapply G; [reflexivity|].
    unfold Companion.attempt. rewrite Hf, Hok, Hb, Hc.
    cbn [negb Companion.bind Companion.js_truthy].
    destruct (truthy c); cbn [negb]; [|now right]. left.
    rewrite Hp. unfold Companion.adopt.
    destruct Hbad as [->|(v & Hm & Hv)]; [reflexivity|].
    rewrite Hm. cbn [Companion.bind].
    unfold Companion.formatPhone, Companion.js_or.
    destruct v as [| | | | |]; cbn in Hv; try discriminate;
      cbn [Companion.js_truthy]; rewrite ?Hv; reflexivity.
Qed.

(** ** Code fences *)

Lemma prefix_cons c p d s :
  prefix (String c p) (String d s) = (Ascii.eqb c d && prefix p s)%bool.
Proof.
  cbn [prefix]. destruct (ascii_dec c d) as [->|N].
  - now rewrite Ascii.eqb_refl.
  - apply Ascii.eqb_neq in N. now rewrite N.
Qed.

Lemma prefix_empty s : prefix "" s = true.
Proof. now destruct s. Qed.

(** Once the fences are stripped, what is left starts with as many
    backticks as the input when those were fewer than three. *)
Lemma strip_all_head1 fuel s :
  prefix "`" s = false -> prefix "`" (Companion.strip_all fuel fence s) = false.
Proof.
  destruct fuel as [|fuel]; [easy|]. intros H. cbn [Companion.strip_all].
  destruct s as [|c s]; [reflexivity|].
  unfold fence. rewrite prefix_cons in *.
  destruct (Ascii.eqb "`" c) eqn:E; [now rewrite prefix_empty in H|].
  cbn [andb]. rewrite prefix_cons, E. reflexivity.
Qed.

Lemma strip_all_head2 fuel s :
  prefix "``" s = false -> prefix "``" (Companion.strip_all fuel fence s) = false.
Proof.
  destruct fuel as [|fuel]; [easy|]. intros H. cbn [Companion.strip_all].
  destruct s as [|c s]; [reflexivity|].
  unfold fence. rewrite prefix_cons in *.
  destruct (Ascii.eqb "`" c) eqn:E; cbn [andb] in *.
  - assert (P : prefix "``" s = false).
    { destruct s as [|d s]; [reflexivity|]. rewrite prefix_cons in *.
      destruct (Ascii.eqb "`" d); [now rewrite prefix_empty in H | reflexivity]. }
    rewrite P. rewrite prefix_cons, E. cbn [andb].
    now apply strip_all_head1.
  - rewrite prefix_cons, E. reflexivity.
Qed.

(** No fence is left once they are stripped. *)
Lemma strip_all_no_fence : forall fuel s,
  (String.length s < fuel)%nat -> includes (Companion.strip_all fuel fence s) fence = false.
Proof.
  induction fuel as [|fuel IH]; intros s L; [lia|]. cbn [Companion.strip_all].
  destruct (prefix fence s) eqn:P.
  - pose proof (length_drop (String.length fence) s) as Ld.
    change (String.length fence) with 3%nat in *.
    destruct (drop 3 s) as [|c s'] eqn:D; [reflexivity|].
    cbn [String.length] in Ld.
    destruct (Ascii.eqb c Companion.newline); apply IH; cbn [String.length]; lia.
  - destruct s as [|c s]; [reflexivity|]. cbn [includes].
    cbn [String.length] in L. rewrite IH by lia. rewrite orb_false_r.
    unfold fence in *. rewrite prefix_cons in *.
    destruct (Ascii.eqb "`" c); [|reflexivity]. cbn [andb] in *.
    now apply strip_all_head2.
Qed.

Lemma strip_no_fence s : includes (Companion.strip fence s) fence = false.
Proof. apply strip_all_no_fence. lia. Qed.

Lemma includes_cons c s pat : includes s pat = true -> includes (String c s) pat = true.
Proof. intros H. cbn [includes]. rewrite H. apply orb_true_r. Qed.

Lemma includes_trimStart s pat :
  includes (trimStart s) pat = true -> includes s pat = true.
Proof.
  induction s as [|c s IH]; cbn [trimStart]; [easy|].
  destruct (is_space c); [|easy]. intros H. apply includes_cons, IH, H.
Qed.

Lemma prefix_app_l p a b : prefix p a = true -> prefix p (a ++ b) = true.
Proof.
  intros H. apply prefix_inv in H as [r ->]. rewrite append_assoc.
  apply prefix_append.
Qed.

Lemma includes_app_l a b pat :
  includes a pat = true -> includes (a ++ b) pat = true.
Proof.
  induction a as [|c a IH]; cbn [includes String.append]; intros H.
  - rewrite orb_false_r in H. apply includes_prefix.
    now apply (prefix_app_l pat "" b).
  - apply orb_true_iff in H as [H|H].
    + apply (prefix_app_l _ _ b) in H. cbn [String.append] in H.
      now rewrite H.
    + rewrite (IH H). apply orb_true_r.
Qed.

Lemma trimEnd_prefix s : exists b, s = (trimEnd s ++ b)%string.
Proof.
  induction s as [|c s [b IH]]; cbn [trimEnd]; [now exists ""|].
  destruct (trimEnd s) as [|d t] eqn:E.
  - destruct (is_space c); [now exists (String c s)|].
    exists s. reflexivity.
  - exists b. cbn [String.append] in *. now rewrite <- IH.
Qed.

Lemma includes_trim s pat : includes (trim s) pat = true -> includes s pat = true.
Proof.
  intros H. apply includes_trimStart. unfold trim in H.
  destruct (trimEnd_prefix (trimStart s)) as [b E]. rewrite E.
  now apply includes_app_l.
Qed.

Lemma trim_no_fence s : includes s fence = false -> includes (trim s) fence = false.
Proof.
  intros H. destruct (includes (trim s) fence) eqn:E; [|reflexivity].
  apply includes_trim in E. congruence.
Qed.

(** X20. When the trimmed answer starts with a code fence, no fence is
    left in what is handed to [JSON.parse]; when it does not, the answer is
    only trimmed. *)
Theorem clean_leaves_no_fence (content : string) :
  (prefix fence (trim content) = true -> includes (Companion.clean content) fence = false)
  /\ (prefix fence (trim content) = false -> Companion.clean content = trim content).
Proof.
  unfold Companion.clean. split.
  - intros H. destruct (prefix "```json" (trim content)).
    + apply trim_no_fence, strip_no_fence.
    + change (prefix "```" (trim content)) with (prefix fence (trim content)).
      rewrite H. apply trim_no_fence, strip_no_fence.
  - intros H.
    destruct (prefix "```json" (trim content)) eqn:J.
    + apply prefix_inv in J as [r J]. rewrite J in H. discriminate H.
    + change (prefix "```" (trim content)) with (prefix fence (trim content)).
      now rewrite H.
Qed.

(** ** A fenced answer *)

Lemma strip_all_body f body : forall fuel rest,
  no_backtick body = true ->
  Companion.strip_all (String.length body + fuel) (String backtick f) (body ++ rest)
  = (body ++ Companion.strip_all fuel (String backtick f) rest)%string.
Proof.
  induction body as [|c body IH]; intros fuel rest H; [reflexivity|].
  cbn [no_backtick forall_string] in H. apply andb_true_iff in H as [Hc H].
  cbn [String.length Nat.add Companion.strip_all String.append].
  rewrite prefix_cons. rewrite Ascii.eqb_sym.
  apply negb_true_iff in Hc. rewrite Hc. cbn [andb].
  now rewrite IH.
Qed.

Lemma trimEnd_space_last t c :
  is_space c = true -> trimEnd (t ++ String c "") = trimEnd t.
Proof.
  intros H. induction t as [|d t IH]; cbn [String.append trimEnd].
  - now rewrite H.
  - now rewrite IH.
Qed.

Lemma trim_space_last s c : is_space c = true -> trim (s ++ String c "") = trim s.
Proof.
  intros H. unfold trim. induction s as [|d s IH]; cbn [String.append trimStart].
  - now rewrite H.
  - destruct (is_space d); [exact IH|].
    apply (trimEnd_space_last (String d s) c H).
Qed.

Lemma trim_fenced tag body : trim (fenced tag body) = fenced tag body.
Proof.
  unfold fenced, fence. apply trim_ends; [reflexivity|].
  cbn [String.append]. do 3 apply keeps_end_cons. apply keeps_end_app.
  apply keeps_end_cons. apply keeps_end_app.
  do 3 apply keeps_end_cons. now apply keeps_end_last.
Qed.

Lemma strip_all_opening f fuel rest :
  Companion.strip_all (S fuel) f (f ++ String Companion.newline rest) = Companion.strip_all fuel f rest.
Proof.
  cbn [Companion.strip_all]. rewrite prefix_append, drop_append.
  now rewrite Ascii.eqb_refl.
Qed.

Lemma strip_fenced f body tail k :
  no_backtick body = true ->
  String.length (String backtick f) + S (String.length tail) = k ->
  Companion.strip (String backtick f)
    (String backtick f ++ String Companion.newline (body ++ tail))
  = (body ++ Companion.strip_all k (String backtick f) tail)%string.
Proof.
  intros H <-. unfold Companion.strip. rewrite strip_all_opening.
  rewrite length_append. cbn [String.length]. rewrite length_append.
  replace (S (String.length f) + S (String.length body + String.length tail))%nat
    with (String.length body
          + (S (String.length f) + S (String.length tail)))%nat by lia.
  now apply strip_all_body.
Qed.

(** X21. An answer between two code fences, each on a line of its own, the
    first tagged "json" or not tagged, is unwrapped: what is left is the
    body, trimmed (the body holding no backtick). *)
Theorem clean_unwraps_fence (body : string) :
  no_backtick body = true ->
  Companion.clean (fenced "json" body) = trim body
  /\ Companion.clean (fenced "" body) = trim body.
Proof.
  intros H. unfold Companion.clean. rewrite !trim_fenced. split.
  - assert (P : prefix "```json" (fenced "json" body) = true) by reflexivity.
    rewrite P.
    assert (S1 : Companion.strip "```json" (fenced "json" body)
                 = (body ++ String Companion.newline fence)%string).
    { apply (strip_fenced "``json" body (String Companion.newline fence) 12 H eq_refl). }
    rewrite S1. unfold Companion.strip. rewrite length_append.
    replace (S (String.length body + String.length (String Companion.newline fence)))
      with (String.length body + 5)%nat by (cbn; lia).
    rewrite (strip_all_body "``" body _ _ H).
    change (Companion.strip_all 5 "```" (String Companion.newline fence)) with (String Companion.newline "").
    now apply trim_space_last.
  - assert (P : prefix "```json" (fenced "" body) = false) by reflexivity.
    rewrite P.
    assert (P' : prefix "```" (fenced "" body) = true) by reflexivity.
    rewrite P'.
    assert (S1 : Companion.strip "```" (fenced "" body) = (body ++ String Companion.newline "")%string).
    { apply (strip_fenced "``" body (String Companion.newline fence) 8 H eq_refl). }
    rewrite S1. now apply trim_space_last.
Qed.

(** ** The calendar view *)

Local Open Scope Z_scope.

Lemma nth_error_count_from n : forall lo k,
  (k < n)%nat -> nth_error (count_from lo n) k = Some (lo + Z.of_nat k).
Proof.
  induction n as [|n IH]; intros lo k H; [lia|].
  destruct k as [|k]; cbn [count_from nth_error].
  - f_equal. lia.
  - rewrite IH by lia. f_equal. lia.
Qed.

Lemma length_count_from n : forall lo, List.length (count_from lo n) = n.
Proof. induction n as [|n IH]; intros lo; cbn; [|rewrite IH]; reflexivity. Qed.

Lemma nth_error_repeat {A} (x : A) n k :
  (k < n)%nat -> nth_error (repeat x n) k = Some x.
Proof.
  revert k. induction n as [|n IH]; intros k H; [lia|].
  destruct k; cbn; [reflexivity | apply IH; lia].
Qed.

(** X22. The cells [getDaysInMonth] gives for the month of a date: as many
    empty cells as the day of the week of the first of the month, then one
    cell for each day of the month, in order; a cell's index modulo 7 is
    the day of the week of its date.  The year is
    [century] of the date's year: the months of the years 0 to 99 are shown
    as those of 1900 to 1999. *)
Theorem calendar_grid (K : Clock) (date : Z) :
  let year := century (getFullYear K date) in
  let month := getMonth K date in
  let days := App.getDaysInMonth K date in
  let offset := getDay K (newDate K (getFullYear K date) month 1) in
  0 <= offset <= 6
  /\ Z.of_nat (List.length days) = offset + days_in_month year (month + 1)
  /\ (forall i, 0 <= i < offset -> nth_error days (Z.to_nat i) = Some None)
  /\ (forall d, 1 <= d <= days_in_month year (month + 1) ->
      exists t,
        nth_error days (Z.to_nat (offset + d - 1)) = Some (Some t)
        /\ getFullYear K t = year /\ getMonth K t = month /\ getDate K t = d
        /\ getDay K t = (offset + d - 1) mod 7).
Proof.
  intros year month days offset.
  pose proof (MonthFromTime_range (LocalTime K date)) as Hm. fold (getMonth K date) in Hm.
  fold month in Hm.
  assert (Hoff : 0 <= offset <= 6) by apply WeekDay_range.
  pose proof (month_length year (month + 1) ltac:(lia)) as L.
  replace (month + 1 - 1) with month in L by lia.
  set (n := 12 * year + month) in *.
  replace (12 * year + (month + 1)) with (n + 1) in L by (unfold n; lia).
  assert (Hlen : 28 <= days_in_month year (month + 1) <= 31).
  { rewrite <- L. apply month_start_step. }
  assert (Hdim : getDate K (newDate K (getFullYear K date) (month + 1) 0)
                 = days_in_month year (month + 1)).
  { destruct (Day_newDate K (getFullYear K date) (month + 1) 0) as [E _].
    fold year in E.
    replace (12 * year + (month + 1)) with (n + 1) in E by (unfold n; lia).
    unfold getDate.
    assert (E' : Day (LocalTime K (newDate K (getFullYear K date) (month + 1) 0))
                 = month_start n + days_in_month year (month + 1) - 1) by lia.
    now destruct (fields_in_month _ _ _ E' ltac:(lia)) as (_ & _ & F). }
  assert (Hday : forall d, 1 <= d <= days_in_month year (month + 1) ->
            let t := newDate K (getFullYear K date) month d in
            getFullYear K t = year /\ getMonth K t = month /\ getDate K t = d
            /\ getDay K t = (offset + d - 1) mod 7).
  { intros d Hd t.
    destruct (newDate_fields K (getFullYear K date) month d Hm Hd)
      as (F1 & F2 & F3 & _).
    repeat split; try assumption.
    unfold offset, getDay, WeekDay, t.
    destruct (Day_newDate K (getFullYear K date) month d) as [-> _].
    destruct (Day_newDate K (getFullYear K date) month 1) as [-> _].
    Z.div_mod_to_equations; lia. }
  unfold days, App.getDaysInMonth. fold month. fold offset. rewrite Hdim.
  split; [exact Hoff|]. split; [|split].
  - rewrite length_app, repeat_length, length_map, length_count_from. lia.
  - intros i Hi. rewrite nth_error_app1 by (rewrite repeat_length; lia).
    apply nth_error_repeat. lia.
  - intros d Hd. exists (newDate K (getFullYear K date) month d).
    split; [|now apply Hday].
    rewrite nth_error_app2 by (rewrite repeat_length; lia).
    rewrite repeat_length, nth_error_map.
    rewrite nth_error_count_from by lia. cbn [option_map].
    do 3 f_equal. lia.
Qed.

Lemma parseAppointment_some K text :
  truthy (trim text) = true -> exists r, parseAppointment K text = Some r.
Proof.
  intros H. rewrite parseAppointment_steps, H. cbn [negb]. eauto.
Qed.

Lemma parseAppointment_datetime K text r :
  parseAppointment K text = Some r ->
  datetime r = toISOString (resultTime K (afterPhone text)).
Proof.
  intros E. rewrite parseAppointment_steps in E.
  destruct (truthy (trim text)); cbn [negb] in E; [|discriminate E].
  assert (I : forall x y : ParsedAppointment, Some x = Some y -> y = x)
    by congruence.
  apply I in E. rewrite E. reflexivity.
Qed.

Lemma filter_app_one {A} (f : A -> bool) l x :
  f x = false -> filter f (l ++ [x]) = filter f l.
Proof.
  intros H. rewrite filter_app. cbn [filter]. rewrite H. apply app_nil_r.
Qed.

Lemma filter_all {A} (f : A -> bool) l :
  (forall x, In x l -> f x = true) -> filter f l = l.
Proof.
  induction l as [|a l IH]; intros H; cbn [filter]; [reflexivity|].
  rewrite (H a (or_introl eq_refl)). f_equal. apply IH.
  intros x Hx. apply H. now right.
Qed.

Lemma Number_toString_inj a b : Number_toString a = Number_toString b -> a = b.
Proof.
  unfold Number_toString. intros H. apply DecimalZ.to_int_inj.
  assert (N : forall z, Z.to_int z <> Decimal.Pos Decimal.Nil
                        /\ Z.to_int z <> Decimal.Neg Decimal.Nil).
  { intros [|p|p]; cbn; split; try discriminate;
      intros [= E]; now apply DecimalPos.Unsigned.to_uint_nonnil in E. }
  pose proof (DecimalString.NilZero.isi _ (proj1 (N a)) (proj2 (N a))) as Ia.
  pose proof (DecimalString.NilZero.isi _ (proj1 (N b)) (proj2 (N b))) as Ib.
  rewrite H in Ia. congruence.
Qed.

(** X23. [handleParse] leaves the state alone on a blank input and
    otherwise appends one appointment, made of the parser's record and the
    clock reading as its id, and empties the input.  Deleting that id then
    gives the list back, less the appointments that bore the same id: the
    list itself when none did. *)
Theorem parse_then_delete (K : Clock) (st : App.State) :
  (truthy (trim (App.inputText st)) = false -> App.handleParse K st = st)
  /\ (truthy (trim (App.inputText st)) = true ->
      exists parsed,
        parseAppointment K (App.inputText st) = Some parsed
        /\ App.appointments (App.handleParse K st)
           = App.appointments st ++ [App.newAppointment K parsed]
        /\ App.inputText (App.handleParse K st) = ""
        /\ App.appointments
             (App.handleDelete (Number_toString (now K)) (App.handleParse K st))
           = filter (fun apt => negb (String.eqb (App.id apt)
                                        (Number_toString (now K))))
                    (App.appointments st)
        /\ ((forall apt, In apt (App.appointments st) ->
                         App.id apt <> Number_toString (now K)) ->
            App.appointments
              (App.handleDelete (Number_toString (now K)) (App.handleParse K st))
            = App.appointments st)).
Proof.
  unfold App.handleParse. split.
  - intros ->. reflexivity.
  - intros H. rewrite H. cbn [negb].
    destruct (parseAppointment_some K (App.inputText st) H) as [parsed E].
    rewrite E. exists parsed. cbn [App.appointments App.inputText App.handleDelete].
    assert (F : filter (fun apt => negb (String.eqb (App.id apt)
                                           (Number_toString (now K))))
                  (App.appointments st ++ [App.newAppointment K parsed])
                = filter (fun apt => negb (String.eqb (App.id apt)
                                             (Number_toString (now K))))
                    (App.appointments st)).
    { apply filter_app_one. unfold App.newAppointment.
      destruct (fields parsed) as [[[n p] d] t]. cbn [App.id].
      now rewrite String.eqb_refl. }
    repeat split; try assumption.
    intros Hid. rewrite F. apply filter_all.
    intros apt Ha. apply negb_true_iff, String.eqb_neq. now apply Hid.
Qed.

(** ** Months *)

Lemma newDate_month_index K year month :
  century year = year ->
  let t := newDate K year month 1 in
  getFullYear K t = (12 * year + month) / 12
  /\ getMonth K t = (12 * year + month) mod 12
  /\ getDate K t = 1
  /\ LocalTime K t = month_start (12 * year + month) * msPerDay.
Proof.
  intros C t. destruct (Day_newDate K year month 1) as [E T]. fold t in E, T.
  rewrite C in E.
  pose proof (month_start_step (12 * year + month)) as S.
  destruct (fields_in_month _ _ _ E ltac:(lia)) as (F1 & F2 & F3).
  repeat split; try assumption.
  pose proof (Day_TimeWithinDay (LocalTime K t)) as D. lia.
Qed.

Lemma century_id year : year < 0 \/ 100 <= year -> century year = year.
Proof.
  intros H. unfold century.
  destruct (Z.leb_spec 0 year), (Z.leb_spec year 99); cbn [andb]; lia.
Qed.

(** X24. From the first of a month of a year from 101 on, [previousMonth]
    and [nextMonth] lead to the first of the month before and after, across
    the ends of the year, and each undoes the other. *)
Theorem month_navigation (K : Clock) (st : App.State) (year month : Z) :
  App.currentMonth st = newDate K year month 1 ->
  101 <= year -> 0 <= month <= 11 ->
  let prev := App.currentMonth (App.previousMonth K st) in
  let next := App.currentMonth (App.nextMonth K st) in
  getFullYear K prev = (if month =? 0 then year - 1 else year)
  /\ getMonth K prev = (if month =? 0 then 11 else month - 1)
  /\ getDate K prev = 1
  /\ getFullYear K next = (if month =? 11 then year + 1 else year)
  /\ getMonth K next = (if month =? 11 then 0 else month + 1)
  /\ getDate K next = 1
  /\ App.currentMonth (App.nextMonth K (App.previousMonth K st))
     = App.currentMonth st
  /\ App.currentMonth (App.previousMonth K (App.nextMonth K st))
     = App.currentMonth st.
Proof.
  intros Hc Hy Hm prev next.
  destruct (newDate_month_index K year month (century_id year ltac:(lia)))
    as (Y0 & M0 & _ & _).
  rewrite <- Hc in Y0, M0.
  assert (Y0' : getFullYear K (App.currentMonth st) = year)
    by (rewrite Y0; Z.div_mod_to_equations; lia).
  assert (M0' : getMonth K (App.currentMonth st) = month)
    by (rewrite M0; Z.div_mod_to_equations; lia).
  assert (Ep : prev = newDate K year (month - 1) 1).
  { unfold prev, App.previousMonth. cbn [App.currentMonth App.setCurrentMonth].
    now rewrite Y0', M0'. }
  assert (En : next = newDate K year (month + 1) 1).
  { unfold next, App.nextMonth. cbn [App.currentMonth App.setCurrentMonth].
    now rewrite Y0', M0'. }
  destruct (newDate_month_index K year (month - 1) (century_id year ltac:(lia)))
    as (Yp & Mp & Dp & _).
  destruct (newDate_month_index K year (month + 1) (century_id year ltac:(lia)))
    as (Yn & Mn & Dn & _).
  rewrite <- Ep in Yp, Mp, Dp. rewrite <- En in Yn, Mn, Dn.
  assert (Yp' : getFullYear K prev = (if month =? 0 then year - 1 else year)).
  { rewrite Yp. destruct (Z.eqb_spec month 0); Z.div_mod_to_equations; lia. }
  assert (Mp' : getMonth K prev = (if month =? 0 then 11 else month - 1)).
  { rewrite Mp. destruct (Z.eqb_spec month 0); Z.div_mod_to_equations; lia. }
  assert (Yn' : getFullYear K next = (if month =? 11 then year + 1 else year)).
  { rewrite Yn. destruct (Z.eqb_spec month 11); Z.div_mod_to_equations; lia. }
  assert (Mn' : getMonth K next = (if month =? 11 then 0 else month + 1)).
  { rewrite Mn. destruct (Z.eqb_spec month 11); Z.div_mod_to_equations; lia. }
  assert (Same : forall y m, 100 <= y -> 12 * y + m = 12 * year + month ->
            newDate K y m 1 = newDate K year month 1).
  { intros y m Hy' E. unfold newDate. fold (century y). fold (century year).
    rewrite (century_id y), (century_id year) by lia.
    rewrite !MakeDay_month_start, E. reflexivity. }
  repeat split; try assumption.
  - unfold App.nextMonth at 1. cbn [App.currentMonth App.setCurrentMonth].
    fold prev. rewrite Yp', Mp', Hc. apply Same;
      destruct (Z.eqb_spec month 0); lia.
  - unfold App.previousMonth at 1. cbn [App.currentMonth App.setCurrentMonth].
    fold next. rewrite Yn', Mn', Hc. apply Same;
      destruct (Z.eqb_spec month 11); lia.
Qed.

(** ** Date strings *)

Lemma digit_char_spec d :
  0 <= d <= 9 ->
  is_digit (digit_char d) = true /\ Z.of_nat (code (digit_char d) - 48) = d.
Proof.
  intros H.
  assert (C : d = 0 \/ d = 1 \/ d = 2 \/ d = 3 \/ d = 4 \/ d = 5 \/ d = 6
              \/ d = 7 \/ d = 8 \/ d = 9) by lia.
  destruct C as [->|[->|[->|[->|[->|[->|[->|[->|[->| ->]]]]]]]]];
    split; reflexivity.
Qed.

Lemma parseInt_acc_append s c : forall acc,
  forall_string is_digit s = true -> is_digit c = true ->
  parseInt_acc acc (s ++ String c "")
  = 10 * parseInt_acc acc s + Z.of_nat (code c - 48).
Proof.
  induction s as [|d s IH]; intros acc Hs Hc; cbn [String.append parseInt_acc].
  - now rewrite Hc.
  - cbn [forall_string] in Hs. apply andb_true_iff in Hs as [Hd Hs].
    rewrite Hd. now apply IH.
Qed.

Lemma forall_string_append p a b :
  forall_string p (a ++ b) = (forall_string p a && forall_string p b)%bool.
Proof.
  induction a as [|c a IH]; cbn [String.append forall_string]; [reflexivity|].
  now rewrite IH, andb_assoc.
Qed.

(** A number written with [width] digits is read back. *)
Lemma number_pad width : forall n,
  0 <= n < 10 ^ Z.of_nat width -> number (pad width n) = Some n.
Proof.
  unfold number.
  induction width as [|w IH]; intros n H.
  - cbn in H |- *. f_equal. unfold parseInt. cbn. lia.
  - cbn [pad].
    assert (Hq : 0 <= n / 10 < 10 ^ Z.of_nat w).
    { rewrite Nat2Z.inj_succ, Z.pow_succ_r in H by lia.
      Z.div_mod_to_equations; lia. }
    specialize (IH _ Hq).
    destruct (forall_string is_digit (pad w (n / 10))) eqn:E; [|discriminate].
    injection IH as IH.
    destruct (digit_char_spec (n mod 10)) as [D V];
      [Z.div_mod_to_equations; lia|].
    rewrite forall_string_append, E. cbn [forall_string]. rewrite D.
    cbn [andb]. f_equal. unfold parseInt in *.
    rewrite parseInt_acc_append by assumption. rewrite IH, V.
    Z.div_mod_to_equations; lia.
Qed.

Lemma length_pad width : forall n, String.length (pad width n) = width.
Proof.
  induction width as [|w IH]; intros n; cbn [pad]; [reflexivity|].
  rewrite length_append, IH. cbn. lia.
Qed.

Lemma DateFromTime_range t : 1 <= DateFromTime t <= 31.
Proof.
  unfold DateFromTime. pose proof (civil_from_days_month (Day t)) as H.
  destruct (civil_from_days (Day t)) as [[y m] d]. cbn [snd].
  destruct H as (_ & Hz & ->).
  pose proof (month_start_step (12 * y + (m - 1))) as S.
  replace (12 * y + (m - 1) + 1) with (12 * y + m) in S by lia. lia.
Qed.

Ltac explode2 s :=
  do 2 (destruct s as [|? s]; [discriminate|]);
  destruct s; [|discriminate].

Lemma iso_layout a b c d e f g :
  String.length a = 4%nat -> String.length b = 2%nat ->
  String.length c = 2%nat -> String.length d = 2%nat ->
  String.length e = 2%nat -> String.length f = 2%nat ->
  String.length g = 3%nat ->
  let s := (a ++ "-" ++ b ++ "-" ++ c ++ "T" ++ d ++ ":" ++ e ++ ":" ++ f
            ++ "." ++ g ++ "Z")%string in
  (Nat.eqb (String.length s) 24
   && char_at 4 "-" s && char_at 7 "-" s && char_at 10 "T" s
   && char_at 13 ":" s && char_at 16 ":" s && char_at 19 "." s
   && char_at 23 "Z" s = true)%bool
  /\ slice 0 4 s = a /\ slice 5 7 s = b /\ slice 8 10 s = c
  /\ slice 11 13 s = d /\ slice 14 16 s = e /\ slice 17 19 s = f
  /\ slice 20 23 s = g.
Proof.
  intros Ha Hb Hc Hd He Hf Hg.
  do 4 (destruct a as [|? a]; [discriminate|]); destruct a; [|discriminate].
  explode2 b. explode2 c. explode2 d. explode2 e. explode2 f.
  do 3 (destruct g as [|? g]; [discriminate|]); destruct g; [|discriminate].
  cbn. repeat split; reflexivity.
Qed.

Lemma iso_parse_format Y M D h mi sec ms :
  0 <= Y <= 9999 -> 1 <= M <= 12 -> 1 <= D <= 31 -> 0 <= h < 24 ->
  0 <= mi < 60 -> 0 <= sec < 60 -> 0 <= ms < 1000 ->
  iso_parse (pad 4 Y ++ "-" ++ pad 2 M ++ "-" ++ pad 2 D ++ "T" ++ pad 2 h
             ++ ":" ++ pad 2 mi ++ ":" ++ pad 2 sec ++ "." ++ pad 3 ms ++ "Z")
  = Some (MakeDate (MakeDay Y (M - 1) D) (MakeTime h mi sec ms)).
Proof.
  intros HY HM HD Hh Hmi Hs Hms.
  destruct (iso_layout (pad 4 Y) (pad 2 M) (pad 2 D) (pad 2 h) (pad 2 mi)
              (pad 2 sec) (pad 3 ms))
    as (L & S1 & S2 & S3 & S4 & S5 & S6 & S7); try apply length_pad.
  unfold iso_parse. rewrite L, S1, S2, S3, S4, S5, S6, S7.
  rewrite !number_pad by (cbn; lia).
  destruct (Z.leb_spec 1 M), (Z.leb_spec M 12), (Z.leb_spec 1 D),
           (Z.leb_spec D 31), (Z.ltb_spec h 24), (Z.ltb_spec mi 60),
           (Z.ltb_spec sec 60); try lia.
  reflexivity.
Qed.

(** The string [toISOString] gives is read back as the same instant. *)
Lemma iso_parse_toISOString t :
  0 <= YearFromTime t <= 9999 -> iso_parse (toISOString t) = Some t.
Proof.
  intros HY. unfold toISOString, year_string.
  destruct (Z.leb_spec 0 (YearFromTime t)), (Z.leb_spec (YearFromTime t) 9999);
    try lia. cbn [andb].
  pose proof (MonthFromTime_range t) as HM.
  pose proof (DateFromTime_range t) as HD.
  rewrite iso_parse_format; try lia.
  - f_equal. replace (MonthFromTime t + 1 - 1) with (MonthFromTime t) by lia.
    pose proof (MakeDay_of_time t 0) as E.
    replace (DateFromTime t + 0) with (DateFromTime t) in E by lia.
    rewrite E. unfold MakeDate, MakeTime, Day, HourFromTime, MinFromTime,
      SecFromTime, msFromTime, msPerDay, msPerHour, msPerMinute, msPerSecond.
    Z.div_mod_to_equations; lia.
  - unfold HourFromTime. Z.div_mod_to_equations; lia.
  - unfold MinFromTime. Z.div_mod_to_equations; lia.
  - unfold SecFromTime. Z.div_mod_to_equations; lia.
  - unfold msFromTime, msPerSecond. Z.div_mod_to_equations; lia.
Qed.

(** Two instants have the same year, month and day of the month exactly
    when they are on the same day. *)
Lemma same_date_same_day K a b :
  ((getFullYear K a =? getFullYear K b) && (getMonth K a =? getMonth K b)
   && (getDate K a =? getDate K b) = true)%bool
  <-> Day (LocalTime K a) = Day (LocalTime K b).
Proof.
  unfold getFullYear, getMonth, getDate, YearFromTime, MonthFromTime,
    DateFromTime.
  pose proof (days_from_civil_from_days (Day (LocalTime K a))) as Ha.
  pose proof (days_from_civil_from_days (Day (LocalTime K b))) as Hb.
  split.
  - intros H. apply andb_true_iff in H as [H H3].
    apply andb_true_iff in H as [H1 H2].
    apply Z.eqb_eq in H1, H2, H3.
    destruct (civil_from_days (Day (LocalTime K a))) as [[y m] d].
    destruct (civil_from_days (Day (LocalTime K b))) as [[y' m'] d'].
    cbn [fst snd] in *. assert (m = m') by lia. subst. congruence.
  - intros ->. now rewrite !Z.eqb_refl.
Qed.

(** X25. An appointment parsed from the input is shown in the cells of
    its own day and in no other: [getEventsForDate] lists it for a date
    exactly when that date is on the local day of the instant the parser
    returned ([Date_parse] reading back what [toISOString] writes, for an
    instant of the years 0 to 9999). *)
Theorem parsed_appointment_is_shown (Date_parse : string -> option Z)
    (K : Clock) (st : App.State) :
  (forall t, 0 <= YearFromTime t <= 9999 -> Date_parse (toISOString t) = Some t) ->
  truthy (trim (App.inputText st)) = true ->
  let t := resultTime K (afterPhone (App.inputText st)) in
  0 <= YearFromTime t <= 9999 ->
  exists apt,
    App.appointments (App.handleParse K st) = App.appointments st ++ [apt]
    /\ App.datetime apt = toISOString t
    /\ App.getEventsForDate Date_parse K (App.handleParse K st) None = []
    /\ forall cell,
         In apt (App.getEventsForDate Date_parse K (App.handleParse K st)
                   (Some cell))
         <-> Day (LocalTime K cell) = Day (LocalTime K t).
Proof.
  intros HP Hin t Ht.
  destruct (parseAppointment_some K (App.inputText st) Hin) as [parsed E].
  pose proof (parseAppointment_datetime _ _ _ E) as Ed. fold t in Ed.
  exists (App.newAppointment K parsed).
  assert (Hs : App.handleParse K st
               = {| App.appointments :=
                      App.appointments st ++ [App.newAppointment K parsed];
                    App.inputText := "";
                    App.currentMonth := App.currentMonth st;
                    App.selectedEvent := App.selectedEvent st;
                    App.isModalOpen := App.isModalOpen st |}).
  { unfold App.handleParse. now rewrite Hin, E. }
  assert (Hd : App.datetime (App.newAppointment K parsed) = toISOString t).
  { unfold App.newAppointment, fields. cbn [App.datetime]. exact Ed. }
  rewrite Hs. cbn [App.appointments App.getEventsForDate].
  split; [reflexivity|]. split; [exact Hd|]. split; [reflexivity|].
  intros cell. rewrite filter_In, Hd, (HP t Ht), same_date_same_day.
  split; [intros [_ H]; now symmetry|].
  intros H. split; [|now symmetry]. apply in_or_app. right. now left.
Qed.


(** ** Cells of the grid *)

(** The day of an instant, counted from the first of its month. *)
Lemma Day_of_fields t :
  Day t = month_start (12 * YearFromTime t + MonthFromTime t) + DateFromTime t - 1.
Proof.
  unfold YearFromTime, MonthFromTime, DateFromTime.
  pose proof (civil_from_days_month (Day t)) as H.
  destruct (civil_from_days (Day t)) as [[y m] d]. cbn [fst snd].
  destruct H as (_ & _ & ->). lia.
Qed.

Lemma getDay_range K t : 0 <= getDay K t <= 6.
Proof. apply WeekDay_range. Qed.

(** A cell of the grid that holds a date holds the date of its index. *)
Lemma nth_error_grid K date i cell :
  nth_error (App.getDaysInMonth K date) i = Some (Some cell) ->
  getDay K (newDate K (getFullYear K date) (getMonth K date) 1) <= Z.of_nat i
  /\ cell = newDate K (getFullYear K date) (getMonth K date)
              (Z.of_nat i
               - getDay K (newDate K (getFullYear K date) (getMonth K date) 1)
               + 1).
Proof.
  unfold App.getDaysInMonth.
  pose proof (getDay_range K (newDate K (getFullYear K date) (getMonth K date) 1))
    as Ho.
  generalize dependent (getDay K (newDate K (getFullYear K date) (getMonth K date) 1)).
  generalize (getDate K (newDate K (getFullYear K date) (getMonth K date + 1) 0)).
  generalize (getFullYear K date) (getMonth K date).
  intros year month dim offset Ho H.
  destruct (Nat.lt_ge_cases i (Z.to_nat offset)) as [L|L].
  - rewrite nth_error_app1 in H by (rewrite repeat_length; exact L).
    rewrite nth_error_repeat in H by exact L. discriminate H.
  - rewrite nth_error_app2 in H by (rewrite repeat_length; exact L).
    rewrite repeat_length, nth_error_map in H.
    destruct (nth_error (count_from 1 (Z.to_nat dim)) (i - Z.to_nat offset))
      as [d|] eqn:E; [|discriminate H].
    cbn [option_map] in H.
    assert (Hl : (i - Z.to_nat offset < Z.to_nat dim)%nat).
    { rewrite <- (length_count_from (Z.to_nat dim) 1).
      apply nth_error_Some. congruence. }
    rewrite nth_error_count_from in E by exact Hl.
    assert (I1 : forall x y : Z, Some x = Some y -> x = y) by congruence.
    assert (I2 : forall x y : option Z, Some x = Some y -> x = y) by congruence.
    apply I1 in E. apply I2, I1 in H. subst cell d.
    split; [lia|]. f_equal. lia.
Qed.

(** The day of the month of the last day of a month is its number of
    days. *)
Lemma lastDay_getDate K year month :
  0 <= month <= 11 ->
  getDate K (newDate K year (month + 1) 0)
  = days_in_month (century year) (month + 1).
Proof.
  intros Hm.
  pose proof (month_length (century year) (month + 1) ltac:(lia)) as L.
  replace (month + 1 - 1) with month in L by lia.
  destruct (Day_newDate K year (month + 1) 0) as [E _].
  replace (12 * century year + (month + 1))
    with (12 * century year + month + 1) in E, L by lia.
  pose proof (month_start_step (12 * century year + month)) as S.
  assert (E' : Day (LocalTime K (newDate K year (month + 1) 0))
               = month_start (12 * century year + month)
                 + days_in_month (century year) (month + 1) - 1) by lia.
  unfold getDate.
  now destruct (fields_in_month _ _ _ E' ltac:(lia)) as (_ & _ & F).
Qed.

Lemma getMonth_range K t : 0 <= getMonth K t <= 11.
Proof. apply MonthFromTime_range. Qed.

Lemma getDate_range K t : 1 <= getDate K t <= 31.
Proof. apply DateFromTime_range. Qed.

Lemma length_grid K date :
  Z.of_nat (List.length (App.getDaysInMonth K date))
  = getDay K (newDate K (getFullYear K date) (getMonth K date) 1)
    + days_in_month (century (getFullYear K date)) (getMonth K date + 1).
Proof.
  unfold App.getDaysInMonth.
  pose proof (getDay_range K (newDate K (getFullYear K date) (getMonth K date) 1)).
  rewrite lastDay_getDate by apply getMonth_range.
  pose proof (month_start_step
                (12 * century (getFullYear K date) + getMonth K date)) as S.
  pose proof (month_length (century (getFullYear K date)) (getMonth K date + 1))
    as L.
  pose proof (getMonth_range K date).
  rewrite length_app, repeat_length, length_map, length_count_from.
  replace (12 * century (getFullYear K date) + (getMonth K date + 1))
    with (12 * century (getFullYear K date) + getMonth K date + 1) in L by lia.
  replace (getMonth K date + 1 - 1) with (getMonth K date) in L by lia.
  lia.
Qed.

Lemma nth_error_grid_empty K date i :
  nth_error (App.getDaysInMonth K date) i = Some None ->
  Z.of_nat i < getDay K (newDate K (getFullYear K date) (getMonth K date) 1).
Proof.
  unfold App.getDaysInMonth.
  pose proof (getDay_range K (newDate K (getFullYear K date) (getMonth K date) 1))
    as Ho.
  generalize dependent (getDay K (newDate K (getFullYear K date) (getMonth K date) 1)).
  generalize (getDate K (newDate K (getFullYear K date) (getMonth K date + 1) 0)).
  generalize (getFullYear K date) (getMonth K date).
  intros year month dim offset Ho H.
  destruct (Nat.lt_ge_cases i (Z.to_nat offset)) as [L|L]; [lia|].
  rewrite nth_error_app2 in H by (rewrite repeat_length; exact L).
  rewrite repeat_length, nth_error_map in H.
  destruct (nth_error (count_from 1 (Z.to_nat dim)) (i - Z.to_nat offset));
    discriminate H.
Qed.

Lemma Day_of_date K t :
  Day (LocalTime K t)
  = month_start (12 * getFullYear K t + getMonth K t) + getDate K t - 1.
Proof. apply Day_of_fields. Qed.

Lemma date_in_month K t n d :
  Day (LocalTime K t) = month_start n + d - 1 ->
  1 <= d <= month_start (n + 1) - month_start n ->
  getFullYear K t = n / 12 /\ getMonth K t = n mod 12 /\ getDate K t = d.
Proof. apply fields_in_month. Qed.

(** X26. In the grid of the month shown, an appointment parsed from the
    input is listed in one cell at most: the cell of its day of the month
    when its year and month are those shown, and no cell otherwise. *)
Theorem shown_in_one_cell (Date_parse : string -> option Z)
    (K : Clock) (st : App.State) :
  (forall t, 0 <= YearFromTime t <= 9999 -> Date_parse (toISOString t) = Some t) ->
  truthy (trim (App.inputText st)) = true ->
  let t := resultTime K (afterPhone (App.inputText st)) in
  0 <= YearFromTime t <= 9999 ->
  let shown := App.currentMonth st in
  let offset :=
    getDay K (newDate K (getFullYear K shown) (getMonth K shown) 1) in
  exists apt,
    App.appointments (App.handleParse K st) = App.appointments st ++ [apt]
    /\ forall i cell,
         nth_error (App.getDaysInMonth K shown) i = Some cell ->
         (In apt (App.getEventsForDate Date_parse K (App.handleParse K st) cell)
          <-> getFullYear K t = century (getFullYear K shown)
              /\ getMonth K t = getMonth K shown
              /\ Z.of_nat i = offset + getDate K t - 1).
Proof.
  intros HP Hin t Ht shown offset.
  destruct (parseAppointment_some K (App.inputText st) Hin) as [parsed E].
  pose proof (parseAppointment_datetime _ _ _ E) as Ed. fold t in Ed.
  exists (App.newAppointment K parsed).
  assert (Hs : App.handleParse K st
               = {| App.appointments :=
                      App.appointments st ++ [App.newAppointment K parsed];
                    App.inputText := "";
                    App.currentMonth := App.currentMonth st;
                    App.selectedEvent := App.selectedEvent st;
                    App.isModalOpen := App.isModalOpen st |}).
  { unfold App.handleParse. now rewrite Hin, E. }
  assert (Hd : App.datetime (App.newAppointment K parsed) = toISOString t).
  { unfold App.newAppointment, fields. cbn [App.datetime]. exact Ed. }
  clearbody t.
  rewrite Hs. cbn [App.appointments]. split; [reflexivity|].
  intros i [cell|] Hc; cbn [App.getEventsForDate App.appointments].
  - destruct (nth_error_grid _ _ _ _ Hc) as [Ho ->]. fold shown offset in Ho |- *.
    assert (Hi : Z.of_nat i
                 < offset + days_in_month (century (getFullYear K shown))
                              (getMonth K shown + 1)).
    { pose proof (length_grid K shown) as LG. fold offset in LG.
      assert ((i < List.length (App.getDaysInMonth K shown))%nat)
        by (apply nth_error_Some; congruence).
      lia. }
    set (d := Z.of_nat i - offset + 1) in *.
    destruct (Day_newDate K (getFullYear K shown) (getMonth K shown) d) as [Dc _].
    pose proof (month_length (century (getFullYear K shown)) (getMonth K shown + 1))
      as L.
    pose proof (getMonth_range K shown) as Hm.
    replace (12 * century (getFullYear K shown) + (getMonth K shown + 1))
      with (12 * century (getFullYear K shown) + getMonth K shown + 1) in L by lia.
    replace (getMonth K shown + 1 - 1) with (getMonth K shown) in L by lia.
    rewrite filter_In, Hd, (HP t Ht), same_date_same_day. split.
    + intros [_ H]. rewrite Dc in H. specialize (L ltac:(lia)).
      destruct (date_in_month _ _ _ _ H ltac:(lia)) as (F1 & F2 & F3).
      rewrite F1, F2, F3.
      unfold d. repeat split; Z.div_mod_to_equations; lia.
    + intros (F1 & F2 & F3). split; [apply in_or_app; right; now left|].
      rewrite Dc. pose proof (Day_of_date K t) as Dt.
      rewrite F1, F2 in Dt. rewrite Dt. unfold d. lia.
  - split; [intros []|]. intros (_ & _ & F).
    apply nth_error_grid_empty in Hc. fold shown offset in Hc.
    pose proof (getDate_range K t). lia.
Qed.

(** ** The name and the later steps *)

Lemma afterName_rest text n :
  extractName (trim text) = Some n ->
  exists r, trim text = (n ++ r)%string /\ afterName text = trim r.
Proof.
  intros H. unfold afterName. rewrite H.
  rewrite extractName_scan in H.
  destruct (Nat.eqb_spec (name_len (trim text)) 0) as [E|E]; [discriminate|].
  assert (I : forall x y : string, Some x = Some y -> y = x) by congruence.
  apply I in H. subst n.
  exists (drop (name_len (trim text)) (trim text)).
  split; [now rewrite take_drop|].
  assert (Ht : truthy (take (name_len (trim text)) (trim text)) = true).
  { pose proof (name_len_le (trim text)) as Hle.
    destruct (trim text) as [|c s]; [cbn in *; lia|].
    destruct (name_len (String c s)); [contradiction | reflexivity]. }
  rewrite Ht, replace_prefix by apply prefix_take.
  rewrite length_take by apply name_len_le. reflexivity.
Qed.

(** X27. What the name step took is out of sight of the later steps: the
    text the date step works on is the text after the name with characters
    left out, so a weekday that starts the text, capitalised, is the name
    and no date cue. *)
Theorem name_hides_cues (K : Clock) (text n : string) (r : ParsedAppointment) :
  extractName (trim text) = Some n ->
  parseAppointment K text = Some r ->
  exists rest,
    trim text = (n ++ rest)%string
    /\ name r = n
    /\ subseq (afterPhone text) rest
    /\ datetime r = toISOString (resultTime K (afterPhone text)).
Proof.
  intros Hn Hr. destruct (afterName_rest text n Hn) as (rest & E & A).
  exists rest. split; [exact E|]. split; [|split].
  - apply parseAppointment_name_phone in Hr as [-> _]. rewrite Hn.
    unfold or_else. rewrite extractName_scan in Hn.
    destruct (Nat.eqb_spec (name_len (trim text)) 0) as [Z|Z]; [discriminate|].
    assert (I : forall x y : string, Some x = Some y -> y = x) by congruence.
    apply I in Hn. subst n.
    pose proof (name_len_le (trim text)) as Hle.
    destruct (trim text) as [|c s]; [cbn in *; lia|].
    destruct (name_len (String c s)); [contradiction | reflexivity].
  - unfold afterPhone. rewrite A.
    destruct (extractPhone (trim rest)) as [p|].
    + eapply subseq_trans; [apply subseq_trim|].
      eapply subseq_trans; [apply subseq_replace | apply subseq_trim].
    + apply subseq_trim.
  - now apply parseAppointment_datetime.
Qed.


(** ** The further properties on sample inputs *)

Lemma twelve_hour_conversion_witness :
  exec Patterns.time12 "at 12am"
  = Some (RMatch 3 "12am" [(3%nat, "am"); (1%nat, "12")])
  /\ foundTime "at 12am" = Some (0, 0).
Proof.
  assert (H : exec Patterns.time12 "at 12am"
              = Some (RMatch 3 "12am" [(3%nat, "am"); (1%nat, "12")]))
    by reflexivity.
  split; [exact H|].
  destruct (twelve_hour_conversion "at 12am" _ H) as (_ & _ & _ & _ & _ & F).
  rewrite F. reflexivity.
Defined.

Lemma tomorrow_is_one_day_on_witness :
  includes (toLowerCase "Tomorrowland trip") "tomorrow" = true
  /\ exec Patterns.weekday (toLowerCase "Tomorrowland trip") = None
  /\ exec Patterns.specific_date "Tomorrowland trip" = None
  /\ Day (LocalTime sample_clock (resultTime sample_clock "Tomorrowland trip"))
     = Day (LocalTime sample_clock (now sample_clock)) + 1.
Proof.
  do 3 (split; [reflexivity|]).
  destruct (tomorrow_is_one_day_on sample_clock "Tomorrowland trip"
              eq_refl eq_refl eq_refl) as (_ & _ & H).
  apply H. reflexivity.
Defined.

Lemma numeric_date_fields_witness :
  exec Patterns.specific_date "on 2/29/24"
  = Some (RMatch 3 "2/29/24" [(3%nat, "24"); (2%nat, "29"); (1%nat, "2")])
  /\ getFullYear sample_clock (targetDate (stages sample_clock "on 2/29/24")) = 2024
  /\ getMonth sample_clock (targetDate (stages sample_clock "on 2/29/24")) = 1
  /\ getDate sample_clock (targetDate (stages sample_clock "on 2/29/24")) = 29.
Proof.
  assert (H : exec Patterns.specific_date "on 2/29/24"
              = Some (RMatch 3 "2/29/24"
                        [(3%nat, "24"); (2%nat, "29"); (1%nat, "2")]))
    by reflexivity.
  split; [exact H|].
  destruct (numeric_date_fields sample_clock "on 2/29/24" _ H)
    as (_ & _ & _ & F).
  apply F; vm_compute; split; discriminate.
Defined.

Lemma fields_come_from_text_witness :
  parseAppointment sample_clock " Ann 7205551212 fix  sink "
  = Some {| name := "Ann"; phone := "720-555-1212"; details := "fix  sink";
            datetime := "2025-12-17T09:00:00.000Z" |}
  /\ subseq "fix  sink" " Ann 7205551212 fix  sink ".
Proof.
  assert (H : parseAppointment sample_clock " Ann 7205551212 fix  sink "
              = Some {| name := "Ann"; phone := "720-555-1212";
                        details := "fix  sink";
                        datetime := "2025-12-17T09:00:00.000Z" |})
    by (vm_compute; reflexivity).
  split; [exact H|].
  destruct (fields_come_from_text sample_clock _ _ H) as (_ & _ & [D|D]).
  - discriminate D.
  - apply D.
Defined.

Lemma ill_typed_answer_falls_back_witness :
  Companion.parseAppointment numeric_phone sample_clock "Ann 7205551212"
  = Companion.fallback sample_clock "Ann 7205551212".
Proof.
  destruct (ill_typed_answer_falls_back numeric_phone sample_clock
              "Ann 7205551212" _ _ eq_refl eq_refl eq_refl) as [_ H].
  apply (H "{ }" _ eq_refl eq_refl). right.
  exists (Companion.JNumber 7205551212). split; reflexivity.
Defined.

Lemma clean_unwraps_fence_witness :
  no_backtick "{ }" = true
  /\ Companion.clean (fenced "json" "{ }") = "{ }".
Proof.
  split; [reflexivity|].
  destruct (clean_unwraps_fence "{ }" eq_refl) as [H _]. exact H.
Defined.

Lemma month_navigation_witness :
  toISOString (App.currentMonth (App.nextMonth sample_clock
                                   (App.initialState sample_clock)))
  = "2026-01-01T00:00:00.000Z"
  /\ App.currentMonth
       (App.previousMonth sample_clock
          (App.nextMonth sample_clock (App.initialState sample_clock)))
     = App.currentMonth (App.initialState sample_clock).
Proof.
  split; [vm_compute; reflexivity|].
  assert (Hy : 101 <= 2025) by lia.
  assert (Hm : 0 <= 11 <= 11) by lia.
  destruct (month_navigation sample_clock (App.initialState sample_clock)
              2025 11 eq_refl Hy Hm) as (_ & _ & _ & _ & _ & _ & _ & H).
  exact H.
Defined.

Lemma ten_digits_are_found_witness :
  String.length "1234567890" = 10%nat
  /\ forall_string is_digit "1234567890" = true
  /\ exists p, extractPhone ("order" ++ "1234567890" ++ "1234") = Some p.
Proof.
  split; [reflexivity|]. split; [reflexivity|].
  destruct (ten_digits_are_found "order" "1234567890" "1234" eq_refl eq_refl)
    as (p & H & _).
  now exists p.
Defined.

Lemma parsed_appointment_is_shown_witness :
  truthy (trim "Bob 2/30 at 14:30") = true
  /\ exists apt,
       App.datetime apt = "2025-03-02T14:30:00.000Z"
       /\ In apt
            (App.getEventsForDate iso_parse sample_clock
               (App.handleParse sample_clock
                  (typed_in "Bob 2/30 at 14:30"))
               (Some (newDate sample_clock 2025 2 2))).
Proof.
  split; [reflexivity|].
  destruct (parsed_appointment_is_shown iso_parse sample_clock
              (typed_in "Bob 2/30 at 14:30")
              iso_parse_toISOString eq_refl)
    as (apt & _ & Hd & _ & Hc).
  - vm_compute. split; discriminate.
  - exists apt. split.
    + rewrite Hd. vm_compute. reflexivity.
    + apply (proj2 (Hc (newDate sample_clock 2025 2 2))). vm_compute. reflexivity.
Defined.

Lemma name_hides_cues_witness :
  extractName (trim "Friday Lee call at 3pm") = Some "Friday Lee"
  /\ exists r,
       parseAppointment sample_clock "Friday Lee call at 3pm" = Some r
       /\ name r = "Friday Lee"
       /\ datetime r = "2025-12-17T15:00:00.000Z".
Proof.
  split; [reflexivity|].
  assert (H : parseAppointment sample_clock "Friday Lee call at 3pm"
              = Some {| name := "Friday Lee"; phone := "No phone";
                        details := "call at";
                        datetime := "2025-12-17T15:00:00.000Z" |})
    by (vm_compute; reflexivity).
  destruct (name_hides_cues sample_clock "Friday Lee call at 3pm" "Friday Lee"
              _ eq_refl H) as (rest & _ & N & _ & D).
  eexists. split; [exact H|]. split; [exact N|]. reflexivity.
Defined.

Lemma shown_in_one_cell_witness :
  exists apt,
    In apt
      (App.getEventsForDate iso_parse sample_clock
         (App.handleParse sample_clock (typed_in "Bob 2/30 at 14:30"))
         (Some (newDate sample_clock 2025 2 2)))
    /\ nth_error
         (App.getDaysInMonth sample_clock
            (App.currentMonth (typed_in "Bob 2/30 at 14:30"))) 7
       = Some (Some (newDate sample_clock 2025 2 2)).
Proof.
  assert (Hc : nth_error
                 (App.getDaysInMonth sample_clock
                    (App.currentMonth (typed_in "Bob 2/30 at 14:30"))) 7
               = Some (Some (newDate sample_clock 2025 2 2)))
    by (vm_compute; reflexivity).
  destruct (shown_in_one_cell iso_parse sample_clock
              (typed_in "Bob 2/30 at 14:30") iso_parse_toISOString eq_refl)
    as (apt & _ & H).
  - vm_compute. split; discriminate.
  - exists apt. split; [|exact Hc].
    apply (proj2 (H 7%nat _ Hc)). vm_compute. repeat split; reflexivity.
Defined.
